(** * VMnet 0.4: a shallow embedding of [vmnet.c] and its verification

    [vmnet.c] relays IP packets between a SLIP line on a pseudo-terminal and
    the standard input and output of a virtual machine.  The program is a
    sequence of system calls, so it is embedded as functions in a small
    state-and-exit monad over a [world]: the two byte streams it reads, the
    two it writes, the static [FILE *] of the configuration reader, the
    global [go] flag and the log of its other system calls.  Everything the
    operating system decides (return values of [ioctl], readiness reported
    by [select], the size of a [read]) is taken from a [kernel] record. *)

From Stdlib Require Import ZArith List String Ascii Bool Lia DecimalString.
From Equations Require Import Equations.
Import ListNotations.
Local Open Scope Z_scope.

(** ** Characters, arrays and C strings *)

Definition NUL : ascii := "000"%char.
Definition NL : ascii := "010"%char.

(** A [char] array.  The contents of an array that was never written are
    whatever the stack held, so initial arrays are arbitrary lists. *)
Definition array := list ascii.

Definition sizeof (a : array) : Z := Z.of_nat (List.length a).

(** [a[i] = c]; an index outside the array is undefined behaviour. *)
Definition store (a : array) (i : Z) (c : ascii) : option array :=
  if (0 <=? i) && (i <? sizeof a)
  then Some (firstn (Z.to_nat i) a ++ c :: skipn (S (Z.to_nat i)) a)
  else None.

(** Reading an array as a C string: the characters before the first NUL.
    An array without a NUL is not a string. *)
Fixpoint c_str (a : array) : option string :=
  match a with
  | [] => None
  | c :: a' =>
      if Ascii.eqb c NUL then Some EmptyString
      else option_map (String c) (c_str a')
  end.

(** [strncpy(dst, src, n)]: exactly [n] characters are written, the string
    and then NUL padding; no NUL is written when [src] has [n] characters
    or more. *)
Definition strncpy (dst : array) (src : string) (n : nat) : array :=
  firstn n (list_ascii_of_string src ++ repeat NUL n) ++ skipn n dst.
Arguments strncpy : simpl never.

(** [strcmp]: only the sign of the result is specified. *)
Fixpoint strcmp (a b : string) : Z :=
  match a, b with
  | EmptyString, EmptyString => 0
  | EmptyString, String _ _ => -1
  | String _ _, EmptyString => 1
  | String c a', String d b' =>
      if Ascii.eqb c d then strcmp a' b'
      else if (nat_of_ascii c <? nat_of_ascii d)%nat then -1 else 1
  end.

(** The C string held by a buffer that [fgets] filled: [fgets] terminates
    what it read with a NUL, and a NUL read from the file ends the string
    earlier. *)
Fixpoint until_nul (s : string) : string :=
  match s with
  | EmptyString => EmptyString
  | String c s' => if Ascii.eqb c NUL then EmptyString else String c (until_nul s')
  end.

Definition first_char (s : string) : ascii :=
  match s with
  | EmptyString => NUL
  | String c _ => c
  end.

(** ** The library calls of the configuration reader *)

(** [fgets(buf, size, fp)] on the unread part [fp] of the file: at most
    [size - 1] characters, stopping after a newline. *)
Fixpoint fgets_chars (n : nat) (fp : string) : string * string :=
  match n, fp with
  | O, _ => (EmptyString, fp)
  | S _, EmptyString => (EmptyString, EmptyString)
  | S n', String c fp' =>
      if Ascii.eqb c NL then (String c EmptyString, fp')
      else let (l, r) := fgets_chars n' fp' in (String c l, r)
  end.

Definition fgets (size : nat) (fp : string) : option (string * string) :=
  match fp with
  | EmptyString => None
  | _ => Some (fgets_chars (size - 1) fp)
  end.

(** [isspace] in the C locale. *)
Definition isspace (c : ascii) : bool :=
  let n := nat_of_ascii c in
  ((n =? 32) || ((9 <=? n) && (n <=? 13)))%nat.

Fixpoint skip_space (s : string) : string :=
  match s with
  | EmptyString => EmptyString
  | String c s' => if isspace c then skip_space s' else s
  end.

Fixpoint scan_word (width : nat) (s : string) : string * string :=
  match width, s with
  | S w, String c s' =>
      if isspace c then (EmptyString, s)
      else let (x, r) := scan_word w s' in (String c x, r)
  | _, _ => (EmptyString, s)
  end.

(** The conversion [%<width>s]: skip white space, then take up to [width]
    characters that are not white space; it fails at the end of the input. *)
Definition conv_s (width : nat) (s : string) : option (string * string) :=
  match skip_space s with
  | EmptyString => None
  | s1 => Some (scan_word width s1)
  end.

Record cfgentry := {
  cfg_username : string;
  cfg_remoteip : string;
  cfg_localip : string;
  cfg_script : string
}.

Definition set_cfg_username (u : string) (c : cfgentry) : cfgentry :=
  {| cfg_username := u; cfg_remoteip := cfg_remoteip c;
     cfg_localip := cfg_localip c; cfg_script := cfg_script c |}.
Definition set_cfg_remoteip (r : string) (c : cfgentry) : cfgentry :=
  {| cfg_username := cfg_username c; cfg_remoteip := r;
     cfg_localip := cfg_localip c; cfg_script := cfg_script c |}.
Definition set_cfg_localip (l : string) (c : cfgentry) : cfgentry :=
  {| cfg_username := cfg_username c; cfg_remoteip := cfg_remoteip c;
     cfg_localip := l; cfg_script := cfg_script c |}.
Definition set_cfg_script (s : string) (c : cfgentry) : cfgentry :=
  {| cfg_username := cfg_username c; cfg_remoteip := cfg_remoteip c;
     cfg_localip := cfg_localip c; cfg_script := s |}.

(** [sscanf(line, "%127s %63s %63s %255s\n", ...)]: the number of fields
    assigned (EOF, -1, when the input ends before the first), and the
    entry with the assigned fields overwritten.  White space in the format
    skips white space in the input. *)
Definition sscanf_cfg (line : string) (cfg : cfgentry) : Z * cfgentry :=
  match conv_s 127 line with
  | None => (-1, cfg)
  | Some (u, s1) =>
      let cfg := set_cfg_username u cfg in
      match conv_s 63 (skip_space s1) with
      | None => (1, cfg)
      | Some (r, s2) =>
          let cfg := set_cfg_remoteip r cfg in
          match conv_s 63 (skip_space s2) with
          | None => (2, cfg)
          | Some (l, s3) =>
              let cfg := set_cfg_localip l cfg in
              match conv_s 255 (skip_space s3) with
              | None => (3, cfg)
              | Some (s, _) => (4, set_cfg_script s cfg)
              end
          end
      end
  end.

Lemma fgets_chars_shorter n c fp l r :
  fgets_chars (S n) (String c fp) = (l, r) ->
  (String.length r < String.length (String c fp))%nat.
Proof.
  revert c fp l r. induction n as [|n IH]; intros c fp l r; simpl.
  - destruct (Ascii.eqb c NL); intros H; inversion H; subst; simpl; lia.
  - destruct (Ascii.eqb c NL).
    { intros H; inversion H; subst; simpl; lia. }
    destruct fp as [|c' fp'].
    + intros H; inversion H; simpl; lia.
    + specialize (IH c' fp'). simpl in IH.
      destruct (Ascii.eqb c' NL).
      { intros H; inversion H; subst; simpl; lia. }
      destruct (fgets_chars n fp') as [l' r'] eqn:E.
      intros H; inversion H; subst.
      specialize (IH _ _ eq_refl). simpl in *. lia.
Qed.

Lemma fgets_shorter fp l r :
  fgets 1024 fp = Some (l, r) -> (String.length r < String.length fp)%nat.
Proof.
  destruct fp as [|c fp]; [discriminate|].
  unfold fgets. intros H.
  apply (fgets_chars_shorter 1022 c fp l r).
  change (S 1022) with (1024 - 1)%nat. congruence.
Qed.

Definition inspect {A} (a : A) : {b | a = b} := exist _ a eq_refl.

(** The [while (1)] loop of [getcfgentry] on the unread part of the file:
    the entry found and what is left unread, or no entry at the end of the
    file.  Every [fgets] that succeeds consumes a character. *)
Equations? getcfgentry_lines (fp : string) (cfg : cfgentry)
  : option (cfgentry * string) by wf (String.length fp) lt :=
  getcfgentry_lines fp cfg with inspect (fgets 1024 fp) => {
    | exist _ None _ := None
    | exist _ (Some (linebuffer, rest)) e :=
        let '(r, cfg') :=
          sscanf_cfg (until_nul linebuffer) (set_cfg_script EmptyString cfg) in
        if (3 <=? r) && negb (Ascii.eqb (first_char (cfg_username cfg')) "#"%char)
        then Some (cfg', rest)
        else getcfgentry_lines rest cfg' }.
Proof. eapply fgets_shorter; eauto. Qed.

Lemma getcfgentry_lines_step fp cfg :
  getcfgentry_lines fp cfg =
  match fgets 1024 fp with
  | None => None
  | Some (linebuffer, rest) =>
      let '(r, cfg') :=
        sscanf_cfg (until_nul linebuffer) (set_cfg_script EmptyString cfg) in
      if (3 <=? r) && negb (Ascii.eqb (first_char (cfg_username cfg')) "#"%char)
      then Some (cfg', rest)
      else getcfgentry_lines rest cfg'
  end.
Proof.
  funelim (getcfgentry_lines fp cfg); rewrite e; reflexivity.
Qed.

Lemma getcfgentry_lines_shorter fp :
  forall cfg cfg' rest,
    getcfgentry_lines fp cfg = Some (cfg', rest) ->
    (String.length rest < String.length fp)%nat.
Proof.
  induction fp as [fp IH] using (well_founded_induction
    (Wf_nat.well_founded_ltof _ String.length)).
  intros cfg cfg' rest. rewrite getcfgentry_lines_step.
  destruct (fgets 1024 fp) as [[l r]|] eqn:E; [|discriminate].
  apply fgets_shorter in E.
  destruct (sscanf_cfg _ _) as [n c]. destruct (_ && _).
  - intros H; inversion H; subst; exact E.
  - intros H. apply IH in H; [lia | exact E].
Qed.

(** The [while] loop of [getcfgbyid] on the unread part of the file. *)
Equations? getcfgbyid_lines (fp : string) (cfg : cfgentry)
  (username remoteip : string)
  : option (cfgentry * string) by wf (String.length fp) lt :=
  getcfgbyid_lines fp cfg username remoteip
    with inspect (getcfgentry_lines fp cfg) => {
    | exist _ None _ := None
    | exist _ (Some (cfg', rest)) e :=
        if (strcmp username (cfg_username cfg') =? 0)
           && (strcmp remoteip (cfg_remoteip cfg') =? 0)
        then Some (cfg', rest)
        else getcfgbyid_lines rest cfg' username remoteip }.
Proof. eapply getcfgentry_lines_shorter; eauto. Qed.

(** The records of a store, in file order: what successive calls of
    [getcfgentry] return until the end of the file. *)
Equations? records (fp : string) (cfg : cfgentry) : list cfgentry
  by wf (String.length fp) lt :=
  records fp cfg with inspect (getcfgentry_lines fp cfg) => {
    | exist _ None _ := []
    | exist _ (Some (cfg', rest)) e := cfg' :: records rest cfg' }.
Proof. eapply getcfgentry_lines_shorter; eauto. Qed.

(** ** The world the program runs in *)

(** What a descriptor will deliver: data, and read errors in between.  The
    end of the list is the end of the stream. *)
Inductive item := Data (c : ascii) | Fault.
Definition stream := list item.

(** The system calls that are not reads or writes of the four streams. *)
Inductive effect :=
| Perror (msg : string)
| Eprintf (msg : string)
| System (cmd : string)
| Tcsetattr (fd : Z)
| Tiocsetd (fd disc : Z)
| Siocsifencap (fd encap : Z)
| Setuid (uid : Z)
| Close (fd : Z).

(** What the kernel does during one turn of the relay loop. *)
Record iter_env := {
  ev_signal : bool;        (* a signal is caught during this turn *)
  ev_select_fail : bool;   (* select returns -1 *)
  ev_ready_r : Z;          (* descriptors ready for reading, as a bit set *)
  ev_ready_w : Z;          (* descriptors ready for writing *)
  ev_chunk_host : Z;       (* bytes a read of descriptor 0 can deliver *)
  ev_chunk_link : Z;       (* bytes a read of the pty master can deliver *)
  ev_accept_link : Z;      (* what a write to the pty master returns at most *)
  ev_accept_host : Z       (* what a write to descriptor 1 returns at most *)
}.

(** Everything the operating system decides. *)
Record kernel := {
  k_stdin : stream;
  k_link : stream;
  k_passwd : option string;   (* pw_name of getpwuid(getuid()), if any *)
  k_config : option string;   (* contents of CONFIG_FILE, if it opens *)
  k_getpt : Z;
  k_grantpt : Z;
  k_unlockpt : Z;
  k_ptsname_r : Z;
  k_open : Z;
  k_tcgetattr : Z;
  k_tcsetattr : Z;
  k_tiocgetd : Z * Z;         (* return value, discipline reported *)
  k_tiocsetd : Z;
  k_siocsifencap : Z;
  k_tiocgetd2 : Z * Z;
  k_siocgifencap : Z * Z;
  k_tiocsetd_restore : Z;
  k_signal_early : bool;      (* a signal is caught before the loop *)
  k_events : list iter_env;
  k_frame_chars : nat -> ascii;  (* indeterminate contents of locals *)
  k_frame_ints : nat -> Z;
  k_frame_cfg : cfgentry
}.

Record world := {
  w_stdin : stream;        (* what descriptor 0 will still deliver *)
  w_link : stream;         (* what the pty master will still deliver *)
  w_stdout : list ascii;   (* written to descriptor 1 *)
  w_linkout : list ascii;  (* written to the pty master *)
  w_fp : option string;    (* static FILE *fp of getcfgentry: the unread part *)
  w_go : Z;                (* the global go *)
  w_open : list Z;         (* descriptors opened and not closed *)
  w_log : list effect      (* other system calls, oldest first *)
}.

Definition set_stdin (s : stream) (w : world) : world :=
  {| w_stdin := s; w_link := w_link w; w_stdout := w_stdout w;
     w_linkout := w_linkout w; w_fp := w_fp w; w_go := w_go w;
     w_open := w_open w; w_log := w_log w |}.
Definition set_link (s : stream) (w : world) : world :=
  {| w_stdin := w_stdin w; w_link := s; w_stdout := w_stdout w;
     w_linkout := w_linkout w; w_fp := w_fp w; w_go := w_go w;
     w_open := w_open w; w_log := w_log w |}.
Definition set_stdout (o : list ascii) (w : world) : world :=
  {| w_stdin := w_stdin w; w_link := w_link w; w_stdout := o;
     w_linkout := w_linkout w; w_fp := w_fp w; w_go := w_go w;
     w_open := w_open w; w_log := w_log w |}.
Definition set_linkout (o : list ascii) (w : world) : world :=
  {| w_stdin := w_stdin w; w_link := w_link w; w_stdout := w_stdout w;
     w_linkout := o; w_fp := w_fp w; w_go := w_go w;
     w_open := w_open w; w_log := w_log w |}.
Definition set_fp (fp : option string) (w : world) : world :=
  {| w_stdin := w_stdin w; w_link := w_link w; w_stdout := w_stdout w;
     w_linkout := w_linkout w; w_fp := fp; w_go := w_go w;
     w_open := w_open w; w_log := w_log w |}.
Definition set_go (g : Z) (w : world) : world :=
  {| w_stdin := w_stdin w; w_link := w_link w; w_stdout := w_stdout w;
     w_linkout := w_linkout w; w_fp := w_fp w; w_go := g;
     w_open := w_open w; w_log := w_log w |}.
Definition set_open (o : list Z) (w : world) : world :=
  {| w_stdin := w_stdin w; w_link := w_link w; w_stdout := w_stdout w;
     w_linkout := w_linkout w; w_fp := w_fp w; w_go := w_go w;
     w_open := o; w_log := w_log w |}.
Definition set_log (l : list effect) (w : world) : world :=
  {| w_stdin := w_stdin w; w_link := w_link w; w_stdout := w_stdout w;
     w_linkout := w_linkout w; w_fp := w_fp w; w_go := w_go w;
     w_open := w_open w; w_log := l |}.

(** ** The monad: state, [exit], undefined behaviour *)

Inductive res (A : Type) :=
| Ret (a : A)          (* the call returns *)
| Exit (code : Z)      (* exit(code) was called *)
| Undef                (* undefined behaviour *)
| Blocked.             (* waiting in select with nothing more to come *)
Arguments Ret {A} a.
Arguments Exit {A} code.
Arguments Undef {A}.
Arguments Blocked {A}.

Definition M (A : Type) : Type := world -> res A * world.

Definition ret {A} (a : A) : M A := fun w => (Ret a, w).

Definition bind {A B} (m : M A) (f : A -> M B) : M B :=
  fun w =>
    match m w with
    | (Ret a, w') => f a w'
    | (Exit c, w') => (Exit c, w')
    | (Undef, w') => (Undef, w')
    | (Blocked, w') => (Blocked, w')
    end.

Declare Scope vmnet_scope.
Delimit Scope vmnet_scope with vmnet.
Notation "x <- m ;; f" := (bind m (fun x => f))
  (at level 61, m at next level, right associativity) : vmnet_scope.
Notation "' p <- m ;; f" := (bind m (fun x => let 'p := x in f))
  (at level 61, p pattern, m at next level, right associativity) : vmnet_scope.
Notation "m ;; f" := (bind m (fun _ => f))
  (at level 61, right associativity) : vmnet_scope.
Local Open Scope vmnet_scope.

Definition exit {A} (code : Z) : M A := fun w => (Exit code, w).
Definition undef {A} : M A := fun w => (Undef, w).
Definition blocked {A} : M A := fun w => (Blocked, w).

Definition emit (e : effect) : M unit :=
  fun w => (Ret tt, set_log (w_log w ++ [e]) w).

Definition perror (msg : string) : M unit := emit (Perror msg).

Definition system (cmd : string) : M unit := emit (System cmd).

Definition close (fd : Z) : M unit :=
  fun w =>
    (Ret tt,
     set_log (w_log w ++ [Close fd])
       (set_open (filter (fun d => negb (d =? fd)) (w_open w)) w)).

(** A signal handled by [sig_catch]. *)
Definition sig_catch : M unit := fun w => (Ret tt, set_go 0 w).

Definition deliver (signal : bool) : M unit :=
  if signal then sig_catch else ret tt.

(** ** Descriptor sets *)

(** An [fd_set] is a bit set; [FD_SET], [FD_CLR] and [FD_ISSET] set, clear
    and test the bit of a descriptor. *)
Definition fd_set := Z.
Definition FD_ZERO : fd_set := 0.
Definition FD_SET (fd : Z) (s : fd_set) : fd_set := Z.setbit s fd.
Definition FD_CLR (fd : Z) (s : fd_set) : fd_set := Z.clearbit s fd.
Definition FD_ISSET (fd : Z) (s : fd_set) : bool := Z.testbit s fd.
Arguments FD_SET : simpl never.
Arguments FD_CLR : simpl never.
Arguments FD_ISSET : simpl never.

Fixpoint popcount_pos (p : positive) : Z :=
  match p with
  | xH => 1
  | xO q => popcount_pos q
  | xI q => 1 + popcount_pos q
  end.

Definition popcount (s : fd_set) : Z :=
  match s with
  | Zpos p => popcount_pos p
  | _ => 0
  end.

(** [select(nfds, &readfds, &writefds, 0, 0)]: the sets are replaced by
    their ready members below [nfds], whose number is returned; after a
    failure the sets are not looked at. *)
Definition sys_select (ev : iter_env) (nfds : Z) (readfds writefds : fd_set)
  : Z * fd_set * fd_set :=
  if ev_select_fail ev then (-1, readfds, writefds)
  else
    let r := Z.land (Z.land readfds (ev_ready_r ev)) (Z.ones nfds) in
    let w := Z.land (Z.land writefds (ev_ready_w ev)) (Z.ones nfds) in
    (popcount r + popcount w, r, w).

(** ** Reading and writing the streams *)

Fixpoint take_data (n : nat) (s : stream) : list ascii * stream :=
  match n, s with
  | S n', Data c :: s' => let (cs, r) := take_data n' s' in (c :: cs, r)
  | _, _ => ([], s)
  end.

(** [read] of at most [count] bytes when the kernel has [chunk] bytes at
    hand (at least one, [read] waits for it): the return value, the bytes
    stored and the rest of the stream. *)
Definition stream_read (s : stream) (count chunk : Z)
  : Z * list ascii * stream :=
  match s with
  | [] => (0, [], [])
  | Fault :: s' => (-1, [], s')
  | Data _ :: _ =>
      let (cs, r) := take_data (Z.to_nat (Z.min count (Z.max 1 chunk))) s in
      (Z.of_nat (List.length cs), cs, r)
  end.

(** The [do ... while] loop of [readline]: [read(fd, &buf[n], 1)] until a
    newline is stored, [len] bytes are stored or the read fails. *)
Fixpoint readline_from (s : stream) (buf : array) (n len : Z)
  : option (Z * array) * stream :=
  match s with
  | [] => (Some (n, buf), [])
  | Fault :: s' => (Some (n, buf), s')
  | Data c :: s' =>
      match store buf n c with
      | None => (None, s')
      | Some buf' =>
          if negb (Ascii.eqb c NL) && (n + 1 <? len)
          then readline_from s' buf' (n + 1) len
          else (Some (n + 1, buf'), s')
      end
  end.

Record slipconn := {
  sc_masterfd : Z;
  sc_slavefd : Z;
  sc_unit : Z;
  sc_oldldisc : Z;
  sc_username : array;   (* char username[128] *)
  sc_remoteip : array;   (* char remoteip[64] *)
  sc_localip : array;    (* char localip[64] *)
  sc_script : array      (* char script[256] *)
}.

Definition set_masterfd (v : Z) (sc : slipconn) : slipconn :=
  {| sc_masterfd := v; sc_slavefd := sc_slavefd sc; sc_unit := sc_unit sc;
     sc_oldldisc := sc_oldldisc sc; sc_username := sc_username sc;
     sc_remoteip := sc_remoteip sc; sc_localip := sc_localip sc;
     sc_script := sc_script sc |}.
Definition set_slavefd (v : Z) (sc : slipconn) : slipconn :=
  {| sc_masterfd := sc_masterfd sc; sc_slavefd := v; sc_unit := sc_unit sc;
     sc_oldldisc := sc_oldldisc sc; sc_username := sc_username sc;
     sc_remoteip := sc_remoteip sc; sc_localip := sc_localip sc;
     sc_script := sc_script sc |}.
Definition set_unit (v : Z) (sc : slipconn) : slipconn :=
  {| sc_masterfd := sc_masterfd sc; sc_slavefd := sc_slavefd sc; sc_unit := v;
     sc_oldldisc := sc_oldldisc sc; sc_username := sc_username sc;
     sc_remoteip := sc_remoteip sc; sc_localip := sc_localip sc;
     sc_script := sc_script sc |}.
Definition set_oldldisc (v : Z) (sc : slipconn) : slipconn :=
  {| sc_masterfd := sc_masterfd sc; sc_slavefd := sc_slavefd sc;
     sc_unit := sc_unit sc; sc_oldldisc := v; sc_username := sc_username sc;
     sc_remoteip := sc_remoteip sc; sc_localip := sc_localip sc;
     sc_script := sc_script sc |}.
Definition set_username (a : array) (sc : slipconn) : slipconn :=
  {| sc_masterfd := sc_masterfd sc; sc_slavefd := sc_slavefd sc;
     sc_unit := sc_unit sc; sc_oldldisc := sc_oldldisc sc; sc_username := a;
     sc_remoteip := sc_remoteip sc; sc_localip := sc_localip sc;
     sc_script := sc_script sc |}.
Definition set_remoteip (a : array) (sc : slipconn) : slipconn :=
  {| sc_masterfd := sc_masterfd sc; sc_slavefd := sc_slavefd sc;
     sc_unit := sc_unit sc; sc_oldldisc := sc_oldldisc sc;
     sc_username := sc_username sc; sc_remoteip := a;
     sc_localip := sc_localip sc; sc_script := sc_script sc |}.
Definition set_localip (a : array) (sc : slipconn) : slipconn :=
  {| sc_masterfd := sc_masterfd sc; sc_slavefd := sc_slavefd sc;
     sc_unit := sc_unit sc; sc_oldldisc := sc_oldldisc sc;
     sc_username := sc_username sc; sc_remoteip := sc_remoteip sc;
     sc_localip := a; sc_script := sc_script sc |}.
Definition set_script (a : array) (sc : slipconn) : slipconn :=
  {| sc_masterfd := sc_masterfd sc; sc_slavefd := sc_slavefd sc;
     sc_unit := sc_unit sc; sc_oldldisc := sc_oldldisc sc;
     sc_username := sc_username sc; sc_remoteip := sc_remoteip sc;
     sc_localip := sc_localip sc; sc_script := a |}.

(** [struct buf]; [ptr] is kept as an offset into [data]. *)
Record buf := {
  buf_len : Z;
  buf_ptr : Z;
  buf_data : array      (* char data[16*1024] *)
}.

(** The descriptor sets and buffers of [main]. *)
Record relay := {
  rfds : fd_set;
  wfds : fd_set;
  stdinbuf : buf;
  stdoutbuf : buf
}.

(** The line discipline of SLIP, from the kernel's headers. *)
Definition N_SLIP : Z := 1.

(** [%d]. *)
Definition dec (z : Z) : string :=
  DecimalString.NilZero.string_of_int (Z.to_int z).

Section Program.

(** [IFCONFIG] is a macro of [config.h], which is not among the sources;
    [CONFIG_FILE], from the same header, only names the file whose contents
    are [k_config]. *)
Variable IFCONFIG : string.
Variable k : kernel.

(** The return value of a [write] of [bytes] when the kernel takes at most
    [accept] of them; a value that is not positive is returned as it is. *)
Definition accepted (accept : Z) (bytes : list ascii) : Z :=
  if accept <=? 0 then accept else Z.min accept (Z.of_nat (List.length bytes)).

(** Descriptor 0 is the host input, descriptor 1 the host output and the
    descriptor returned by [getpt] the pty master; a read or write of any
    other descriptor fails. *)
Definition sys_read (ev : iter_env) (fd count : Z) : M (Z * list ascii) :=
  fun w =>
    if fd =? 0 then
      let '(r, cs, s) := stream_read (w_stdin w) count (ev_chunk_host ev) in
      (Ret (r, cs), set_stdin s w)
    else if fd =? k_getpt k then
      let '(r, cs, s) := stream_read (w_link w) count (ev_chunk_link ev) in
      (Ret (r, cs), set_link s w)
    else (Ret (-1, []), w).

Definition sys_write (ev : iter_env) (fd : Z) (bytes : list ascii) : M Z :=
  fun w =>
    if fd =? 1 then
      let r := accepted (ev_accept_host ev) bytes in
      (Ret r, set_stdout (w_stdout w ++ firstn (Z.to_nat r) bytes) w)
    else if fd =? k_getpt k then
      let r := accepted (ev_accept_link ev) bytes in
      (Ret r, set_linkout (w_linkout w ++ firstn (Z.to_nat r) bytes) w)
    else (Ret (-1), w).

(** *** readline *)

(** [login] calls it for descriptor 0; on another descriptor the first
    [read] fails. *)
Definition readline (fd : Z) (buf : array) (len : Z) : M (Z * array) :=
  if len =? 0 then ret (0, buf)
  else
    fun w =>
      if fd =? 0 then
        match readline_from (w_stdin w) buf 0 len with
        | (Some nb, s) => (Ret nb, set_stdin s w)
        | (None, s) => (Undef, set_stdin s w)
        end
      else (Ret (0, buf), w).

(** *** getcfgentry, getcfgbyid *)

(** The unread part of the file after the [if (fp == NULL)] block of
    [getcfgentry]; [None] when [fopen] fails. *)
Definition cfg_stream (w : world) : option string :=
  match w_fp w with
  | Some fp => Some fp
  | None => k_config k
  end.

Definition getcfgentry (cfg : cfgentry) : M (option cfgentry) :=
  fun w =>
    match cfg_stream w with
    | None =>
        (perror "Cannot open configuration file:" ;; exit 1) w
    | Some fp =>
        match getcfgentry_lines fp cfg with
        | None => (Ret None, set_fp None w)
        | Some (cfg', rest) => (Ret (Some cfg'), set_fp (Some rest) w)
        end
    end.

(** The loop of [getcfgbyid] in one piece; [getcfgbyid_loop] below shows
    that it is one call of [getcfgentry], the test, and the loop again. *)
Definition getcfgbyid (cfg : cfgentry) (username remoteip : string)
  : M (option cfgentry) :=
  fun w =>
    match cfg_stream w with
    | None =>
        (perror "Cannot open configuration file:" ;; exit 1) w
    | Some fp =>
        match getcfgbyid_lines fp cfg username remoteip with
        | None => (Ret None, set_fp None w)
        | Some (cfg', rest) => (Ret (Some cfg'), set_fp (Some rest) w)
        end
    end.

(** *** login *)

Definition login (sc : slipconn) : M slipconn :=
  match k_passwd k with
  | None => undef
  | Some pw_name =>
      let sc :=
        set_username
          (strncpy (sc_username sc) pw_name
             (Z.to_nat (sizeof (sc_username sc) - 1))) sc in
      '(n, remoteip) <-
        readline 0 (sc_remoteip sc) (sizeof (sc_remoteip sc)) ;;
      match store remoteip (n - 1) NUL with
      | None => undef
      | Some remoteip =>
          let sc := set_remoteip remoteip sc in
          match c_str (sc_username sc), c_str (sc_remoteip sc) with
          | Some username, Some rip =>
              found <- getcfgbyid (k_frame_cfg k) username rip ;;
              match found with
              | None =>
                  emit (Eprintf ("Remote IP address '" ++ rip
                                 ++ "' not found for user '" ++ username
                                 ++ "'" ++ String NL EmptyString)%string) ;;
                  exit 1
              | Some cfg =>
                  let sc :=
                    set_localip
                      (strncpy (sc_localip sc) (cfg_localip cfg)
                         (Z.to_nat (sizeof (sc_localip sc)))) sc in
                  let sc :=
                    set_script
                      (strncpy (sc_script sc) (cfg_script cfg)
                         (Z.to_nat (sizeof (sc_script sc)))) sc in
                  ret sc
              end
          | _, _ => undef
          end
      end
  end.

(** *** open_pty_pair *)

Definition opened (fd : Z) : M Z :=
  fun w => (Ret fd, if fd <? 0 then w else set_open (fd :: w_open w) w).

Definition getpt : M Z := opened (k_getpt k).
Definition open_slave : M Z := opened (k_open k).

(** The result is the return value and the contents of [*masterp] and
    [*slavep] afterwards. *)
Definition open_pty_pair (masterp slavep : Z) : M (Z * (Z * Z)) :=
  master <- getpt ;;
  if master <? 0 then ret (0, (masterp, slavep))
  else if (k_grantpt k <? 0) || (k_unlockpt k <? 0) then
    close master ;; ret (0, (masterp, slavep))
  else if k_ptsname_r k <? 0 then
    close master ;; ret (0, (masterp, slavep))
  else
    slave <- open_slave ;;
    if slave <? 0 then close master ;; ret (0, (masterp, slavep))
    else ret (1, (master, slave)).

(** *** tty_setup, slip_setup *)

(** The attributes [tty_setup] sets are not part of the world; the call of
    [tcsetattr] is logged. *)
Definition tty_setup (sc : slipconn) : M unit :=
  (if k_tcgetattr k <? 0 then perror "tcgetattr" else ret tt) ;;
  emit (Tcsetattr (sc_slavefd sc)) ;;
  if k_tcsetattr k <? 0 then perror "tcsetattr" ;; exit 1
  else ret tt.

Definition slip_setup (sc : slipconn) : M slipconn :=
  let sencap := 0 in
  if fst (k_tiocgetd k) <? 0 then perror "TIOCGETD" ;; exit 1
  else
    let sc := set_oldldisc (snd (k_tiocgetd k)) sc in
    let disc := N_SLIP in
    emit (Tiocsetd (sc_slavefd sc) disc) ;;
    let sc := set_unit (k_tiocsetd k) sc in
    if sc_unit sc <? 0 then perror "TIOCSETD" ;; exit 1
    else
      emit (Siocsifencap (sc_slavefd sc) sencap) ;;
      if k_siocsifencap k <? 0 then perror "SIOCSIFENCAP" ;; exit 1
      else if fst (k_tiocgetd2 k) <? 0 then perror "TIOCGETD" ;; exit 1
      else
        let disc := snd (k_tiocgetd2 k) in
        if fst (k_siocgifencap k) <? 0 then perror "SIOCGIFENCAP" ;; exit 1
        else
          let sencap := snd (k_siocgifencap k) in
          if negb (disc =? N_SLIP) || negb (sencap =? 0) then
            emit (Eprintf ("setup of SLIP failed" ++ String NL EmptyString)%string) ;;
            exit 1
          else ret sc.

(** *** interface_start, interface_stop *)

(** [*sc->script]. *)
Definition has_script (sc : slipconn) : bool :=
  negb (Ascii.eqb (hd NUL (sc_script sc)) NUL).

(** The second [sprintf] of both functions, [verb] being [up] or [down]. *)
Definition hook_suffix (verb : string) (sc : slipconn) : option string :=
  if has_script sc then
    match c_str (sc_script sc), c_str (sc_remoteip sc), c_str (sc_localip sc) with
    | Some script, Some remoteip, Some localip =>
        Some (" && " ++ script ++ " " ++ verb ++ " '" ++ remoteip
              ++ "' '" ++ localip ++ "'")%string
    | _, _, _ => None
    end
  else Some EmptyString.

(** A string that, with its terminator, does not fit [size] characters. *)
Definition overflows (size : nat) (s : string) : bool :=
  (size <=? String.length s)%nat.
Arguments overflows : simpl never.

(** [system(buf)] for a [char buf[1024]] that was filled by [sprintf]. *)
Definition system_buf (cmd : option string) : M unit :=
  match cmd with
  | None => undef
  | Some cmd => if overflows 1024 cmd then undef else system cmd
  end.

Definition start_command (sc : slipconn) : option string :=
  match c_str (sc_localip sc), c_str (sc_remoteip sc), hook_suffix "up" sc with
  | Some localip, Some remoteip, Some suffix =>
      Some (IFCONFIG ++ " sl" ++ dec (sc_unit sc) ++ " " ++ localip
            ++ " pointopoint " ++ remoteip
            ++ " netmask 255.255.255.255 mtu 1500" ++ suffix)%string
  | _, _, _ => None
  end.

Definition stop_command (sc : slipconn) : option string :=
  match hook_suffix "down" sc with
  | Some suffix =>
      Some (IFCONFIG ++ " sl" ++ dec (sc_unit sc) ++ " down" ++ suffix)%string
  | None => None
  end.

Arguments start_command : simpl never.
Arguments stop_command : simpl never.

Definition interface_start (sc : slipconn) : M unit :=
  system_buf (start_command sc).

Definition interface_stop (sc : slipconn) : M unit :=
  system_buf (stop_command sc).

(** *** slip_start, slip_release, slip_stop *)

Definition slip_start (sc : slipconn) : M slipconn :=
  '(ok, (mfd, sfd)) <- open_pty_pair (sc_masterfd sc) (sc_slavefd sc) ;;
  let sc := set_slavefd sfd (set_masterfd mfd sc) in
  if ok =? 0 then perror "open_pty_pair" ;; exit 1
  else
    tty_setup sc ;;
    sc <- slip_setup sc ;;
    interface_start sc ;;
    ret sc.

Definition slip_release (sc : slipconn) : M unit :=
  emit (Tiocsetd (sc_slavefd sc) (sc_oldldisc sc)) ;;
  (if k_tiocsetd_restore k <? 0 then perror "TIOCSETD" else ret tt) ;;
  close (sc_masterfd sc) ;;
  close (sc_slavefd sc).

Definition slip_stop (sc : slipconn) : M unit :=
  interface_stop sc ;;
  slip_release sc.

(** *** bufread, bufwrite *)

Definition bufread (ev : iter_env) (sc : slipconn) (fd : Z) (b : buf) : M buf :=
  '(r, cs) <- sys_read ev fd (sizeof (buf_data b)) ;;
  let b :=
    {| buf_len := r; buf_ptr := buf_ptr b;
       buf_data := cs ++ skipn (List.length cs) (buf_data b) |} in
  if buf_len b <? 0 then perror "read" ;; slip_stop sc ;; exit 1
  else ret {| buf_len := buf_len b; buf_ptr := 0; buf_data := buf_data b |}.

(** The [len] bytes at [ptr]. *)
Definition pending (b : buf) : list ascii :=
  firstn (Z.to_nat (buf_len b)) (skipn (Z.to_nat (buf_ptr b)) (buf_data b)).

(** The bytes at [ptr] lie in [data]; [write] from anywhere else is
    undefined. *)
Definition in_data (b : buf) : bool :=
  (0 <=? buf_ptr b) && (0 <=? buf_len b)
  && (buf_ptr b + buf_len b <=? sizeof (buf_data b)).

Definition bufwrite (ev : iter_env) (sc : slipconn) (fd : Z) (b : buf) : M buf :=
  if in_data b then
    r <- sys_write ev fd (pending b) ;;
    if r <=? 0 then perror "write" ;; slip_stop sc ;; exit 1
    else
      ret {| buf_len := buf_len b - r; buf_ptr := buf_ptr b + r;
             buf_data := buf_data b |}
  else undef.

(** *** main *)

Definition set_rfds (s : fd_set) (st : relay) : relay :=
  {| rfds := s; wfds := wfds st; stdinbuf := stdinbuf st;
     stdoutbuf := stdoutbuf st |}.
Definition set_wfds (s : fd_set) (st : relay) : relay :=
  {| rfds := rfds st; wfds := s; stdinbuf := stdinbuf st;
     stdoutbuf := stdoutbuf st |}.
Definition set_stdinbuf (b : buf) (st : relay) : relay :=
  {| rfds := rfds st; wfds := wfds st; stdinbuf := b;
     stdoutbuf := stdoutbuf st |}.
Definition set_stdoutbuf (b : buf) (st : relay) : relay :=
  {| rfds := rfds st; wfds := wfds st; stdinbuf := stdinbuf st;
     stdoutbuf := b |}.

(** The four [if (FD_ISSET(...))] blocks of the loop, in their order. *)
Definition host_readable (ev : iter_env) (sc : slipconn) (st : relay) : M relay :=
  b <- bufread ev sc 0 (stdinbuf st) ;;
  let st := set_stdinbuf b st in
  (if buf_len (stdinbuf st) =? 0 then slip_stop sc ;; exit 0 else ret tt) ;;
  if negb (buf_len (stdinbuf st) =? 0) then
    let st := set_wfds (FD_SET (sc_masterfd sc) (wfds st)) st in
    ret (set_rfds (FD_CLR 0 (rfds st)) st)
  else ret st.

Definition link_readable (ev : iter_env) (sc : slipconn) (st : relay) : M relay :=
  b <- bufread ev sc (sc_masterfd sc) (stdoutbuf st) ;;
  let st := set_stdoutbuf b st in
  if negb (buf_len (stdoutbuf st) =? 0) then
    let st := set_wfds (FD_SET 1 (wfds st)) st in
    ret (set_rfds (FD_CLR (sc_masterfd sc) (rfds st)) st)
  else ret st.

Definition link_writable (ev : iter_env) (sc : slipconn) (st : relay) : M relay :=
  b <- bufwrite ev sc (sc_masterfd sc) (stdinbuf st) ;;
  let st := set_stdinbuf b st in
  if buf_len (stdinbuf st) =? 0 then
    let st := set_rfds (FD_SET 0 (rfds st)) st in
    ret (set_wfds (FD_CLR (sc_masterfd sc) (wfds st)) st)
  else ret st.

Definition host_writable (ev : iter_env) (sc : slipconn) (st : relay) : M relay :=
  b <- bufwrite ev sc 1 (stdoutbuf st) ;;
  let st := set_stdoutbuf b st in
  if buf_len (stdoutbuf st) =? 0 then
    let st := set_rfds (FD_SET (sc_masterfd sc) (rfds st)) st in
    ret (set_wfds (FD_CLR 1 (wfds st)) st)
  else ret st.

Definition when (c : bool) (f : relay -> M relay) (st : relay) : M relay :=
  if c then f st else ret st.

(** One turn of [while (go)]; a signal caught during the turn clears [go]
    for the next test. *)
Definition relay_iter (ev : iter_env) (sc : slipconn) (st : relay) : M relay :=
  let '(n, readfds, writefds) :=
    sys_select ev (sc_masterfd sc + 1) (rfds st) (wfds st) in
  st <- (if n >? 0 then
           st <- when (FD_ISSET 0 readfds) (host_readable ev sc) st ;;
           st <- when (FD_ISSET (sc_masterfd sc) readfds) (link_readable ev sc) st ;;
           st <- when (FD_ISSET (sc_masterfd sc) writefds) (link_writable ev sc) st ;;
           when (FD_ISSET 1 writefds) (host_writable ev sc) st
         else ret st) ;;
  deliver (ev_signal ev) ;;
  ret st.

(** [while (go) ...] against the turns the kernel still has to offer; when
    they run out the process stays in [select]. *)
Fixpoint relay_loop (evs : list iter_env) (sc : slipconn) (st : relay)
  : M relay :=
  fun w =>
    if w_go w =? 0 then (Ret st, w)
    else
      match evs with
      | [] => (Blocked, w)
      | ev :: evs' =>
          (st' <- relay_iter ev sc st ;; relay_loop evs' sc st') w
      end.

(** The locals of [main] before they are written. *)
Definition frame_array (base n : nat) : array :=
  map (k_frame_chars k) (seq base n).

Definition frame_sc : slipconn :=
  {| sc_masterfd := k_frame_ints k 0; sc_slavefd := k_frame_ints k 1;
     sc_unit := k_frame_ints k 2; sc_oldldisc := k_frame_ints k 3;
     sc_username := frame_array 0 128; sc_remoteip := frame_array 128 64;
     sc_localip := frame_array 192 64; sc_script := frame_array 256 256 |}.

Definition frame_buf (i base : nat) : buf :=
  {| buf_len := k_frame_ints k i; buf_ptr := k_frame_ints k (S i);
     buf_data := frame_array base (16 * 1024) |}.

Definition relay_init (sc : slipconn) : relay :=
  {| rfds := FD_SET 0 (FD_SET (sc_masterfd sc) FD_ZERO);
     wfds := FD_ZERO;
     stdinbuf := frame_buf 4 512;
     stdoutbuf := frame_buf 6 (512 + 16 * 1024) |}.

(** [sig_setup] installs [sig_catch]; the signals themselves are the
    kernel's. *)
Definition sig_setup : M unit := ret tt.

Definition setuid (uid : Z) : M unit := emit (Setuid uid).

Definition main : M Z :=
  sig_setup ;;
  sc <- login frame_sc ;;
  setuid 0 ;;
  sc <- slip_start sc ;;
  deliver (k_signal_early k) ;;
  relay_loop (k_events k) sc (relay_init sc) ;;
  slip_stop sc ;;
  ret 0.

(** The world at process start. *)
Definition boot : world :=
  {| w_stdin := k_stdin k; w_link := k_link k; w_stdout := [];
     w_linkout := []; w_fp := None; w_go := 1; w_open := []; w_log := [] |}.

End Program.

Arguments frame_array : simpl never.
Arguments frame_buf : simpl never.

(** ** A sample run

    The example of the specification: the store authorizes [alice] for the
    remote address 10.0.0.2, the host sends that address and three packet
    bytes, and the line delivers three bytes. *)

Definition bytes (s : string) : stream := map Data (list_ascii_of_string s).

Definition line (s : string) : string := (s ++ String NL EmptyString)%string.

Definition sample_store : string :=
  (line "# identity remote local script"
   ++ line "bob 10.0.0.2 10.0.0.9"
   ++ line "alice 10.0.0.2 10.0.0.1 /etc/vmnet/up.sh"
   ++ line "alice 10.0.0.2 10.0.0.7")%string.

(** A turn in which the descriptors of [ready_r] and [ready_w] are ready. *)
Definition turn (ready_r ready_w : Z) : iter_env :=
  {| ev_signal := false; ev_select_fail := false;
     ev_ready_r := ready_r; ev_ready_w := ready_w;
     ev_chunk_host := 2; ev_chunk_link := 16; ev_accept_link := 1;
     ev_accept_host := 16 |}.

Definition no_cfg : cfgentry :=
  {| cfg_username := EmptyString; cfg_remoteip := EmptyString;
     cfg_localip := EmptyString; cfg_script := EmptyString |}.

(** A kernel with the sample identity and descriptors: [config] is the
    store, [disc] the line discipline reported after the switch to SLIP. *)
Definition kernel_of (config : option string) (disc : Z)
  (host link : stream) (turns : list iter_env) : kernel :=
  {| k_stdin := host;
     k_link := link;
     k_passwd := Some "alice"%string;
     k_config := config;
     k_getpt := 4; k_grantpt := 0; k_unlockpt := 0; k_ptsname_r := 0;
     k_open := 5; k_tcgetattr := 0; k_tcsetattr := 0;
     k_tiocgetd := (0, 0); k_tiocsetd := 0; k_siocsifencap := 0;
     k_tiocgetd2 := (0, disc); k_siocgifencap := (0, 0);
     k_tiocsetd_restore := 0; k_signal_early := false;
     k_events := turns;
     k_frame_chars := fun _ => "x"%char;
     k_frame_ints := fun _ => 77;
     k_frame_cfg := no_cfg |}.

Definition sample_with (host link : stream) (turns : list iter_env) : kernel :=
  kernel_of (Some sample_store) N_SLIP host link turns.

Definition sample_kernel : kernel :=
  sample_with (bytes (line "10.0.0.2" ++ "abc")) (bytes "xyz")
    [turn 1 0; turn 17 16; turn 17 18; turn 17 18; turn 17 18; turn 17 18].

Definition sample_ifconfig : string := "/sbin/ifconfig".

(** The host closes its end at once; the line has delivered three bytes by
    then, and in the second turn descriptor 0 is ready for reading and
    descriptor 1 for writing. *)
Definition eof_kernel : kernel :=
  sample_with (bytes (line "10.0.0.2")) (bytes "xyz") [turn 16 0; turn 1 2].

(** The host sends nothing at all. *)
Definition silent_kernel : kernel := sample_with [] [] [].

(** A turn in which the master is ready for writing and takes nothing. *)
Definition stalled : iter_env :=
  {| ev_signal := false; ev_select_fail := false;
     ev_ready_r := 0; ev_ready_w := 16;
     ev_chunk_host := 2; ev_chunk_link := 16; ev_accept_link := 0;
     ev_accept_host := 16 |}.

(** The store cannot be opened. *)
Definition storeless_kernel : kernel :=
  kernel_of None N_SLIP (bytes (line "10.0.0.2")) [] [].

(** The switch to SLIP did not take: the discipline is still 0. *)
Definition unswitched_kernel : kernel :=
  kernel_of (Some sample_store) 0 (bytes (line "10.0.0.2")) [] [].

(** * Verification *)

(** ** The configuration store *)

Lemma strcmp_refl a : strcmp a a = 0.
Proof.
  induction a as [|c a IH]; simpl; [reflexivity|].
  rewrite Ascii.eqb_refl. exact IH.
Qed.

Lemma strcmp_eq a b : strcmp a b = 0 <-> a = b.
Proof.
  split; [|intros ->; apply strcmp_refl].
  revert b. induction a as [|c a IH]; intros [|d b]; simpl; try discriminate.
  - reflexivity.
  - destruct (Ascii.eqb c d) eqn:E.
    + apply Ascii.eqb_eq in E. intros H. f_equal; auto.
    + destruct (_ <? _)%nat; discriminate.
Qed.

(** The test of [getcfgbyid]: [!strcmp(...) && !strcmp(...)]. *)
Definition matches (username remoteip : string) (c : cfgentry) : bool :=
  (strcmp username (cfg_username c) =? 0)
  && (strcmp remoteip (cfg_remoteip c) =? 0).

Lemma matches_spec username remoteip c :
  matches username remoteip c = true <->
  cfg_username c = username /\ cfg_remoteip c = remoteip.
Proof.
  unfold matches. rewrite andb_true_iff, !Z.eqb_eq, !strcmp_eq.
  intuition congruence.
Qed.

Lemma getcfgbyid_lines_step fp cfg username remoteip :
  getcfgbyid_lines fp cfg username remoteip =
  match getcfgentry_lines fp cfg with
  | None => None
  | Some (cfg', rest) =>
      if matches username remoteip cfg' then Some (cfg', rest)
      else getcfgbyid_lines rest cfg' username remoteip
  end.
Proof.
  funelim (getcfgbyid_lines fp cfg username remoteip); rewrite e; reflexivity.
Qed.

Lemma records_step fp cfg :
  records fp cfg =
  match getcfgentry_lines fp cfg with
  | None => []
  | Some (cfg', rest) => cfg' :: records rest cfg'
  end.
Proof.
  funelim (records fp cfg); rewrite e; reflexivity.
Qed.

(** [c] is the first record of [l] for which [p] holds. *)
Definition first_such (p : cfgentry -> bool) (l : list cfgentry) (c : cfgentry)
  : Prop :=
  exists before after,
    l = before ++ c :: after /\ p c = true /\
    Forall (fun c' => p c' = false) before.

Lemma getcfgbyid_lines_first fp :
  forall cfg username remoteip,
    match getcfgbyid_lines fp cfg username remoteip with
    | Some (c, _) => first_such (matches username remoteip) (records fp cfg) c
    | None => Forall (fun c' => matches username remoteip c' = false) (records fp cfg)
    end.
Proof.
  induction fp as [fp IH] using (well_founded_induction
    (Wf_nat.well_founded_ltof _ String.length)).
  intros cfg username remoteip.
  rewrite getcfgbyid_lines_step, records_step.
  destruct (getcfgentry_lines fp cfg) as [[c rest]|] eqn:E; [|constructor].
  apply getcfgentry_lines_shorter in E.
  destruct (matches username remoteip c) eqn:Em.
  - exists [], (records rest c). repeat split; auto.
  - specialize (IH rest E c username remoteip).
    destruct (getcfgbyid_lines rest c username remoteip) as [[c' rest']|].
    + destruct IH as (before & after & Hl & Hp & Hb).
      exists (c :: before), after. rewrite Hl. repeat split; auto.
    + constructor; auto.
Qed.

(** The loop of [getcfgbyid] as the source writes it: one call of
    [getcfgentry], the test, and the loop again. *)
Lemma getcfgbyid_loop k cfg username remoteip w :
  getcfgbyid k cfg username remoteip w =
  (e <- getcfgentry k cfg ;;
   match e with
   | None => ret None
   | Some c =>
       if matches username remoteip c then ret (Some c)
       else getcfgbyid k c username remoteip
   end)%vmnet w.
Proof.
  unfold getcfgbyid, getcfgentry, bind.
  destruct (cfg_stream k w) as [fp|] eqn:Es; [|reflexivity].
  rewrite getcfgbyid_lines_step.
  destruct (getcfgentry_lines fp cfg) as [[c rest]|]; [|reflexivity].
  destruct (matches username remoteip c); [reflexivity|].
  simpl.
  destruct (getcfgbyid_lines rest c username remoteip) as [[c' rest']|];
    reflexivity.
Qed.

(** [c] is the first record of [l] whose identity is [username] and whose
    remote address is [remoteip]. *)
Definition first_match (username remoteip : string) (l : list cfgentry)
  (c : cfgentry) : Prop :=
  exists before after,
    l = before ++ c :: after /\
    (cfg_username c = username /\ cfg_remoteip c = remoteip) /\
    Forall (fun c' => ~ (cfg_username c' = username /\ cfg_remoteip c' = remoteip))
      before.

Lemma matches_false username remoteip c :
  matches username remoteip c = false ->
  ~ (cfg_username c = username /\ cfg_remoteip c = remoteip).
Proof.
  intros H Hc. apply matches_spec in Hc. congruence.
Qed.

(** C2. On a store that opens and is read from its start, [getcfgbyid]
    returns the first record in file order whose identity and remote address
    are equal, as strings, to the ones asked for, and returns NULL only when
    no record has both equal. *)
Theorem getcfgbyid_first_match k store cfg username remoteip w :
  k_config k = Some store ->
  w_fp w = None ->
  match fst (getcfgbyid k cfg username remoteip w) with
  | Ret (Some c) => first_match username remoteip (records store cfg) c
  | Ret None =>
      Forall (fun c' => ~ (cfg_username c' = username /\ cfg_remoteip c' = remoteip))
        (records store cfg)
  | _ => False
  end.
Proof.
  intros Hk Hw. unfold getcfgbyid, cfg_stream. rewrite Hw, Hk.
  pose proof (getcfgbyid_lines_first store cfg username remoteip) as H.
  destruct (getcfgbyid_lines store cfg username remoteip) as [[c rest]|]; simpl.
  - destruct H as (before & after & Hl & Hp & Hb).
    exists before, after. split; [exact Hl|]. split.
    + apply matches_spec; exact Hp.
    + eapply Forall_impl; [|exact Hb]. intros a. apply matches_false.
  - eapply Forall_impl; [|exact H]. intros a. apply matches_false.
Qed.

Lemma getcfgbyid_first_match_witness :
  first_match "alice" "10.0.0.2" (records sample_store no_cfg)
    {| cfg_username := "alice"; cfg_remoteip := "10.0.0.2";
       cfg_localip := "10.0.0.1"; cfg_script := "/etc/vmnet/up.sh" |}.
Proof.
  exact (getcfgbyid_first_match sample_kernel sample_store no_cfg
           "alice" "10.0.0.2" (boot sample_kernel) eq_refl eq_refl).
Defined.

(** ** Descriptor pair allocation *)

Ltac run_monad :=
  unfold bind, ret, exit, undef, blocked, emit, perror, system, close,
    opened, deliver, sig_catch; simpl.

Lemma in_filter_open fd d l :
  In d (filter (fun d' => negb (d' =? fd)) l) <-> In d l /\ d <> fd.
Proof.
  rewrite filter_In, negb_true_iff, Z.eqb_neq. reflexivity.
Qed.

Lemma closed_not_open fd l : ~ In fd (filter (fun d' => negb (d' =? fd)) l).
Proof.
  rewrite in_filter_open. tauto.
Qed.

(** C9. [open_pty_pair] either returns 1, having opened the master and the
    slave and stored both, or returns 0 with [*masterp] and [*slavep] as
    they were, the master closed again if it had been opened and no
    descriptor open that was not open before; this on every failure path. *)
Theorem open_pty_pair_all_or_nothing k masterp slavep w :
  let r := open_pty_pair k masterp slavep w in
  (fst r = Ret (1, (k_getpt k, k_open k)) /\
   0 <= k_getpt k /\ 0 <= k_open k /\
   w_open (snd r) = k_open k :: k_getpt k :: w_open w)
  \/
  (fst r = Ret (0, (masterp, slavep)) /\
   incl (w_open (snd r)) (w_open w) /\
   (k_getpt k < 0 \/ ~ In (k_getpt k) (w_open (snd r)))).
Proof.
  unfold open_pty_pair, getpt, open_slave. run_monad.
  destruct (k_getpt k <? 0) eqn:Em.
  { right. simpl. apply Z.ltb_lt in Em. split; [reflexivity|].
    split; [apply incl_refl | left; exact Em]. }
  apply Z.ltb_ge in Em.
  destruct ((k_grantpt k <? 0) || (k_unlockpt k <? 0)) eqn:Eg.
  { right. simpl. rewrite Z.eqb_refl. simpl. split; [reflexivity|].
    split; [|right; apply closed_not_open].
    intros d Hd. apply in_filter_open in Hd. tauto. }
  destruct (k_ptsname_r k <? 0) eqn:Ep.
  { right. simpl. rewrite Z.eqb_refl. simpl. split; [reflexivity|].
    split; [|right; apply closed_not_open].
    intros d Hd. apply in_filter_open in Hd. tauto. }
  destruct (k_open k <? 0) eqn:Eo.
  { right. simpl. rewrite Z.eqb_refl. simpl. split; [reflexivity|].
    split; [|right; apply closed_not_open].
    intros d Hd. apply in_filter_open in Hd. tauto. }
  apply Z.ltb_ge in Eo. left. simpl. auto.
Qed.

(** ** Reading the requested address *)

(** A [read] of one byte is the case analysis of [readline_from]. *)
Lemma stream_read_one s chunk :
  stream_read s 1 chunk =
  match s with
  | [] => (0, [], [])
  | Fault :: s' => (-1, [], s')
  | Data c :: s' => (1, [c], s')
  end.
Proof.
  destruct s as [|[c|] s']; try reflexivity.
  unfold stream_read.
  replace (Z.to_nat (Z.min 1 (Z.max 1 chunk))) with 1%nat by lia.
  reflexivity.
Qed.

Lemma firstn_prefix {A} (pre l : list A) :
  firstn (List.length pre) (pre ++ l) = pre.
Proof.
  induction pre as [|a pre IH]; simpl; [destruct l; reflexivity|].
  rewrite IH. reflexivity.
Qed.

Lemma skipn_prefix {A} (pre l : list A) :
  skipn (List.length pre) (pre ++ l) = l.
Proof.
  induction pre as [|a pre IH]; simpl; [reflexivity | exact IH].
Qed.

Lemma store_middle (pre post : array) x c :
  store (pre ++ x :: post) (Z.of_nat (List.length pre)) c = Some (pre ++ c :: post).
Proof.
  unfold store, sizeof. rewrite length_app.
  replace ((0 <=? Z.of_nat (List.length pre))
           && (Z.of_nat (List.length pre)
               <? Z.of_nat (List.length pre + List.length (x :: post))))
    with true
    by (symmetry; apply andb_true_iff; split;
        [apply Z.leb_le | apply Z.ltb_lt]; simpl; lia).
  rewrite Nat2Z.id, firstn_prefix.
  change (skipn (S (List.length pre)) (pre ++ x :: post))
    with (skipn (List.length (x :: pre)) (pre ++ x :: post)).
  replace (skipn (List.length (x :: pre)) (pre ++ x :: post)) with post;
    [reflexivity|].
  change (x :: post) with ([x] ++ post). rewrite app_assoc.
  replace (List.length (x :: pre)) with (List.length (pre ++ [x]))
    by (rewrite length_app; simpl; lia).
  symmetry. apply skipn_prefix.
Qed.

(** The loop on a stream that starts with a line which, with its newline,
    fits what is left of the buffer. *)
Lemma readline_from_line line :
  forall rest pre mid post len,
    ~ In NL line ->
    List.length mid = S (List.length line) ->
    Z.of_nat (List.length pre + List.length line) < len ->
    readline_from (map Data line ++ Data NL :: rest) (pre ++ mid ++ post)
      (Z.of_nat (List.length pre)) len =
    (Some (Z.of_nat (List.length pre + List.length line) + 1,
           pre ++ line ++ NL :: post), rest).
Proof.
  induction line as [|c line IH]; intros rest pre mid post len Hnl Hmid Hlen.
  - destruct mid as [|x [|? ?]]; try discriminate. simpl.
    rewrite store_middle. rewrite Nat.add_0_r. reflexivity.
  - destruct mid as [|x mid]; [discriminate|]. simpl.
    rewrite store_middle.
    assert (Hc : Ascii.eqb c NL = false).
    { apply Ascii.eqb_neq. intros ->. apply Hnl. left; reflexivity. }
    rewrite Hc. simpl in Hlen |- *.
    replace (Z.of_nat (List.length pre) + 1 <? len) with true
      by (symmetry; apply Z.ltb_lt; lia).
    specialize (IH rest (pre ++ [c]) mid post len).
    rewrite length_app in IH. simpl in IH.
    replace (Z.of_nat (List.length pre) + 1)
      with (Z.of_nat (List.length pre + 1)) by lia.
    rewrite <- !app_assoc in IH. simpl in IH. rewrite IH.
    + do 3 f_equal. lia.
    + intros Hin. apply Hnl. right; exact Hin.
    + simpl in Hmid. lia.
    + lia.
Qed.

(** What [login] does at lines 179 and 180 when the stream starts with
    [line] and a newline: [readline] returns the length of the line with its
    newline and leaves [rest] unread, and the assignment to
    [remoteip[n-1]] leaves the line, terminated, in the buffer. *)
Definition reads_line (buf : array) (line : list ascii) (rest : stream) : Prop :=
  forall w,
    w_stdin w = map Data line ++ Data NL :: rest ->
    exists buf',
      readline 0 buf (sizeof buf) w
      = (Ret (Z.of_nat (List.length line) + 1, buf'), set_stdin rest w) /\
      store buf' (Z.of_nat (List.length line) + 1 - 1) NUL
      = Some (line ++ NUL :: skipn (S (List.length line)) buf).

(** C8, as amended.  When the first line of the host input, with its
    newline, fits the address buffer, [readline] consumes exactly that line
    and nothing after it, and the buffer then holds the line with the
    newline replaced by the string terminator. *)
Theorem readline_reads_line buf line rest :
  ~ In NL line ->
  (List.length line < List.length buf)%nat ->
  reads_line buf line rest.
Proof.
  intros Hnl Hlen w Hw.
  exists (line ++ NL :: skipn (S (List.length line)) buf).
  unfold readline.
  replace (sizeof buf =? 0) with false
    by (symmetry; apply Z.eqb_neq; unfold sizeof; lia).
  simpl (0 =? 0). cbv iota. rewrite Hw.
  assert (H : readline_from (map Data line ++ Data NL :: rest) buf 0 (sizeof buf)
              = (Some (Z.of_nat (List.length line) + 1,
                       line ++ NL :: skipn (S (List.length line)) buf), rest)).
  { pose proof (readline_from_line line rest []
                  (firstn (S (List.length line)) buf)
                  (skipn (S (List.length line)) buf) (sizeof buf) Hnl) as H.
    rewrite firstn_skipn in H. apply H.
    - rewrite length_firstn. lia.
    - unfold sizeof. simpl. lia. }
  rewrite H. split; [reflexivity|].
  replace (Z.of_nat (List.length line) + 1 - 1)
    with (Z.of_nat (List.length line)) by lia.
  apply store_middle.
Qed.

Lemma readline_reads_line_witness :
  reads_line (frame_array sample_kernel 128 64)
    (list_ascii_of_string "10.0.0.2") (bytes "abc").
Proof.
  apply (readline_reads_line (frame_array sample_kernel 128 64)
           (list_ascii_of_string "10.0.0.2") (bytes "abc")).
  - vm_compute. intuition discriminate.
  - vm_compute. lia.
Defined.

(** C8, as stated, fails: of a line of 70 characters [readline] consumes
    the first 64, so the rest of the line is left for the relay, and the
    buffer does not hold the line. *)
Lemma readline_long_line :
  ~ reads_line (frame_array sample_kernel 128 64)
      (repeat "a"%char 70) (bytes "abc").
Proof.
  intros H.
  destruct (H (set_stdin (map Data (repeat "a"%char 70) ++ Data NL :: bytes "abc")
                 (boot sample_kernel)) eq_refl) as (buf' & Hr & _).
  apply (f_equal fst) in Hr. vm_compute in Hr. discriminate Hr.
Qed.

Lemma store_inside (a : array) i c :
  0 <= i < sizeof a ->
  exists a', store a i c = Some a' /\ sizeof a' = sizeof a.
Proof.
  intros H. unfold store.
  replace ((0 <=? i) && (i <? sizeof a)) with true
    by (symmetry; apply andb_true_iff; split;
        [apply Z.leb_le | apply Z.ltb_lt]; lia).
  eexists. split; [reflexivity|]. unfold sizeof in *.
  rewrite length_app. cbn [List.length].
  rewrite length_firstn, length_skipn. lia.
Qed.

(** [readline] stores inside the buffer and returns at most [len]; the
    count it returns is not below the count it started from, which is 0. *)
Lemma readline_from_bounds s :
  forall buf n len,
    0 <= n < len -> len <= sizeof buf ->
    exists n' buf' s',
      readline_from s buf n len = (Some (n', buf'), s') /\
      n <= n' <= len /\ sizeof buf' = sizeof buf.
Proof.
  induction s as [|[c|] s IH]; intros buf n len Hn Hlen; simpl.
  - exists n, buf, []. split; [reflexivity | lia].
  - destruct (store_inside buf n c ltac:(lia)) as (buf1 & -> & Hsz).
    destruct (negb (Ascii.eqb c NL) && (n + 1 <? len)) eqn:E.
    + apply andb_true_iff in E. destruct E as [_ E]. apply Z.ltb_lt in E.
      destruct (IH buf1 (n + 1) len ltac:(lia) ltac:(lia))
        as (n' & buf' & s' & -> & Hb & Hs).
      exists n', buf', s'. split; [reflexivity | lia].
    + exists (n + 1), buf1, s. split; [reflexivity | lia].
  - exists n, buf, s. split; [reflexivity | lia].
Qed.

(** C10: at the end of the stream before any byte, [readline] returns 0,
    the index [n - 1] of the terminator is -1, outside [remoteip], and
    [login] has no defined behaviour. *)
Lemma login_empty_stream_index :
  fst (readline 0 (sc_remoteip (frame_sc silent_kernel))
         (sizeof (sc_remoteip (frame_sc silent_kernel))) (boot silent_kernel))
  = Ret (0, sc_remoteip (frame_sc silent_kernel))
  /\ store (sc_remoteip (frame_sc silent_kernel)) (0 - 1) NUL = None
  /\ fst (login silent_kernel (frame_sc silent_kernel) (boot silent_kernel))
     = Undef.
Proof.
  repeat split; vm_compute; reflexivity.
Qed.

(** ** The log of a run *)

(** The commands passed to [system], and the descriptors closed. *)
Definition hooks (l : list effect) : list string :=
  flat_map (fun e => match e with System c => [c] | _ => [] end) l.

Definition closes (l : list effect) : list Z :=
  flat_map (fun e => match e with Close fd => [fd] | _ => [] end) l.

Lemma hooks_app a b : hooks (a ++ b) = hooks a ++ hooks b.
Proof. apply flat_map_app. Qed.

Lemma closes_app a b : closes (a ++ b) = closes a ++ closes b.
Proof. apply flat_map_app. Qed.

(** The calls of Link Teardown, [slip_stop], for the command [cmd] of
    [interface_stop]: the hook, the restoration of the line discipline and
    the release of both descriptors. *)
Definition teardown_effects (k : kernel) (sc : slipconn) (cmd : string)
  : list effect :=
  [System cmd; Tiocsetd (sc_slavefd sc) (sc_oldldisc sc)]
  ++ (if k_tiocsetd_restore k <? 0 then [Perror "TIOCSETD"] else [])
  ++ [Close (sc_masterfd sc); Close (sc_slavefd sc)].

(** The streams and the flag are the same in both worlds. *)
Definition same_streams (w w' : world) : Prop :=
  w_stdin w' = w_stdin w /\ w_link w' = w_link w /\
  w_stdout w' = w_stdout w /\ w_linkout w' = w_linkout w /\
  w_go w' = w_go w.

Lemma slip_stop_spec IFCONFIG k sc w :
  match stop_command IFCONFIG sc with
  | Some cmd =>
      if overflows 1024 cmd
      then slip_stop IFCONFIG k sc w = (Undef, w)
      else fst (slip_stop IFCONFIG k sc w) = Ret tt /\
           same_streams w (snd (slip_stop IFCONFIG k sc w)) /\
           w_log (snd (slip_stop IFCONFIG k sc w))
           = w_log w ++ teardown_effects k sc cmd
  | None => slip_stop IFCONFIG k sc w = (Undef, w)
  end.
Proof.
  unfold slip_stop, interface_stop, system_buf, slip_release, teardown_effects.
  destruct (stop_command IFCONFIG sc) as [cmd|]; [|reflexivity].
  destruct (overflows 1024 cmd); [reflexivity|].
  run_monad.
  destruct (k_tiocsetd_restore k <? 0); simpl;
    repeat split; rewrite <- ?app_assoc; reflexivity.
Qed.


(** ** Descriptor sets, reads and writes *)

Lemma FD_ISSET_SET a b s :
  0 <= b -> FD_ISSET a (FD_SET b s) = (b =? a) || FD_ISSET a s.
Proof. intros H. apply Z.setbit_eqb. exact H. Qed.

Lemma FD_ISSET_CLR a b s :
  FD_ISSET a (FD_CLR b s) = FD_ISSET a s && negb (b =? a).
Proof. apply Z.clearbit_eqb. Qed.

Lemma FD_ISSET_ZERO a : FD_ISSET a FD_ZERO = false.
Proof. apply Z.bits_0. Qed.

Lemma popcount_pos_positive p : 0 < popcount_pos p.
Proof. induction p; cbn [popcount_pos]; lia. Qed.

(** After a [select] that returned a positive count, a descriptor that is
    set was registered. *)
Lemma sys_select_spec ev nfds readfds writefds n r w :
  sys_select ev nfds readfds writefds = (n, r, w) ->
  0 < n ->
  (forall fd, FD_ISSET fd r = true -> FD_ISSET fd readfds = true) /\
  (forall fd, FD_ISSET fd w = true -> FD_ISSET fd writefds = true).
Proof.
  unfold sys_select. destruct (ev_select_fail ev).
  - intros H; inversion H; lia.
  - intros H _. inversion H; subst. unfold FD_ISSET.
    split; intros fd; rewrite !Z.land_spec, !andb_true_iff; tauto.
Qed.

Lemma popcount_nonneg s : 0 <= popcount s.
Proof.
  destruct s as [|p|p]; simpl; try lia.
  pose proof (popcount_pos_positive p). lia.
Qed.

(** [select] returns a positive count when it reports a descriptor. *)
Lemma sys_select_positive ev nfds readfds writefds n r w fd :
  sys_select ev nfds readfds writefds = (n, r, w) ->
  ev_select_fail ev = false -> 0 <= nfds ->
  FD_ISSET fd r = true \/ FD_ISSET fd w = true ->
  0 < n.
Proof.
  unfold sys_select. intros H Hf Hn Hset. rewrite Hf in H.
  inversion H; subst. clear H.
  assert (Hpos : forall a, 0 <= a -> FD_ISSET fd a = true -> 0 < popcount a).
  { intros a Ha Hb. destruct a as [|p|p]; [|apply popcount_pos_positive|lia].
    unfold FD_ISSET in Hb. rewrite Z.bits_0 in Hb. discriminate. }
  assert (Hones : 0 <= Z.ones nfds).
  { rewrite Z.ones_equiv. pose proof (Z.pow_pos_nonneg 2 nfds). lia. }
  set (r := Z.land (Z.land readfds (ev_ready_r ev)) (Z.ones nfds)) in *.
  set (w := Z.land (Z.land writefds (ev_ready_w ev)) (Z.ones nfds)) in *.
  assert (Hr : 0 <= r) by (apply Z.land_nonneg; right; exact Hones).
  assert (Hw : 0 <= w) by (apply Z.land_nonneg; right; exact Hones).
  pose proof (popcount_nonneg r). pose proof (popcount_nonneg w).
  destruct Hset as [Hs | Hs]; [apply (Hpos r Hr) in Hs | apply (Hpos w Hw) in Hs];
    lia.
Qed.

Lemma take_data_spec n :
  forall s cs r,
    take_data n s = (cs, r) ->
    s = map Data cs ++ r /\ (List.length cs <= n)%nat.
Proof.
  induction n as [|n IH]; intros s cs r; simpl.
  - intros H; inversion H; subst. split; [reflexivity | simpl; lia].
  - destruct s as [|[c|] s'].
    + intros H; inversion H; subst. split; [reflexivity | simpl; lia].
    + destruct (take_data n s') as [cs' r'] eqn:E.
      intros H; inversion H; subst.
      destruct (IH _ _ _ E) as [Hs Hl]. subst s'.
      split; [reflexivity | simpl; lia].
    + intros H; inversion H; subst. split; [reflexivity | simpl; lia].
Qed.

Lemma stream_read_spec s count chunk :
  0 < count ->
  match s with
  | [] => stream_read s count chunk = (0, [], [])
  | Fault :: s' => stream_read s count chunk = (-1, [], s')
  | Data _ :: _ =>
      exists cs rest,
        stream_read s count chunk = (Z.of_nat (List.length cs), cs, rest) /\
        s = map Data cs ++ rest /\
        (0 < List.length cs)%nat /\ Z.of_nat (List.length cs) <= count
  end.
Proof.
  intros Hc. destruct s as [|[c|] s']; try reflexivity.
  unfold stream_read.
  set (n := Z.to_nat (Z.min count (Z.max 1 chunk))).
  assert (Hn : exists n', n = S n') by (exists (Nat.pred n); subst n; lia).
  destruct (take_data n (Data c :: s')) as [cs rest] eqn:E.
  exists cs, rest. split; [reflexivity|].
  pose proof (take_data_spec _ _ _ _ E) as [Hs Hl].
  split; [exact Hs|].
  destruct Hn as [n' Hn']. rewrite Hn' in E. simpl in E.
  destruct (take_data n' s') as [cs' r']. inversion E; subst cs.
  split; [simpl; lia|]. subst n. lia.
Qed.

(** The buffer after a [read] that stored [cs]. *)
Definition filled (b : buf) (cs : list ascii) : buf :=
  {| buf_len := Z.of_nat (List.length cs); buf_ptr := 0;
     buf_data := cs ++ skipn (List.length cs) (buf_data b) |}.

Lemma filled_pending b cs : pending (filled b cs) = cs.
Proof.
  unfold pending, filled. simpl. rewrite Nat2Z.id.
  change (Z.to_nat 0) with 0%nat. simpl skipn. apply firstn_prefix.
Qed.

Lemma filled_size b cs :
  Z.of_nat (List.length cs) <= sizeof (buf_data b) ->
  sizeof (buf_data (filled b cs)) = sizeof (buf_data b).
Proof.
  unfold sizeof, filled. simpl. rewrite length_app, length_skipn. lia.
Qed.

Lemma filled_in_data b cs :
  Z.of_nat (List.length cs) <= sizeof (buf_data b) ->
  in_data (filled b cs) = true.
Proof.
  intros H. unfold in_data. rewrite filled_size by exact H.
  unfold filled. cbn [buf_len buf_ptr].
  rewrite !andb_true_iff, !Z.leb_le. lia.
Qed.

Lemma in_data_pending_length b :
  in_data b = true -> Z.of_nat (List.length (pending b)) = buf_len b.
Proof.
  unfold in_data, pending, sizeof. rewrite !andb_true_iff, !Z.leb_le.
  intros [[Hp Hl] Hs]. rewrite length_firstn, length_skipn. lia.
Qed.

(** The buffer after a [write] that took [r] bytes. *)
Definition drained (b : buf) (r : Z) : buf :=
  {| buf_len := buf_len b - r; buf_ptr := buf_ptr b + r;
     buf_data := buf_data b |}.

Lemma drained_pending b r :
  in_data b = true -> 0 <= r <= buf_len b ->
  pending (drained b r) = skipn (Z.to_nat r) (pending b).
Proof.
  unfold in_data, pending, drained, sizeof. simpl.
  rewrite !andb_true_iff, !Z.leb_le. intros [[Hp Hl] Hs] Hr.
  rewrite skipn_firstn_comm, skipn_skipn.
  f_equal; [lia | f_equal; lia].
Qed.

Lemma drained_in_data b r :
  in_data b = true -> 0 <= r <= buf_len b -> in_data (drained b r) = true.
Proof.
  unfold in_data, drained. simpl.
  rewrite !andb_true_iff, !Z.leb_le. lia.
Qed.

Lemma accepted_bound a bytes :
  0 < accepted a bytes -> accepted a bytes <= Z.of_nat (List.length bytes).
Proof.
  unfold accepted. destruct (a <=? 0) eqn:E; [apply Z.leb_le in E|]; lia.
Qed.

Section Relay.

Variable IFCONFIG : string.
Variable k : kernel.
Variable sc : slipconn.

(** The session of the loop: its master is the descriptor [getpt]
    returned, which is neither 0 nor 1 as these are open, and its
    deactivation command fits the buffer of [interface_stop]. *)
Variable stop_cmd : string.
Hypothesis master_pty : sc_masterfd sc = k_getpt k.
Hypothesis master_fresh : 1 < sc_masterfd sc.
Hypothesis stop_ok : stop_command IFCONFIG sc = Some stop_cmd.
Hypothesis stop_fits : overflows 1024 stop_cmd = false.

(** The world at the start of the loop. *)
Variable w0 : world.

Lemma slip_stop_ok w :
  fst (slip_stop IFCONFIG k sc w) = Ret tt /\
  same_streams w (snd (slip_stop IFCONFIG k sc w)) /\
  w_log (snd (slip_stop IFCONFIG k sc w))
  = w_log w ++ teardown_effects k sc stop_cmd.
Proof.
  pose proof (slip_stop_spec IFCONFIG k sc w) as H. rewrite stop_ok in H.
  rewrite stop_fits in H.
  exact H.
Qed.

(** Host to link: what was written to the link since the loop began, and
    the two states of the direction.  Idle: descriptor 0 is registered for
    reading, the master is not registered for writing and everything read
    was written.  Pending: the reverse registration, and what was read and
    not written is the [len] bytes at [ptr] of [stdinbuf], at least one. *)
Definition h2l_idle (st : relay) (w : world) (done : list ascii) : Prop :=
  FD_ISSET 0 (rfds st) = true /\
  FD_ISSET (sc_masterfd sc) (wfds st) = false /\
  w_stdin w0 = map Data done ++ w_stdin w.

Definition h2l_pending (st : relay) (w : world) (done : list ascii) : Prop :=
  FD_ISSET 0 (rfds st) = false /\
  FD_ISSET (sc_masterfd sc) (wfds st) = true /\
  in_data (stdinbuf st) = true /\ 0 < buf_len (stdinbuf st) /\
  w_stdin w0 = map Data (done ++ pending (stdinbuf st)) ++ w_stdin w.

Definition h2l_ok (st : relay) (w : world) : Prop :=
  exists done,
    w_linkout w = w_linkout w0 ++ done /\
    sizeof (buf_data (stdinbuf st)) = 16 * 1024 /\
    (h2l_idle st w done \/ h2l_pending st w done).

(** Link to host, likewise, with the master as source, descriptor 1 as
    destination and [stdoutbuf]. *)
Definition l2h_idle (st : relay) (w : world) (done : list ascii) : Prop :=
  FD_ISSET (sc_masterfd sc) (rfds st) = true /\
  FD_ISSET 1 (wfds st) = false /\
  w_link w0 = map Data done ++ w_link w.

Definition l2h_pending (st : relay) (w : world) (done : list ascii) : Prop :=
  FD_ISSET (sc_masterfd sc) (rfds st) = false /\
  FD_ISSET 1 (wfds st) = true /\
  in_data (stdoutbuf st) = true /\ 0 < buf_len (stdoutbuf st) /\
  w_link w0 = map Data (done ++ pending (stdoutbuf st)) ++ w_link w.

Definition l2h_ok (st : relay) (w : world) : Prop :=
  exists done,
    w_stdout w = w_stdout w0 ++ done /\
    sizeof (buf_data (stdoutbuf st)) = 16 * 1024 /\
    (l2h_idle st w done \/ l2h_pending st w done).

(** What each direction's state depends on is the same in both states. *)
Definition h2l_same (st : relay) (w : world) (st' : relay) (w' : world) : Prop :=
  FD_ISSET 0 (rfds st') = FD_ISSET 0 (rfds st) /\
  FD_ISSET (sc_masterfd sc) (wfds st') = FD_ISSET (sc_masterfd sc) (wfds st) /\
  stdinbuf st' = stdinbuf st /\
  w_stdin w' = w_stdin w /\ w_linkout w' = w_linkout w.

Definition l2h_same (st : relay) (w : world) (st' : relay) (w' : world) : Prop :=
  FD_ISSET (sc_masterfd sc) (rfds st') = FD_ISSET (sc_masterfd sc) (rfds st) /\
  FD_ISSET 1 (wfds st') = FD_ISSET 1 (wfds st) /\
  stdoutbuf st' = stdoutbuf st /\
  w_link w' = w_link w /\ w_stdout w' = w_stdout w.

Lemma h2l_ok_same st w st' w' :
  h2l_same st w st' w' -> h2l_ok st w -> h2l_ok st' w'.
Proof.
  intros (H1 & H2 & H3 & H4 & H5) (done & Hout & Hsz & Hs).
  exists done. unfold h2l_idle, h2l_pending in *.
  rewrite H1, H2, H3, H4, H5. auto.
Qed.

Lemma l2h_ok_same st w st' w' :
  l2h_same st w st' w' -> l2h_ok st w -> l2h_ok st' w'.
Proof.
  intros (H1 & H2 & H3 & H4 & H5) (done & Hout & Hsz & Hs).
  exists done. unfold l2h_idle, l2h_pending in *.
  rewrite H1, H2, H3, H4, H5. auto.
Qed.

(** What was written is a prefix of what the source delivered; and, for
    the host, all of it. *)
Definition h2l_prefix (w : world) : Prop :=
  exists done unwritten rest,
    w_linkout w = w_linkout w0 ++ done /\
    w_stdin w0 = map Data (done ++ unwritten) ++ rest.

Definition l2h_prefix (w : world) : Prop :=
  exists done unwritten rest,
    w_stdout w = w_stdout w0 ++ done /\
    w_link w0 = map Data (done ++ unwritten) ++ rest.

Definition h2l_complete (w : world) : Prop :=
  exists done,
    w_linkout w = w_linkout w0 ++ done /\ w_stdin w0 = map Data done.

Lemma h2l_ok_prefix st w : h2l_ok st w -> h2l_prefix w.
Proof.
  intros (done & Hout & _ & [(_ & _ & Hs) | (_ & _ & _ & _ & Hs)]).
  - exists done, [], (w_stdin w). rewrite app_nil_r. auto.
  - exists done, (pending (stdinbuf st)), (w_stdin w). auto.
Qed.

Lemma l2h_ok_prefix st w : l2h_ok st w -> l2h_prefix w.
Proof.
  intros (done & Hout & _ & [(_ & _ & Hs) | (_ & _ & _ & _ & Hs)]).
  - exists done, [], (w_link w). rewrite app_nil_r. auto.
  - exists done, (pending (stdoutbuf st)), (w_link w). auto.
Qed.


Lemma stop_exit_run {A} c w :
  (slip_stop IFCONFIG k sc ;; @exit A c)%vmnet w
  = (Exit c, snd (slip_stop IFCONFIG k sc w)).
Proof.
  unfold bind, exit. destruct (slip_stop_ok w) as (Hr & _).
  destruct (slip_stop IFCONFIG k sc w) as [r w']. simpl in Hr. subst r.
  reflexivity.
Qed.

Lemma h2l_prefix_same w w' :
  w_linkout w' = w_linkout w -> h2l_prefix w -> h2l_prefix w'.
Proof.
  intros H (done & u & rest & Ho & Hs). exists done, u, rest.
  rewrite H. auto.
Qed.

Lemma l2h_prefix_same w w' :
  w_stdout w' = w_stdout w -> l2h_prefix w -> l2h_prefix w'.
Proof.
  intros H (done & u & rest & Ho & Hs). exists done, u, rest.
  rewrite H. auto.
Qed.

Lemma master_not_0 : (sc_masterfd sc =? 0) = false.
Proof. apply Z.eqb_neq. lia. Qed.

Lemma master_not_1 : (sc_masterfd sc =? 1) = false.
Proof. apply Z.eqb_neq. lia. Qed.

Lemma zero_not_master : (0 =? sc_masterfd sc) = false.
Proof. apply Z.eqb_neq. lia. Qed.

Lemma one_not_master : (1 =? sc_masterfd sc) = false.
Proof. apply Z.eqb_neq. lia. Qed.

Ltac fd_simpl :=
  rewrite ?FD_ISSET_CLR; rewrite ?FD_ISSET_SET by lia;
  rewrite ?master_not_0, ?master_not_1, ?zero_not_master, ?one_not_master,
    ?Z.eqb_refl;
  cbn [negb orb andb];
  rewrite ?andb_true_r, ?andb_false_r, ?orb_false_r.

(** What the two exits of the loop's body leave behind for the host to
    link direction. *)
Definition h2l_exit (c : Z) (w : world) : Prop :=
  h2l_prefix w /\ (c = 0 -> h2l_complete w).

(** *** The block of descriptor 0 readable *)

Lemma host_readable_inv ev st w :
  h2l_ok st w ->
  FD_ISSET 0 (rfds st) = true ->
  match host_readable IFCONFIG k ev sc st w with
  | (Ret st', w') => h2l_ok st' w' /\ l2h_same st w st' w'
  | (Exit c, w') =>
      h2l_exit c w' /\ w_link w' = w_link w /\ w_stdout w' = w_stdout w
  | _ => False
  end.
Proof.
  intros (done & Hout & Hsz & Hst) Hr.
  destruct Hst as [(_ & Hw & Hs) | (Hr' & _)]; [|congruence].
  unfold host_readable, bufread, sys_read.
  pose proof (stream_read_spec (w_stdin w) (sizeof (buf_data (stdinbuf st)))
                (ev_chunk_host ev)) as Hread.
  rewrite Hsz in Hread. specialize (Hread eq_refl).
  unfold bind at 1. unfold bind at 1. cbn [Z.eqb].
  rewrite Hsz.
  destruct (w_stdin w) as [|[c|] s'] eqn:Es.
  - (* end of stream *)
    rewrite Hread. cbn -[slip_stop].
    unfold bind at 1. rewrite stop_exit_run.
    destruct (slip_stop_ok (set_stdin [] w)) as (_ & Hsame & _).
    destruct Hsame as (H1 & H2 & H3 & H4 & H5). cbn in H1, H2, H3, H4.
    rewrite app_nil_r in Hs.
    split; [|split; assumption].
    split.
    + exists done, [], []. rewrite H4, !app_nil_r. split; assumption.
    + intros _. exists done. rewrite H4. split; assumption.
  - (* data *)
    destruct Hread as (cs & rest & Hrd & Hsplit & Hpos & Hle).
    rewrite Hrd. cbn -[slip_stop Z.of_nat].
    replace (Z.of_nat (List.length cs) <? 0) with false
      by (symmetry; apply Z.ltb_ge; lia).
    cbn -[slip_stop Z.of_nat].
    replace (Z.of_nat (List.length cs) =? 0) with false
      by (symmetry; apply Z.eqb_neq; lia).
    cbn -[Z.of_nat].
    split.
    + exists done. cbn -[Z.of_nat]. split; [exact Hout|].
      split.
      { change (sizeof (buf_data (filled (stdinbuf st) cs)) = 16 * 1024).
        rewrite filled_size; [exact Hsz | rewrite Hsz; exact Hle]. }
      right. unfold h2l_pending. cbn -[Z.of_nat]. fd_simpl.
      split; [reflexivity|]. split; [reflexivity|].
      change ({| buf_len := Z.of_nat (List.length cs); buf_ptr := 0;
                 buf_data := cs ++ skipn (List.length cs) (buf_data (stdinbuf st)) |})
        with (filled (stdinbuf st) cs).
      rewrite filled_pending, filled_in_data by (rewrite Hsz; exact Hle).
      split; [reflexivity|]. split; [cbn; lia|].
      rewrite Hs, Hsplit, map_app, app_assoc. reflexivity.
    + unfold l2h_same. cbn. fd_simpl. auto.
  - (* read error *)
    rewrite Hread. cbn -[slip_stop].
    rewrite stop_exit_run.
    match goal with |- context [slip_stop IFCONFIG k sc ?w1] =>
      destruct (slip_stop_ok w1) as (_ & Hsame & _) end.
    destruct Hsame as (H1 & H2 & H3 & H4 & H5). cbn in H1, H2, H3, H4.
    split; [|split; assumption].
    split; [|discriminate].
    exists done, [], (Fault :: s'). rewrite H4, !app_nil_r.
    split; assumption.
Qed.

(** *** The block of the master readable *)

Lemma master_is_pty : (sc_masterfd sc =? k_getpt k) = true.
Proof. apply Z.eqb_eq. exact master_pty. Qed.

Lemma link_readable_inv ev st w :
  l2h_ok st w ->
  FD_ISSET (sc_masterfd sc) (rfds st) = true ->
  match link_readable IFCONFIG k ev sc st w with
  | (Ret st', w') => l2h_ok st' w' /\ h2l_same st w st' w'
  | (Exit c, w') =>
      c = 1 /\ l2h_prefix w' /\ w_linkout w' = w_linkout w
  | _ => False
  end.
Proof.
  intros (done & Hout & Hsz & Hst) Hr.
  destruct Hst as [(_ & Hw & Hs) | (Hr' & _)]; [|congruence].
  unfold link_readable, bufread, sys_read.
  pose proof (stream_read_spec (w_link w) (sizeof (buf_data (stdoutbuf st)))
                (ev_chunk_link ev)) as Hread.
  rewrite Hsz in Hread. specialize (Hread eq_refl).
  unfold bind at 1. unfold bind at 1.
  rewrite master_not_0, master_is_pty, Hsz.
  destruct (w_link w) as [|[c|] s'] eqn:Es.
  - (* nothing to read *)
    rewrite Hread. cbn -[slip_stop].
    split.
    + exists done. cbn. split; [exact Hout|]. split; [exact Hsz|].
      left. unfold l2h_idle. cbn. auto.
    + unfold h2l_same. cbn. auto.
  - (* data *)
    destruct Hread as (cs & rest & Hrd & Hsplit & Hpos & Hle).
    rewrite Hrd. cbn -[slip_stop Z.of_nat].
    replace (Z.of_nat (List.length cs) <? 0) with false
      by (symmetry; apply Z.ltb_ge; lia).
    cbn -[slip_stop Z.of_nat].
    replace (Z.of_nat (List.length cs) =? 0) with false
      by (symmetry; apply Z.eqb_neq; lia).
    cbn -[Z.of_nat].
    split.
    + exists done. cbn -[Z.of_nat]. split; [exact Hout|].
      split.
      { change (sizeof (buf_data (filled (stdoutbuf st) cs)) = 16 * 1024).
        rewrite filled_size; [exact Hsz | rewrite Hsz; exact Hle]. }
      right. unfold l2h_pending. cbn -[Z.of_nat]. fd_simpl.
      split; [reflexivity|]. split; [reflexivity|].
      change ({| buf_len := Z.of_nat (List.length cs); buf_ptr := 0;
                 buf_data := cs ++ skipn (List.length cs) (buf_data (stdoutbuf st)) |})
        with (filled (stdoutbuf st) cs).
      rewrite filled_pending, filled_in_data by (rewrite Hsz; exact Hle).
      split; [reflexivity|]. split; [cbn; lia|].
      rewrite Hs, Hsplit, map_app, app_assoc. reflexivity.
    + unfold h2l_same. cbn. fd_simpl. auto.
  - (* read error *)
    rewrite Hread. cbn -[slip_stop].
    rewrite stop_exit_run.
    match goal with |- context [slip_stop IFCONFIG k sc ?w1] =>
      destruct (slip_stop_ok w1) as (_ & Hsame & _) end.
    destruct Hsame as (H1 & H2 & H3 & H4 & H5). cbn in H1, H2, H3, H4.
    split; [reflexivity|]. split; [|assumption].
    exists done, [], (Fault :: s'). rewrite H3, !app_nil_r.
    split; assumption.
Qed.

(** *** The blocks of the master and of descriptor 1 writable *)

Lemma firstn_all_pending (l : list ascii) r :
  Z.of_nat (List.length l) - r = 0 -> firstn (Z.to_nat r) l = l.
Proof. intros H. apply firstn_all2. lia. Qed.

Lemma link_writable_inv ev st w :
  h2l_ok st w ->
  FD_ISSET (sc_masterfd sc) (wfds st) = true ->
  match link_writable IFCONFIG k ev sc st w with
  | (Ret st', w') => h2l_ok st' w' /\ l2h_same st w st' w'
  | (Exit c, w') =>
      h2l_exit c w' /\ w_link w' = w_link w /\ w_stdout w' = w_stdout w
  | _ => False
  end.
Proof.
  intros (done & Hout & Hsz & Hst) Hwr.
  destruct Hst as [(_ & Hw & _) | (Hr & _ & Hin & Hpos & Hs)]; [congruence|].
  unfold link_writable, bufwrite, sys_write. rewrite Hin.
  unfold bind at 1. unfold bind at 1.
  rewrite master_not_1, master_is_pty.
  set (r := accepted (ev_accept_link ev) (pending (stdinbuf st))).
  pose proof (in_data_pending_length _ Hin) as Hlen.
  destruct (r <=? 0) eqn:Er.
  - (* write error *)
    cbn -[slip_stop]. rewrite stop_exit_run.
    match goal with |- context [slip_stop IFCONFIG k sc ?w1] =>
      destruct (slip_stop_ok w1) as (_ & Hsame & _) end.
    destruct Hsame as (H1 & H2 & H3 & H4 & H5). cbn in H1, H2, H3, H4.
    split; [|split; assumption].
    split; [|discriminate].
    exists (done ++ firstn (Z.to_nat r) (pending (stdinbuf st))),
      (skipn (Z.to_nat r) (pending (stdinbuf st))), (w_stdin w).
    rewrite H4, Hout, <- !app_assoc, firstn_skipn. split; [reflexivity|].
    exact Hs.
  - apply Z.leb_gt in Er.
    pose proof (accepted_bound (ev_accept_link ev) (pending (stdinbuf st)) Er)
      as Hb. fold r in Hb.
    assert (Hr' : 0 <= r <= buf_len (stdinbuf st)) by lia.
    cbn. fold (drained (stdinbuf st) r).
    destruct (buf_len (stdinbuf st) - r =? 0) eqn:Ez.
    + (* drained *)
      apply Z.eqb_eq in Ez. cbn. split.
      * exists (done ++ pending (stdinbuf st)). cbn.
        rewrite firstn_all_pending by lia.
        split; [rewrite Hout, app_assoc; reflexivity|].
        split; [exact Hsz|].
        left. unfold h2l_idle. cbn. fd_simpl.
        split; [reflexivity|]. split; [reflexivity|]. exact Hs.
      * unfold l2h_same. cbn. fd_simpl. auto.
    + (* some bytes left *)
      apply Z.eqb_neq in Ez. cbn. split.
      * exists (done ++ firstn (Z.to_nat r) (pending (stdinbuf st))). cbn.
        split; [rewrite Hout, app_assoc; reflexivity|].
        split; [exact Hsz|].
        right. unfold h2l_pending. cbn.
        fold (drained (stdinbuf st) r).
        rewrite drained_pending, drained_in_data by assumption.
        split; [exact Hr|]. split; [exact Hwr|].
        split; [reflexivity|]. split; [lia|].
        rewrite <- app_assoc, firstn_skipn. exact Hs.
      * unfold l2h_same. cbn. auto.
Qed.

Lemma host_writable_inv ev st w :
  l2h_ok st w ->
  FD_ISSET 1 (wfds st) = true ->
  match host_writable IFCONFIG k ev sc st w with
  | (Ret st', w') => l2h_ok st' w' /\ h2l_same st w st' w'
  | (Exit c, w') =>
      c = 1 /\ l2h_prefix w' /\ w_linkout w' = w_linkout w
  | _ => False
  end.
Proof.
  intros (done & Hout & Hsz & Hst) Hwr.
  destruct Hst as [(_ & Hw & _) | (Hr & _ & Hin & Hpos & Hs)]; [congruence|].
  unfold host_writable, bufwrite, sys_write. rewrite Hin.
  unfold bind at 1. unfold bind at 1.
  cbn [Z.eqb Pos.eqb].
  set (r := accepted (ev_accept_host ev) (pending (stdoutbuf st))).
  pose proof (in_data_pending_length _ Hin) as Hlen.
  destruct (r <=? 0) eqn:Er.
  - (* write error *)
    cbn -[slip_stop]. rewrite stop_exit_run.
    match goal with |- context [slip_stop IFCONFIG k sc ?w1] =>
      destruct (slip_stop_ok w1) as (_ & Hsame & _) end.
    destruct Hsame as (H1 & H2 & H3 & H4 & H5). cbn in H1, H2, H3, H4.
    split; [reflexivity|]. split; [|assumption].
    exists (done ++ firstn (Z.to_nat r) (pending (stdoutbuf st))),
      (skipn (Z.to_nat r) (pending (stdoutbuf st))), (w_link w).
    rewrite H3, Hout, <- !app_assoc, firstn_skipn. split; [reflexivity|].
    exact Hs.
  - apply Z.leb_gt in Er.
    pose proof (accepted_bound (ev_accept_host ev) (pending (stdoutbuf st)) Er)
      as Hb. fold r in Hb.
    assert (Hr' : 0 <= r <= buf_len (stdoutbuf st)) by lia.
    cbn. fold (drained (stdoutbuf st) r).
    destruct (buf_len (stdoutbuf st) - r =? 0) eqn:Ez.
    + (* drained *)
      apply Z.eqb_eq in Ez. cbn. split.
      * exists (done ++ pending (stdoutbuf st)). cbn.
        rewrite firstn_all_pending by lia.
        split; [rewrite Hout, app_assoc; reflexivity|].
        split; [exact Hsz|].
        left. unfold l2h_idle. cbn. fd_simpl.
        split; [reflexivity|]. split; [reflexivity|]. exact Hs.
      * unfold h2l_same. cbn. fd_simpl. auto.
    + (* some bytes left *)
      apply Z.eqb_neq in Ez. cbn. split.
      * exists (done ++ firstn (Z.to_nat r) (pending (stdoutbuf st))). cbn.
        split; [rewrite Hout, app_assoc; reflexivity|].
        split; [exact Hsz|].
        right. unfold l2h_pending. cbn.
        fold (drained (stdoutbuf st) r).
        rewrite drained_pending, drained_in_data by assumption.
        split; [exact Hr|]. split; [exact Hwr|].
        split; [reflexivity|]. split; [lia|].
        rewrite <- app_assoc, firstn_skipn. exact Hs.
      * unfold h2l_same. cbn. auto.
Qed.

(** *** One turn of the loop *)

(** The invariant of the loop, and what an exit from its body leaves. *)
Definition relay_inv (st : relay) (w : world) : Prop :=
  h2l_ok st w /\ l2h_ok st w.

Definition relay_exit (c : Z) (w : world) : Prop :=
  h2l_exit c w /\ l2h_prefix w.

Definition triple (P : world -> Prop) (m : M relay)
  (Q : relay -> world -> Prop) : Prop :=
  forall w, P w ->
    match m w with
    | (Ret st', w') => Q st' w'
    | (Exit c, w') => relay_exit c w'
    | _ => False
    end.

Lemma triple_bind P m Q f R :
  triple P m Q -> (forall st, triple (Q st) (f st) R) ->
  triple P (bind m f) R.
Proof.
  intros Hm Hf w HP. unfold bind. specialize (Hm w HP).
  destruct (m w) as [[st'|c| |] w']; try exact Hm.
  apply (Hf st' w' Hm).
Qed.

Lemma h2l_idle_not_writable st w :
  h2l_ok st w -> FD_ISSET 0 (rfds st) = true ->
  FD_ISSET (sc_masterfd sc) (wfds st) = false.
Proof.
  intros (done & _ & _ & [(_ & H & _) | (H & _)]) Hr; congruence.
Qed.

Lemma l2h_idle_not_writable st w :
  l2h_ok st w -> FD_ISSET (sc_masterfd sc) (rfds st) = true ->
  FD_ISSET 1 (wfds st) = false.
Proof.
  intros (done & _ & _ & [(_ & H & _) | (H & _)]) Hr; congruence.
Qed.

Section Turn.

(** The tests of the four blocks, fixed by [select] before the first. *)
Variables c1 c2 c3 c4 : bool.
Variable ev : iter_env.

Definition before1 (st : relay) (w : world) : Prop :=
  relay_inv st w /\
  (c1 = true -> FD_ISSET 0 (rfds st) = true) /\
  (c3 = true -> FD_ISSET (sc_masterfd sc) (wfds st) = true) /\
  (c2 = true -> FD_ISSET (sc_masterfd sc) (rfds st) = true) /\
  (c4 = true -> FD_ISSET 1 (wfds st) = true).

Definition before2 (st : relay) (w : world) : Prop :=
  relay_inv st w /\
  (c3 = true -> FD_ISSET (sc_masterfd sc) (wfds st) = true) /\
  (c2 = true -> FD_ISSET (sc_masterfd sc) (rfds st) = true) /\
  (c4 = true -> FD_ISSET 1 (wfds st) = true).

Definition before3 (st : relay) (w : world) : Prop :=
  relay_inv st w /\
  (c3 = true -> FD_ISSET (sc_masterfd sc) (wfds st) = true) /\
  (c4 = true -> FD_ISSET 1 (wfds st) = true).

Definition before4 (st : relay) (w : world) : Prop :=
  relay_inv st w /\
  (c4 = true -> FD_ISSET 1 (wfds st) = true).

Lemma turn1 st :
  triple (before1 st) (when c1 (host_readable IFCONFIG k ev sc) st) before2.
Proof.
  intros w ((Hh & Hl) & G1 & G3 & G2 & G4). unfold when.
  destruct c1; [|cbn; repeat split; assumption].
  specialize (G1 eq_refl).
  pose proof (host_readable_inv ev st w Hh G1) as H.
  destruct (host_readable IFCONFIG k ev sc st w) as [[st'|c| |] w'];
    try exact H.
  - destruct H as (Hh' & Hsame).
    pose proof (l2h_ok_same _ _ _ _ Hsame Hl) as Hl'.
    destruct Hsame as (S1 & S2 & _).
    split; [split; assumption|].
    split.
    + intros E3. specialize (G3 E3).
      rewrite (h2l_idle_not_writable st w Hh G1) in G3. discriminate.
    + rewrite S1, S2. split; assumption.
  - destruct H as (He & H1 & H2). split; [exact He|].
    apply (l2h_prefix_same w); [exact H2|].
    apply (l2h_ok_prefix st); exact Hl.
Qed.

Lemma turn2 st :
  triple (before2 st)
    (when c2 (link_readable IFCONFIG k ev sc) st) before3.
Proof.
  intros w ((Hh & Hl) & G3 & G2 & G4). unfold when.
  destruct c2; [|cbn; repeat split; assumption].
  specialize (G2 eq_refl).
  pose proof (link_readable_inv ev st w Hl G2) as H.
  destruct (link_readable IFCONFIG k ev sc st w) as [[st'|c| |] w'];
    try exact H.
  - destruct H as (Hl' & Hsame).
    pose proof (h2l_ok_same _ _ _ _ Hsame Hh) as Hh'.
    destruct Hsame as (S1 & S2 & _).
    split; [split; assumption|].
    split.
    + rewrite S2. exact G3.
    + intros E4. specialize (G4 E4).
      rewrite (l2h_idle_not_writable st w Hl G2) in G4. discriminate.
  - destruct H as (-> & Hp & H1). split; [|exact Hp].
    split; [|discriminate].
    apply (h2l_prefix_same w); [exact H1|].
    apply (h2l_ok_prefix st); exact Hh.
Qed.

Lemma turn3 st :
  triple (before3 st)
    (when c3 (link_writable IFCONFIG k ev sc) st) before4.
Proof.
  intros w ((Hh & Hl) & G3 & G4). unfold when.
  destruct c3; [|cbn; repeat split; assumption].
  specialize (G3 eq_refl).
  pose proof (link_writable_inv ev st w Hh G3) as H.
  destruct (link_writable IFCONFIG k ev sc st w) as [[st'|c| |] w'];
    try exact H.
  - destruct H as (Hh' & Hsame).
    pose proof (l2h_ok_same _ _ _ _ Hsame Hl) as Hl'.
    destruct Hsame as (S1 & S2 & _).
    split; [split; assumption|]. rewrite S2. exact G4.
  - destruct H as (He & H1 & H2). split; [exact He|].
    apply (l2h_prefix_same w); [exact H2|].
    apply (l2h_ok_prefix st); exact Hl.
Qed.

Lemma turn4 st :
  triple (before4 st)
    (when c4 (host_writable IFCONFIG k ev sc) st) relay_inv.
Proof.
  intros w ((Hh & Hl) & G4). unfold when.
  destruct c4; [|cbn; split; assumption].
  specialize (G4 eq_refl).
  pose proof (host_writable_inv ev st w Hl G4) as H.
  destruct (host_writable IFCONFIG k ev sc st w) as [[st'|c| |] w'];
    try exact H.
  - destruct H as (Hl' & Hsame).
    pose proof (h2l_ok_same _ _ _ _ Hsame Hh) as Hh'.
    split; assumption.
  - destruct H as (-> & Hp & H1). split; [|exact Hp].
    split; [|discriminate].
    apply (h2l_prefix_same w); [exact H1|].
    apply (h2l_ok_prefix st); exact Hh.
Qed.

Lemma turn_blocks st :
  triple (before1 st)
    (st <- when c1 (host_readable IFCONFIG k ev sc) st ;;
     st <- when c2 (link_readable IFCONFIG k ev sc) st ;;
     st <- when c3 (link_writable IFCONFIG k ev sc) st ;;
     when c4 (host_writable IFCONFIG k ev sc) st)%vmnet
    relay_inv.
Proof.
  eapply triple_bind; [apply turn1|]. intros st1.
  eapply triple_bind; [apply turn2|]. intros st2.
  eapply triple_bind; [apply turn3|]. intros st3.
  apply turn4.
Qed.

End Turn.

Lemma relay_inv_go st w g : relay_inv st w -> relay_inv st (set_go g w).
Proof.
  intros [Hh Hl]. split.
  - apply (h2l_ok_same st w); [|exact Hh]. repeat split.
  - apply (l2h_ok_same st w); [|exact Hl]. repeat split.
Qed.

Lemma relay_iter_inv ev st :
  triple (relay_inv st) (relay_iter IFCONFIG k ev sc st) relay_inv.
Proof.
  unfold relay_iter.
  destruct (sys_select ev (sc_masterfd sc + 1) (rfds st) (wfds st))
    as [[n readfds] writefds] eqn:Esel.
  apply triple_bind with (Q := relay_inv).
  - destruct (n >? 0) eqn:En.
    + apply Z.gtb_lt in En.
      destruct (sys_select_spec _ _ _ _ _ _ _ Esel En) as [Sr Sw].
      intros w Hinv. apply turn_blocks.
      split; [exact Hinv|]. repeat split; intros H; auto.
    + intros w Hinv. exact Hinv.
  - intros st1 w1 H1. unfold deliver, sig_catch, bind, ret.
    destruct (ev_signal ev); [apply relay_inv_go|]; exact H1.
Qed.

(** *** The loop *)

(** Where the loop can be: at its test, the state and world reached from
    the start through turns that came back to the test. *)
Inductive loop_head (st0 : relay) : relay -> world -> Prop :=
| head_start : loop_head st0 st0 w0
| head_turn st w ev st' w' :
    loop_head st0 st w ->
    w_go w <> 0 ->
    relay_iter IFCONFIG k ev sc st w = (Ret st', w') ->
    loop_head st0 st' w'.

Lemma loop_head_inv st0 :
  relay_inv st0 w0 -> forall st w, loop_head st0 st w -> relay_inv st w.
Proof.
  intros H0 st w Hh. induction Hh as [|st w ev st' w' _ IH _ Hit].
  - exact H0.
  - pose proof (relay_iter_inv ev st w IH) as H. rewrite Hit in H. exact H.
Qed.

(** What a run of the loop ends in: the invariant when the loop is left,
    the prefixes when the process exits or stays in [select]. *)
Lemma relay_loop_inv evs :
  forall st w,
    relay_inv st w ->
    match relay_loop IFCONFIG k evs sc st w with
    | (Ret st', w') => relay_inv st' w'
    | (Exit c, w') => relay_exit c w'
    | (Blocked, w') => h2l_prefix w' /\ l2h_prefix w'
    | (Undef, _) => False
    end.
Proof.
  induction evs as [|ev evs IH]; intros st w Hinv; simpl.
  - destruct (w_go w =? 0); [exact Hinv|].
    destruct Hinv as [Hh Hl].
    split; [apply (h2l_ok_prefix st) | apply (l2h_ok_prefix st)]; assumption.
  - destruct (w_go w =? 0); [exact Hinv|].
    unfold bind. pose proof (relay_iter_inv ev st w Hinv) as H.
    destruct (relay_iter IFCONFIG k ev sc st w) as [[st'|c| |] w'];
      try exact H; try contradiction.
    apply IH. exact H.
Qed.

(** The state in which [main] enters the loop satisfies the invariant. *)
Lemma frame_buf_size i base :
  sizeof (buf_data (frame_buf k i base)) = 16 * 1024.
Proof.
  unfold frame_buf, frame_array, sizeof. cbn [buf_data].
  rewrite length_map, length_seq, Nat2Z.inj_mul. reflexivity.
Qed.

Lemma relay_init_inv : relay_inv (relay_init k sc) w0.
Proof.
  unfold relay_init. split.
  - exists []. rewrite app_nil_r. split; [reflexivity|].
    split; [apply frame_buf_size|]. left. unfold h2l_idle.
    cbn [rfds wfds]. fd_simpl. rewrite FD_ISSET_ZERO.
    repeat split; reflexivity.
  - exists []. rewrite app_nil_r. split; [reflexivity|].
    split; [apply frame_buf_size|]. left. unfold l2h_idle.
    cbn [rfds wfds]. fd_simpl. rewrite FD_ISSET_ZERO.
    repeat split; reflexivity.
Qed.

Lemma loop_head_relay_inv st w :
  loop_head (relay_init k sc) st w -> relay_inv st w.
Proof. apply loop_head_inv. apply relay_init_inv. Qed.

Lemma relay_loop_from_init evs :
  match relay_loop IFCONFIG k evs sc (relay_init k sc) w0 with
  | (Ret st', w') => relay_inv st' w'
  | (Exit c, w') => relay_exit c w'
  | (Blocked, w') => h2l_prefix w' /\ l2h_prefix w'
  | (Undef, _) => False
  end.
Proof. apply relay_loop_inv. apply relay_init_inv. Qed.

End Relay.

(** ** The log of the loop *)

Section RelayLog.

Variable IFCONFIG : string.
Variable k : kernel.
Variable sc : slipconn.
Variable stop_cmd : string.
Hypothesis stop_ok : stop_command IFCONFIG sc = Some stop_cmd.
Hypothesis stop_fits : overflows 1024 stop_cmd = false.

(** The log after an exit from the loop's body: possibly a [perror], then
    the teardown. *)
Definition exit_log (w w' : world) : Prop :=
  exists e,
    w_log w' = w_log w ++ e ++ teardown_effects k sc stop_cmd /\
    hooks e = [] /\ closes e = [].

(** A block of the loop returns with the log as it was, or exits through
    the teardown. *)
Definition logs {A} (m : M A) : Prop :=
  forall w,
    match m w with
    | (Exit _, w') => exit_log w w'
    | (_, w') => w_log w' = w_log w
    end.

Lemma logs_ret {A} (a : A) : logs (ret a).
Proof. intros w. reflexivity. Qed.

Lemma logs_bind {A B} (m : M A) (f : A -> M B) :
  logs m -> (forall a, logs (f a)) -> logs (bind m f).
Proof.
  intros Hm Hf w. unfold bind. specialize (Hm w).
  destruct (m w) as [[a|c| |] w1]; auto.
  specialize (Hf a w1).
  destruct (f a w1) as [[b|c| |] w2]; try congruence.
  destruct Hf as (e & He & H1 & H2). exists e.
  split; [congruence | auto].
Qed.

Lemma stop_exit_log {A} c w w1 e :
  w_log w1 = w_log w ++ e -> hooks e = [] -> closes e = [] ->
  fst ((slip_stop IFCONFIG k sc ;; @exit A c)%vmnet w1) = Exit c /\
  exit_log w (snd ((slip_stop IFCONFIG k sc ;; @exit A c)%vmnet w1)).
Proof.
  intros Hl He Hc.
  pose proof (slip_stop_spec IFCONFIG k sc w1) as H. rewrite stop_ok in H.
  rewrite stop_fits in H.
  destruct H as (Hr & _ & Hlog). unfold bind, exit.
  destruct (slip_stop IFCONFIG k sc w1) as [r w2].
  cbn [fst snd] in Hr, Hlog. subst r. cbn [fst snd].
  split; [reflexivity|]. exists e. rewrite Hlog, Hl, <- app_assoc. auto.
Qed.

Lemma perror_stop_exit_logs {A} msg w w1 :
  w_log w1 = w_log w ->
  match (perror msg ;; slip_stop IFCONFIG k sc ;; @exit A 1)%vmnet w1 with
  | (Exit _, w') => exit_log w w'
  | (_, w') => w_log w' = w_log w
  end.
Proof.
  intros Hw1. unfold bind at 1. unfold perror, emit.
  match goal with |- context [(slip_stop IFCONFIG k sc ;; exit 1)%vmnet ?w2] =>
    destruct (@stop_exit_log A 1 w w2 [Perror msg]) as [Hf He];
      [cbn; rewrite Hw1; reflexivity | reflexivity | reflexivity |];
    destruct ((slip_stop IFCONFIG k sc ;; exit 1)%vmnet w2) as [r2 w3]
  end.
  cbn [fst snd] in Hf, He. subst r2. exact He.
Qed.

Lemma bufread_logs ev fd b : logs (bufread IFCONFIG k ev sc fd b).
Proof.
  intros w. unfold bufread, sys_read. unfold bind at 1.
  assert (Hgen : forall r cs w1,
    w_log w1 = w_log w ->
    match
      (let b0 := {| buf_len := r; buf_ptr := buf_ptr b;
                    buf_data := cs ++ skipn (List.length cs) (buf_data b) |} in
       if buf_len b0 <? 0
       then perror "read" ;; slip_stop IFCONFIG k sc ;; exit 1
       else ret {| buf_len := buf_len b0; buf_ptr := 0;
                   buf_data := buf_data b0 |})%vmnet w1
    with
    | (Exit _, w') => exit_log w w'
    | (_, w') => w_log w' = w_log w
    end).
  { intros r cs w1 Hw1. cbn [buf_len buf_data].
    destruct (r <? 0); [|exact Hw1].
    apply perror_stop_exit_logs. exact Hw1. }
  destruct (fd =? 0).
  - destruct (stream_read _ _ _) as [[r cs] s]. apply Hgen. reflexivity.
  - destruct (fd =? k_getpt k).
    + destruct (stream_read _ _ _) as [[r cs] s]. apply Hgen. reflexivity.
    + apply Hgen. reflexivity.
Qed.

Lemma bufwrite_logs ev fd b : logs (bufwrite IFCONFIG k ev sc fd b).
Proof.
  intros w. unfold bufwrite. destruct (in_data b); [|reflexivity].
  unfold sys_write. unfold bind at 1.
  assert (Hgen : forall r w1,
    w_log w1 = w_log w ->
    match
      (if r <=? 0 then perror "write" ;; slip_stop IFCONFIG k sc ;; exit 1
       else ret {| buf_len := buf_len b - r; buf_ptr := buf_ptr b + r;
                   buf_data := buf_data b |})%vmnet w1
    with
    | (Exit _, w') => exit_log w w'
    | (_, w') => w_log w' = w_log w
    end).
  { intros r w1 Hw1. destruct (r <=? 0); [|exact Hw1].
    apply perror_stop_exit_logs. exact Hw1. }
  destruct (fd =? 1); [apply Hgen; reflexivity|].
  destruct (fd =? k_getpt k); apply Hgen; reflexivity.
Qed.

Lemma stop_exit_logs {A} c : logs (slip_stop IFCONFIG k sc ;; @exit A c)%vmnet.
Proof.
  intros w.
  destruct (@stop_exit_log A c w w [] (eq_sym (app_nil_r _)) eq_refl eq_refl)
    as [Hf He].
  destruct ((slip_stop IFCONFIG k sc ;; exit c)%vmnet w) as [r w'].
  cbn [fst snd] in Hf, He. subst r. exact He.
Qed.

Lemma host_readable_logs ev st : logs (host_readable IFCONFIG k ev sc st).
Proof.
  unfold host_readable. apply logs_bind; [apply bufread_logs|].
  intros b. apply logs_bind.
  - destruct (_ =? 0); [apply stop_exit_logs | apply logs_ret].
  - intros _. destruct (negb _); apply logs_ret.
Qed.

Lemma link_readable_logs ev st : logs (link_readable IFCONFIG k ev sc st).
Proof.
  unfold link_readable. apply logs_bind; [apply bufread_logs|].
  intros b. destruct (negb _); apply logs_ret.
Qed.

Lemma link_writable_logs ev st : logs (link_writable IFCONFIG k ev sc st).
Proof.
  unfold link_writable. apply logs_bind; [apply bufwrite_logs|].
  intros b. destruct (_ =? 0); apply logs_ret.
Qed.

Lemma host_writable_logs ev st : logs (host_writable IFCONFIG k ev sc st).
Proof.
  unfold host_writable. apply logs_bind; [apply bufwrite_logs|].
  intros b. destruct (_ =? 0); apply logs_ret.
Qed.

Lemma when_logs c f st : (forall st, logs (f st)) -> logs (when c f st).
Proof. intros H. unfold when. destruct c; [apply H | apply logs_ret]. Qed.

Lemma relay_iter_logs ev st : logs (relay_iter IFCONFIG k ev sc st).
Proof.
  unfold relay_iter.
  destruct (sys_select _ _ _ _) as [[n readfds] writefds].
  apply logs_bind.
  - destruct (n >? 0); [|apply logs_ret].
    apply logs_bind; [apply when_logs, host_readable_logs|]. intros st1.
    apply logs_bind; [apply when_logs, link_readable_logs|]. intros st2.
    apply logs_bind; [apply when_logs, link_writable_logs|]. intros st3.
    apply when_logs, host_writable_logs.
  - intros st1. apply logs_bind; [|intros; apply logs_ret].
    intros w. unfold deliver, sig_catch, ret. destruct (ev_signal ev); reflexivity.
Qed.

Lemma relay_loop_logs evs : forall st, logs (relay_loop IFCONFIG k evs sc st).
Proof.
  induction evs as [|ev evs IH]; intros st w; simpl.
  - destruct (w_go w =? 0); reflexivity.
  - destruct (w_go w =? 0); [reflexivity|].
    apply (logs_bind (relay_iter IFCONFIG k ev sc st)
             (fun st' => relay_loop IFCONFIG k evs sc st')).
    + apply relay_iter_logs.
    + exact IH.
Qed.

End RelayLog.

(** ** The fields of a record fit the session *)

Fixpoint nul_free (s : string) : bool :=
  match s with
  | EmptyString => true
  | String c s' => negb (Ascii.eqb c NUL) && nul_free s'
  end.

(** A field that [sscanf] stored through [%<width>s]. *)
Definition field_ok (width : nat) (s : string) : Prop :=
  nul_free s = true /\ (String.length s <= width)%nat.

Definition wf_cfg (c : cfgentry) : Prop :=
  field_ok 63 (cfg_localip c) /\ field_ok 255 (cfg_script c).

Lemma until_nul_free s : nul_free (until_nul s) = true.
Proof.
  induction s as [|c s IH]; simpl; [reflexivity|].
  destruct (Ascii.eqb c NUL) eqn:E; simpl; [reflexivity|].
  rewrite E. exact IH.
Qed.

Lemma skip_space_free s : nul_free s = true -> nul_free (skip_space s) = true.
Proof.
  induction s as [|c s IH]; simpl; [reflexivity|].
  intros H. destruct (isspace c); [|exact H].
  apply andb_true_iff in H. apply IH. tauto.
Qed.

Lemma scan_word_ok width :
  forall s x r,
    scan_word width s = (x, r) -> nul_free s = true ->
    field_ok width x /\ nul_free r = true.
Proof.
  unfold field_ok.
  induction width as [|w IH]; intros s x r; simpl.
  - intros H Hs. destruct s; inversion H; subst; simpl; auto.
  - destruct s as [|c s'].
    + intros H _. inversion H; subst. simpl. split; [split; [reflexivity | lia] | reflexivity].
    + destruct (isspace c).
      * intros H Hs. inversion H; subst. simpl.
        split; [split; [reflexivity | lia] | exact Hs].
      * destruct (scan_word w s') as [x' r'] eqn:E.
        intros H Hs. inversion H; subst. simpl in Hs.
        apply andb_true_iff in Hs. destruct Hs as [Hc Hs].
        destruct (IH _ _ _ E Hs) as [[Hx Hl] Hr].
        simpl. rewrite Hc, Hx. split; [split; [reflexivity | lia] | exact Hr].
Qed.

Lemma conv_s_ok width s x r :
  conv_s width s = Some (x, r) -> nul_free s = true ->
  field_ok width x /\ nul_free r = true.
Proof.
  unfold conv_s. intros H Hs. apply skip_space_free in Hs.
  destruct (skip_space s) as [|c s1]; [discriminate|].
  inversion H as [H1]. eapply scan_word_ok; eauto.
Qed.

Lemma sscanf_cfg_ok line cfg r cfg' :
  sscanf_cfg line cfg = (r, cfg') ->
  nul_free line = true -> 3 <= r ->
  field_ok 255 (cfg_script cfg) ->
  wf_cfg cfg'.
Proof.
  unfold sscanf_cfg, wf_cfg. intros H Hl Hr Hsc.
  destruct (conv_s 127 line) as [[u s1]|] eqn:E1;
    [|inversion H; lia].
  destruct (conv_s_ok _ _ _ _ E1 Hl) as [_ H1].
  destruct (conv_s 63 (skip_space s1)) as [[ri s2]|] eqn:E2;
    [|inversion H; lia].
  destruct (conv_s_ok _ _ _ _ E2 (skip_space_free _ H1)) as [_ H2].
  destruct (conv_s 63 (skip_space s2)) as [[l s3]|] eqn:E3;
    [|inversion H; lia].
  destruct (conv_s_ok _ _ _ _ E3 (skip_space_free _ H2)) as [Hloc H3].
  destruct (conv_s 255 (skip_space s3)) as [[scr s4]|] eqn:E4.
  - destruct (conv_s_ok _ _ _ _ E4 (skip_space_free _ H3)) as [Hscr _].
    inversion H; subst. simpl. split; assumption.
  - inversion H; subst. simpl. split; assumption.
Qed.

Lemma getcfgentry_lines_wf fp :
  forall cfg c rest, getcfgentry_lines fp cfg = Some (c, rest) -> wf_cfg c.
Proof.
  induction fp as [fp IH] using (well_founded_induction
    (Wf_nat.well_founded_ltof _ String.length)).
  intros cfg c rest. rewrite getcfgentry_lines_step.
  destruct (fgets 1024 fp) as [[l r]|] eqn:E; [|discriminate].
  apply fgets_shorter in E.
  destruct (sscanf_cfg _ _) as [n c1] eqn:Es.
  destruct (3 <=? n) eqn:En; simpl.
  - destruct (negb _).
    + intros H; inversion H; subst.
      apply (sscanf_cfg_ok _ _ _ _ Es (until_nul_free l)).
      * apply Z.leb_le. exact En.
      * split; [reflexivity | simpl; lia].
    + intros H. eapply IH; eauto.
  - intros H. eapply IH; eauto.
Qed.

Lemma getcfgbyid_lines_wf fp :
  forall cfg username remoteip c rest,
    getcfgbyid_lines fp cfg username remoteip = Some (c, rest) -> wf_cfg c.
Proof.
  induction fp as [fp IH] using (well_founded_induction
    (Wf_nat.well_founded_ltof _ String.length)).
  intros cfg username remoteip c rest. rewrite getcfgbyid_lines_step.
  destruct (getcfgentry_lines fp cfg) as [[c1 r1]|] eqn:E; [|discriminate].
  pose proof (getcfgentry_lines_wf _ _ _ _ E) as Hwf.
  apply getcfgentry_lines_shorter in E.
  destruct (matches username remoteip c1).
  - intros H; inversion H; subst. exact Hwf.
  - intros H. eapply IH; eauto.
Qed.

(** ** Copying a field into the session *)

Lemma c_str_terminated s t :
  nul_free s = true -> c_str (list_ascii_of_string s ++ NUL :: t) = Some s.
Proof.
  induction s as [|c s IH]; simpl; [reflexivity|].
  intros H. apply andb_true_iff in H. destruct H as [Hc Hs].
  apply negb_true_iff in Hc. rewrite Hc, (IH Hs). reflexivity.
Qed.

Lemma length_list_ascii s :
  List.length (list_ascii_of_string s) = String.length s.
Proof. induction s; simpl; congruence. Qed.

Lemma strncpy_shape dst src n :
  (String.length src < n)%nat ->
  exists t, strncpy dst src n = list_ascii_of_string src ++ NUL :: t.
Proof.
  intros H. unfold strncpy.
  rewrite firstn_app, length_list_ascii.
  rewrite firstn_all2 by (rewrite length_list_ascii; lia).
  destruct (n - String.length src)%nat as [|m] eqn:E; [lia|].
  destruct n as [|n']; [lia|]. simpl repeat.
  rewrite firstn_cons, <- app_assoc. simpl. eauto.
Qed.

Lemma c_str_strncpy dst src n :
  nul_free src = true -> (String.length src < n)%nat ->
  c_str (strncpy dst src n) = Some src.
Proof.
  intros Hf Hl. destruct (strncpy_shape dst src n Hl) as [t Ht].
  rewrite Ht. apply c_str_terminated. exact Hf.
Qed.

(** ** Authorization *)

(** The session [login] leaves when it returns: the identity is the name
    the system gave, cut to the array, and the three other strings are the
    fields of the first record of the store with that identity and the
    address read. *)
Definition authorized (k : kernel) (sc : slipconn) : Prop :=
  exists store pw_name username cfg,
    k_config k = Some store /\
    k_passwd k = Some pw_name /\
    sc_username sc = strncpy (sc_username (frame_sc k)) pw_name 127 /\
    c_str (sc_username sc) = Some username /\
    first_match username (cfg_remoteip cfg)
      (records store (k_frame_cfg k)) cfg /\
    c_str (sc_remoteip sc) = Some (cfg_remoteip cfg) /\
    c_str (sc_localip sc) = Some (cfg_localip cfg) /\
    c_str (sc_script sc) = Some (cfg_script cfg).

Lemma frame_array_size k base n : sizeof (frame_array k base n) = Z.of_nat n.
Proof.
  unfold sizeof, frame_array. rewrite length_map, length_seq. reflexivity.
Qed.

(** What [login] leaves of the world besides the host input and the
    configuration stream. *)
Definition login_frame (w w' : world) : Prop :=
  w_link w' = w_link w /\ w_stdout w' = w_stdout w /\
  w_linkout w' = w_linkout w /\ w_go w' = w_go w /\ w_open w' = w_open w /\
  exists l, w_log w' = w_log w ++ l /\ hooks l = [] /\ closes l = [].

Lemma login_frame_refl w : login_frame w w.
Proof.
  repeat split. exists []. rewrite app_nil_r. auto.
Qed.

Ltac login_done H :=
  inversion H; subst;
  split; [repeat split; eexists; split; [symmetry; apply app_nil_r | auto]
         | try exact I; try reflexivity].

Lemma login_spec k w r w' :
  w_fp w = None ->
  login k (frame_sc k) w = (r, w') ->
  login_frame w w' /\
  match r with
  | Ret sc =>
      authorized k sc /\
      sc_masterfd sc = sc_masterfd (frame_sc k) /\
      sc_slavefd sc = sc_slavefd (frame_sc k)
  | Exit c => c = 1
  | Undef => w_log w' = w_log w
  | Blocked => False
  end.
Proof.
  intros Hfp H. unfold login in H.
  destruct (k_passwd k) as [pw_name|] eqn:Epw; [|login_done H].
  cbn [sc_username sc_remoteip sc_localip sc_script frame_sc
       set_username set_remoteip set_localip set_script] in H.
  rewrite !frame_array_size in H.
  change (Z.to_nat (Z.of_nat 128 - 1)) with 127%nat in H.
  rewrite !Nat2Z.id in H.
  unfold readline in H. change (Z.of_nat 64 =? 0) with false in H.
  cbv iota in H. unfold bind at 1 in H.
  change (0 =? 0) with true in H. cbv iota in H.
  destruct (readline_from (w_stdin w) (frame_array k 128 64) 0 (Z.of_nat 64))
    as [[[n remoteip]|] s] eqn:Erl; [|login_done H].
  cbv beta iota in H.
  destruct (store remoteip (n - 1) NUL) as [rip_buf|] eqn:Est;
    [|login_done H].
  destruct (c_str (strncpy (frame_array k 0 128) pw_name 127))
    as [username|] eqn:Eu; [|login_done H].
  destruct (c_str rip_buf) as [rip|] eqn:Er; [|login_done H].
  unfold bind at 1 in H. unfold getcfgbyid, cfg_stream in H.
  cbn [w_fp set_stdin] in H. rewrite Hfp in H.
  destruct (k_config k) as [content|] eqn:Ecfg.
  2:{ revert H. run_monad. intros H. inversion H; subst.
      split; [|reflexivity].
      repeat split. eexists. split; [reflexivity|]. auto. }
  pose proof (getcfgbyid_lines_first content (k_frame_cfg k) username rip) as Hfirst.
  destruct (getcfgbyid_lines content (k_frame_cfg k) username rip)
    as [[cfg rest]|] eqn:Eg.
  2:{ revert H. run_monad. intros H. inversion H; subst.
      split; [|reflexivity].
      repeat split. eexists. split; [reflexivity|]. auto. }
  pose proof (getcfgbyid_lines_wf _ _ _ _ _ _ Eg) as [[Hl1 Hl2] [Hs1 Hs2]].
  cbn in H. inversion H; subst. clear H. split.
  { repeat split. exists []. rewrite app_nil_r. auto. }
  split; [|split; reflexivity].
  destruct Hfirst as (before & after & Hrec & Hm & Hb).
  apply matches_spec in Hm. destruct Hm as [Hmu Hmr].
  exists content, pw_name, username, cfg. cbn.
  split; [exact Ecfg|]. split; [exact Epw|]. split; [reflexivity|].
  split; [exact Eu|].
  split.
  { exists before, after. split; [exact Hrec|]. split; [tauto|].
    rewrite Hmr. eapply Forall_impl; [|exact Hb].
    intros a. apply matches_false. }
  split; [rewrite Er, Hmr; reflexivity|].
  split; apply c_str_strncpy; (assumption || lia).
Qed.


(** ** Link establishment *)

(** A call that leaves the streams and adds [l] to the log. *)
Definition step (w w' : world) (l : list effect) : Prop :=
  same_streams w w' /\ w_log w' = w_log w ++ l.

Lemma step_nil w : step w w [].
Proof. split; [repeat split | symmetry; apply app_nil_r]. Qed.

Lemma step_trans w w1 w2 l1 l2 :
  step w w1 l1 -> step w1 w2 l2 -> step w w2 (l1 ++ l2).
Proof.
  intros [(A1 & A2 & A3 & A4 & A5) Al] [(B1 & B2 & B3 & B4 & B5) Bl].
  split; [repeat split; congruence|].
  rewrite Bl, Al, app_assoc. reflexivity.
Qed.

Lemma emit_step e w : step w (snd (emit e w)) [e].
Proof. split; [repeat split | reflexivity]. Qed.

(** The session [slip_start] returns. *)
Definition established_session (k : kernel) (sc : slipconn) : slipconn :=
  set_unit (k_tiocsetd k)
    (set_oldldisc (snd (k_tiocgetd k))
       (set_slavefd (k_open k) (set_masterfd (k_getpt k) sc))).

Lemma open_pty_pair_spec k masterp slavep w r w' :
  open_pty_pair k masterp slavep w = (r, w') ->
  exists l,
    step w w' l /\ hooks l = [] /\
    (r = Ret (0, (masterp, slavep))
     \/ r = Ret (1, (k_getpt k, k_open k)) /\ l = [] /\ 0 <= k_getpt k).
Proof.
  unfold open_pty_pair, getpt, open_slave. run_monad.
  destruct (k_getpt k <? 0) eqn:E1.
  { intros H; inversion H; subst. exists []. split; [apply step_nil | auto]. }
  apply Z.ltb_ge in E1.
  destruct ((k_grantpt k <? 0) || (k_unlockpt k <? 0)).
  { intros H; inversion H; subst. exists [Close (k_getpt k)].
    split; [split; [repeat split | reflexivity] | auto]. }
  destruct (k_ptsname_r k <? 0).
  { intros H; inversion H; subst. exists [Close (k_getpt k)].
    split; [split; [repeat split | reflexivity] | auto]. }
  destruct (k_open k <? 0).
  { intros H; inversion H; subst. exists [Close (k_getpt k)].
    split; [split; [repeat split | reflexivity] | auto]. }
  intros H; inversion H; subst. exists [].
  split; [split; [repeat split | symmetry; apply app_nil_r] | auto].
Qed.

Lemma tty_setup_spec k sc w r w' :
  tty_setup k sc w = (r, w') ->
  exists l,
    step w w' l /\ hooks l = [] /\ closes l = [] /\
    (r = Ret tt \/ r = Exit 1).
Proof.
  unfold tty_setup. run_monad.
  destruct (k_tcgetattr k <? 0); destruct (k_tcsetattr k <? 0); simpl;
    intros H; inversion H; subst; eexists;
    (split; [split; [repeat split | cbn; rewrite <- ?app_assoc; reflexivity]
            | auto]).
Qed.

Lemma slip_setup_spec k sc w r w' :
  slip_setup k sc w = (r, w') ->
  exists l,
    step w w' l /\ hooks l = [] /\ closes l = [] /\
    (r = Exit 1
     \/ r = Ret (set_unit (k_tiocsetd k) (set_oldldisc (snd (k_tiocgetd k)) sc))
        /\ snd (k_tiocgetd2 k) = N_SLIP /\ snd (k_siocgifencap k) = 0).
Proof.
  unfold slip_setup.
  cbn [sc_slavefd sc_unit set_unit set_oldldisc]. run_monad.
  destruct (fst (k_tiocgetd k) <? 0); simpl;
    [intros H; inversion H; subst; eexists;
     (split; [split; [repeat split | cbn; rewrite <- ?app_assoc; reflexivity]
             | auto])|].
  destruct (k_tiocsetd k <? 0); simpl;
    [intros H; inversion H; subst; eexists;
     (split; [split; [repeat split | cbn; rewrite <- ?app_assoc; reflexivity]
             | auto])|].
  destruct (k_siocsifencap k <? 0); simpl;
    [intros H; inversion H; subst; eexists;
     (split; [split; [repeat split | cbn; rewrite <- ?app_assoc; reflexivity]
             | auto])|].
  destruct (fst (k_tiocgetd2 k) <? 0); simpl;
    [intros H; inversion H; subst; eexists;
     (split; [split; [repeat split | cbn; rewrite <- ?app_assoc; reflexivity]
             | auto])|].
  destruct (fst (k_siocgifencap k) <? 0); simpl;
    [intros H; inversion H; subst; eexists;
     (split; [split; [repeat split | cbn; rewrite <- ?app_assoc; reflexivity]
             | auto])|].
  destruct (negb (snd (k_tiocgetd2 k) =? N_SLIP)
            || negb (snd (k_siocgifencap k) =? 0)) eqn:Ev; simpl;
    intros H; inversion H; subst; eexists;
    (split; [split; [repeat split | cbn; rewrite <- ?app_assoc; reflexivity]|]).
  - auto.
  - apply orb_false_iff in Ev. destruct Ev as [Ed Ee].
    apply negb_false_iff in Ed, Ee. apply Z.eqb_eq in Ed, Ee.
    split; [reflexivity|]. split; [reflexivity|]. right. auto.
Qed.

Lemma interface_start_spec IFCONFIG sc w :
  interface_start IFCONFIG sc w =
  match start_command IFCONFIG sc with
  | Some cmd =>
      if overflows 1024 cmd then (Undef, w)
      else (Ret tt, set_log (w_log w ++ [System cmd]) w)
  | None => (Undef, w)
  end.
Proof.
  unfold interface_start, system_buf.
  destruct (start_command IFCONFIG sc) as [cmd|]; [|reflexivity].
  destruct (overflows 1024 cmd); reflexivity.
Qed.

Lemma slip_start_spec IFCONFIG k sc w r w' :
  slip_start IFCONFIG k sc w = (r, w') ->
  exists l,
    step w w' l /\
    match r with
    | Ret sc' =>
        sc' = established_session k sc /\
        0 <= k_getpt k /\
        snd (k_tiocgetd2 k) = N_SLIP /\ snd (k_siocgifencap k) = 0 /\
        exists pre cmd,
          l = pre ++ [System cmd] /\ hooks pre = [] /\ closes pre = [] /\
          start_command IFCONFIG sc' = Some cmd /\
          overflows 1024 cmd = false
    | Exit c => c = 1 /\ hooks l = []
    | Undef =>
        hooks l = [] /\
        snd (k_tiocgetd2 k) = N_SLIP /\ snd (k_siocgifencap k) = 0
    | Blocked => False
    end.
Proof.
  unfold slip_start. unfold bind at 1.
  destruct (open_pty_pair k (sc_masterfd sc) (sc_slavefd sc) w)
    as [r1 w1] eqn:E1.
  destruct (open_pty_pair_spec _ _ _ _ _ _ E1) as (l1 & S1 & H1 & Hr1).
  destruct Hr1 as [-> | (-> & -> & Hm)].
  { cbn. intros H; inversion H; subst. eexists.
    split; [eapply step_trans; [exact S1 | apply emit_step]|].
    split; [reflexivity|]. rewrite hooks_app, H1. reflexivity. }
  cbn [Z.eqb]. cbv iota beta. unfold bind at 1.
  destruct (tty_setup k (set_slavefd (k_open k) (set_masterfd (k_getpt k) sc)) w1)
    as [r2 w2] eqn:E2.
  destruct (tty_setup_spec _ _ _ _ _ E2) as (l2 & S2 & H2 & C2 & Hr2).
  destruct Hr2 as [-> | ->].
  2:{ intros H; inversion H; subst. exists ([] ++ l2).
      split; [eapply step_trans; eassumption | auto]. }
  unfold bind at 1.
  destruct (slip_setup k (set_slavefd (k_open k) (set_masterfd (k_getpt k) sc)) w2)
    as [r3 w3] eqn:E3.
  destruct (slip_setup_spec _ _ _ _ _ E3) as (l3 & S3 & H3 & C3 & Hr3).
  destruct Hr3 as [-> | (-> & Hd & He)].
  { intros H; inversion H; subst. exists (([] ++ l2) ++ l3).
    split; [eapply step_trans; [eapply step_trans|]; eassumption|].
    split; [reflexivity|]. rewrite hooks_app, H3. simpl. rewrite H2. reflexivity. }
  fold (established_session k sc).
  unfold bind at 1. rewrite interface_start_spec.
  destruct (start_command IFCONFIG (established_session k sc)) as [cmd|] eqn:Ec.
  2:{ intros H; inversion H; subst. exists (([] ++ l2) ++ l3).
      split; [eapply step_trans; [eapply step_trans|]; eassumption|].
      split; [|auto]. rewrite hooks_app, H3. simpl. rewrite H2. reflexivity. }
  destruct (overflows 1024 cmd) eqn:Eo.
  { intros H; inversion H; subst. exists (([] ++ l2) ++ l3).
    split; [eapply step_trans; [eapply step_trans|]; eassumption|].
    split; [|auto]. rewrite hooks_app, H3. simpl. rewrite H2. reflexivity. }
  cbn. intros H; inversion H; subst.
  exists (((([] ++ l2) ++ l3)) ++ [System cmd]).
  split.
  { eapply step_trans; [eapply step_trans; [eapply step_trans|]; eassumption|].
    split; [repeat split | reflexivity]. }
  split; [reflexivity|]. split; [exact Hm|]. split; [exact Hd|].
  split; [exact He|].
  exists (([] ++ l2) ++ l3), cmd. split; [reflexivity|].
  rewrite hooks_app, closes_app. simpl. rewrite H2, H3, C2, C3. auto.
Qed.

(** ** The two commands *)

Lemma string_length_app (a b : string) :
  String.length (a ++ b) = (String.length a + String.length b)%nat.
Proof. induction a as [|c a IH]; simpl; [reflexivity | rewrite IH; reflexivity]. Qed.

Ltac string_lengths :=
  repeat first [ rewrite string_length_app
               | progress cbn [String.length String.append] ].

Lemma hook_suffix_down sc up :
  hook_suffix "up" sc = Some up ->
  exists down,
    hook_suffix "down" sc = Some down /\
    (String.length down <= String.length up + 2)%nat.
Proof.
  unfold hook_suffix. destruct (has_script sc).
  - destruct (c_str (sc_script sc)) as [s|]; [|discriminate].
    destruct (c_str (sc_remoteip sc)) as [r|]; [|discriminate].
    destruct (c_str (sc_localip sc)) as [l|]; [|discriminate].
    intros H. inversion H; subst. eexists. split; [reflexivity|].
    string_lengths. lia.
  - intros H. inversion H; subst. exists EmptyString. split; [reflexivity|].
    simpl. lia.
Qed.

(** When the command of [interface_start] fits its buffer, so does the
    command of [interface_stop]. *)
Lemma stop_from_start IFCONFIG sc up :
  start_command IFCONFIG sc = Some up ->
  overflows 1024 up = false ->
  exists down,
    stop_command IFCONFIG sc = Some down /\ overflows 1024 down = false.
Proof.
  unfold start_command, stop_command, overflows.
  destruct (c_str (sc_localip sc)) as [l|]; [|discriminate].
  destruct (c_str (sc_remoteip sc)) as [r|]; [|discriminate].
  destruct (hook_suffix "up" sc) as [su|] eqn:Eu; [|discriminate].
  destruct (hook_suffix_down sc su Eu) as (sd & -> & Hlen).
  intros H Hfit. inversion H; subst. eexists. split; [reflexivity|].
  apply Nat.leb_gt in Hfit. apply Nat.leb_gt. revert Hfit Hlen.
  string_lengths. lia.
Qed.

(** The commands as functions of the unit and of a record of the store. *)
Definition record_suffix (verb : string) (cfg : cfgentry) : string :=
  match cfg_script cfg with
  | EmptyString => EmptyString
  | script =>
      (" && " ++ script ++ " " ++ verb ++ " '" ++ cfg_remoteip cfg
       ++ "' '" ++ cfg_localip cfg ++ "'")%string
  end.

Definition up_command (IFCONFIG : string) (unit : Z) (cfg : cfgentry) : string :=
  (IFCONFIG ++ " sl" ++ dec unit ++ " " ++ cfg_localip cfg
   ++ " pointopoint " ++ cfg_remoteip cfg
   ++ " netmask 255.255.255.255 mtu 1500" ++ record_suffix "up" cfg)%string.

Definition down_command (IFCONFIG : string) (unit : Z) (cfg : cfgentry) : string :=
  (IFCONFIG ++ " sl" ++ dec unit ++ " down" ++ record_suffix "down" cfg)%string.

(** The strings of the session are the fields of the record. *)
Definition holds (sc : slipconn) (cfg : cfgentry) : Prop :=
  c_str (sc_remoteip sc) = Some (cfg_remoteip cfg) /\
  c_str (sc_localip sc) = Some (cfg_localip cfg) /\
  c_str (sc_script sc) = Some (cfg_script cfg).

Lemma hook_suffix_record verb sc cfg :
  holds sc cfg -> hook_suffix verb sc = Some (record_suffix verb cfg).
Proof.
  intros (Hr & Hl & Hs). unfold hook_suffix, has_script, record_suffix.
  rewrite Hr, Hl, Hs.
  destruct (sc_script sc) as [|c a]; [discriminate|]. simpl in Hs |- *.
  destruct (Ascii.eqb c NUL) eqn:Ec.
  - inversion Hs as [H0]. reflexivity.
  - destruct (c_str a) as [s|]; [|discriminate].
    inversion Hs as [H0]. reflexivity.
Qed.

Lemma start_command_record IFCONFIG sc cfg :
  holds sc cfg ->
  start_command IFCONFIG sc = Some (up_command IFCONFIG (sc_unit sc) cfg).
Proof.
  intros H. unfold start_command, up_command.
  rewrite (hook_suffix_record "up" sc cfg H).
  destruct H as (Hr & Hl & _). rewrite Hr, Hl. reflexivity.
Qed.

Lemma stop_command_record IFCONFIG sc cfg :
  holds sc cfg ->
  stop_command IFCONFIG sc = Some (down_command IFCONFIG (sc_unit sc) cfg).
Proof.
  intros H. unfold stop_command, down_command.
  rewrite (hook_suffix_record "down" sc cfg H). reflexivity.
Qed.

(** ** The run up to the loop *)

(** [main] before the loop: [sig_setup], [login], [setuid], [slip_start],
    and the signals caught until then. *)
Definition establish (IFCONFIG : string) (k : kernel) : M slipconn :=
  (sig_setup ;;
   sc <- login k (frame_sc k) ;;
   setuid 0 ;;
   sc <- slip_start IFCONFIG k sc ;;
   deliver (k_signal_early k) ;;
   ret sc)%vmnet.

Lemma main_establish IFCONFIG k w :
  main IFCONFIG k w =
  (sc <- establish IFCONFIG k ;;
   relay_loop IFCONFIG k (k_events k) sc (relay_init k sc) ;;
   slip_stop IFCONFIG k sc ;;
   ret 0)%vmnet w.
Proof.
  unfold main, establish, bind, sig_setup, ret, setuid, emit.
  destruct (login k (frame_sc k) w) as [[sc1|c| |] w1]; try reflexivity.
  destruct (slip_start IFCONFIG k sc1 _) as [[sc2|c| |] w2]; try reflexivity.
  destruct (deliver (k_signal_early k) w2) as [[[]|c| |] w3]; reflexivity.
Qed.

(** What holds when the loop is entered. *)
Definition established (IFCONFIG : string) (k : kernel) (sc : slipconn)
  (w : world) : Prop :=
  authorized k sc /\
  sc_masterfd sc = k_getpt k /\ 0 <= k_getpt k /\
  sc_unit sc = k_tiocsetd k /\
  snd (k_tiocgetd2 k) = N_SLIP /\ snd (k_siocgifencap k) = 0 /\
  w_link w = k_link k /\ w_stdout w = [] /\ w_linkout w = [] /\
  exists pre up,
    w_log w = pre ++ [System up] /\ hooks pre = [] /\ closes pre = [] /\
    start_command IFCONFIG sc = Some up /\ overflows 1024 up = false.

Lemma establish_spec IFCONFIG k r w :
  establish IFCONFIG k (boot k) = (r, w) ->
  (w_stdout w = [] /\ w_linkout w = []) /\
  match r with
  | Ret sc => established IFCONFIG k sc w
  | Exit c => c = 1 /\ hooks (w_log w) = []
  | Undef =>
      hooks (w_log w) = [] /\
      (w_log w = []
       \/ snd (k_tiocgetd2 k) = N_SLIP /\ snd (k_siocgifencap k) = 0)
  | Blocked => False
  end.
Proof.
  unfold establish. unfold bind at 1. unfold sig_setup, ret.
  unfold bind at 1.
  destruct (login k (frame_sc k) (boot k)) as [r1 w1] eqn:E1.
  destruct (login_spec k (boot k) r1 w1 eq_refl E1) as [Hframe Hr1].
  destruct Hframe as (F1 & F2 & F3 & F4 & F5 & l1 & Fl & Fh & Fc).
  cbn in F1, F2, F3, Fl.
  destruct r1 as [sc1|c| |]; try contradiction.
  2:{ intros H; injection H as <- <-. rewrite Fl, Fh. auto. }
  2:{ intros H; injection H as <- <-. rewrite Hr1. cbn. auto. }
  destruct Hr1 as (Hauth & Hm1 & Hs1).
  unfold bind at 1. unfold setuid, emit. unfold bind at 1.
  match goal with |- context [slip_start IFCONFIG k sc1 ?w2] =>
    destruct (slip_start IFCONFIG k sc1 w2) as [r2 w3] eqn:E2;
    destruct (slip_start_spec _ _ _ _ _ _ E2) as (l2 & [Hsame Hlog] & Hr2)
  end.
  destruct Hsame as (S1 & S2 & S3 & S4 & S5).
  cbn in S1, S2, S3, S4, S5, Hlog. rewrite Fl in Hlog.
  assert (Hout : w_stdout w3 = [] /\ w_linkout w3 = [])
    by (split; congruence).
  destruct r2 as [sc2|c| |]; try contradiction.
  2:{ intros H; injection H as <- <-. destruct Hr2 as [-> Hh].
      split; [exact Hout|].
      split; [reflexivity|]. rewrite Hlog, !hooks_app, Fh, Hh. reflexivity. }
  2:{ intros H; injection H as <- <-. destruct Hr2 as (Hh & Hv).
      split; [exact Hout|]. split; [|right; exact Hv].
      rewrite Hlog, !hooks_app, Fh, Hh. reflexivity. }
  destruct Hr2 as (-> & Hm & Hd & He & pre & up & -> & Hp & Hc & Hup & Hfit).
  unfold bind at 1.
  assert (Hdel : exists g, deliver (k_signal_early k) w3 = (Ret tt, set_go g w3)).
  { unfold deliver, sig_catch, ret. destruct (k_signal_early k).
    - exists 0. reflexivity.
    - exists (w_go w3). destruct w3; reflexivity. }
  destruct Hdel as [g ->]. intros H; injection H as <- <-.
  split; [exact Hout|].
  unfold established. cbn.
  split.
  { destruct Hauth as (store & pw & u & cfg & A1 & A2 & A3 & A4 & A5 & A6 & A7 & A8).
    exists store, pw, u, cfg. cbn. auto 10. }
  split; [reflexivity|]. split; [exact Hm|]. split; [reflexivity|].
  split; [exact Hd|]. split; [exact He|].
  split; [congruence|]. split; [congruence|]. split; [congruence|].
  exists ((l1 ++ [Setuid 0]) ++ pre), up.
  split; [rewrite Hlog, <- !app_assoc; reflexivity|].
  rewrite !hooks_app, !closes_app, Fh, Fc, Hp, Hc. auto.
Qed.

(** ** The whole run *)

(** The run after the loop was entered with the session [sc]. *)
Lemma main_spec IFCONFIG k :
  match establish IFCONFIG k (boot k) with
  | (Ret sc, w0) =>
      exists down,
        stop_command IFCONFIG sc = Some down /\
        overflows 1024 down = false /\
        match main IFCONFIG k (boot k) with
        | (Ret c, w) =>
            c = 0 /\ w_log w = w_log w0 ++ teardown_effects k sc down
        | (Exit c, w) => exit_log k sc down w0 w
        | (_, w) => w_log w = w_log w0
        end
  | (r, w0) =>
      match r with
      | Ret _ => True
      | Exit c => main IFCONFIG k (boot k) = (Exit c, w0)
      | Undef => main IFCONFIG k (boot k) = (Undef, w0)
      | Blocked => main IFCONFIG k (boot k) = (Blocked, w0)
      end
  end.
Proof.
  destruct (establish IFCONFIG k (boot k)) as [[sc|c| |] w0] eqn:E;
    rewrite main_establish; unfold bind at 1; rewrite E; try reflexivity.
  destruct (establish_spec _ _ _ _ E) as [_ Hest].
  destruct Hest as (_ & _ & _ & _ & _ & _ & _ & _ & _ & pre & up & _ & _ & _ & Hup & Hfit).
  destruct (stop_from_start _ _ _ Hup Hfit) as (down & Hdown & Hdfit).
  exists down. split; [exact Hdown|]. split; [exact Hdfit|].
  unfold bind at 1.
  pose proof (relay_loop_logs IFCONFIG k sc down Hdown Hdfit (k_events k)
                (relay_init k sc) w0) as Hloop.
  destruct (relay_loop IFCONFIG k (k_events k) sc (relay_init k sc) w0)
    as [[st|c| |] w1]; cbv beta iota; try exact Hloop.
  unfold bind at 1.
  pose proof (slip_stop_spec IFCONFIG k sc w1) as Hstop.
  rewrite Hdown, Hdfit in Hstop. destruct Hstop as (Hr & _ & Hlog).
  destruct (slip_stop IFCONFIG k sc w1) as [r w2].
  cbn [fst snd] in Hr, Hlog. subst r. unfold ret.
  split; [reflexivity|]. rewrite Hlog, Hloop. reflexivity.
Qed.

(** Link Teardown ran once, as the last thing, in a run with the log
    [log]: the log ends with the three steps of [slip_stop], and before
    them no descriptor was closed and the one command run was the one of
    [interface_start]. *)
Definition teardown_once (IFCONFIG : string) (k : kernel) (sc : slipconn)
  (log : list effect) : Prop :=
  exists before up down,
    log = before ++ teardown_effects k sc down /\
    start_command IFCONFIG sc = Some up /\
    stop_command IFCONFIG sc = Some down /\
    hooks before = [up] /\ closes before = [].

(** C3 as stated: every run that ends ends after one teardown. *)
Definition teardown_always (IFCONFIG : string) (k : kernel) : Prop :=
  match main IFCONFIG k (boot k) with
  | (Ret _, w) | (Exit _, w) => exists sc, teardown_once IFCONFIG k sc (w_log w)
  | _ => True
  end.

(** C3, as stated, fails: when the store cannot be opened the process
    exits with status 1 and no step of the teardown is taken. *)
Lemma no_teardown_without_store :
  ~ teardown_always sample_ifconfig storeless_kernel.
Proof.
  unfold teardown_always.
  replace (main sample_ifconfig storeless_kernel (boot storeless_kernel))
    with (@Exit Z 1,
          set_log [Perror "Cannot open configuration file:"]
            (set_stdin [] (boot storeless_kernel)))
    by (vm_compute; reflexivity).
  intros (sc & before & up & down & Hlog & _).
  apply (f_equal hooks) in Hlog. rewrite hooks_app in Hlog.
  unfold teardown_effects in Hlog. cbn in Hlog.
  destruct (hooks before); discriminate.
Qed.

(** C3, as amended.  A run in which the link was established ends, when
    it ends, after exactly one teardown, which is the last thing it does;
    a run that fails before that (no store, no authorization, link setup)
    exits with status 1 and runs no command at all, so no teardown. *)
Theorem teardown_once_established IFCONFIG k :
  match establish IFCONFIG k (boot k), main IFCONFIG k (boot k) with
  | (Ret sc, _), (Ret _, w) => teardown_once IFCONFIG k sc (w_log w)
  | (Ret sc, _), (Exit _, w) => teardown_once IFCONFIG k sc (w_log w)
  | (Exit c, w0), m => m = (Exit c, w0) /\ c = 1 /\ hooks (w_log w0) = []
  | _, _ => True
  end.
Proof.
  pose proof (main_spec IFCONFIG k) as Hmain.
  destruct (establish IFCONFIG k (boot k)) as [[sc|c| |] w0] eqn:E; auto.
  - destruct (establish_spec _ _ _ _ E) as [_ Hest].
    destruct Hest as (_ & _ & _ & _ & _ & _ & _ & _ & _ & pre & up & Hl0 & Hp & Hc & Hup & _).
    destruct Hmain as (down & Hdown & _ & Hm).
    destruct (main IFCONFIG k (boot k)) as [[c|c| |] w]; auto.
    + destruct Hm as [_ Hlog]. exists (w_log w0), up, down.
      split; [exact Hlog|]. split; [exact Hup|]. split; [exact Hdown|].
      rewrite Hl0, hooks_app, closes_app, Hp, Hc. auto.
    + destruct Hm as (e & Hlog & He & Hce). exists (w_log w0 ++ e), up, down.
      split; [rewrite Hlog, app_assoc; reflexivity|].
      split; [exact Hup|]. split; [exact Hdown|].
      rewrite !hooks_app, !closes_app, Hl0, hooks_app, closes_app.
      rewrite Hp, Hc, He, Hce. auto.
  - destruct (establish_spec _ _ _ _ E) as [_ [Hc Hh]]. auto.
Qed.

Lemma hooks_teardown k sc down : hooks (teardown_effects k sc down) = [down].
Proof.
  unfold teardown_effects. destruct (k_tiocsetd_restore k <? 0); reflexivity.
Qed.

Lemma authorized_holds k sc :
  authorized k sc ->
  exists store pw_name identity cfg,
    k_config k = Some store /\ k_passwd k = Some pw_name /\
    c_str (strncpy (sc_username (frame_sc k)) pw_name 127) = Some identity /\
    first_match identity (cfg_remoteip cfg) (records store (k_frame_cfg k)) cfg /\
    holds sc cfg.
Proof.
  intros (store & pw & u & cfg & A1 & A2 & A3 & A4 & A5 & A6 & A7 & A8).
  exists store, pw, u, cfg. rewrite A3 in A4. unfold holds. auto 10.
Qed.

(** C7. Every command the run passes to [system] is built from the unit
    number and from the fields of one record of the configuration store:
    the first record whose identity is the name the system gave for the
    caller and whose remote address is the address asked for.  So the
    script, the local address and the remote address of the command are
    those of that record. *)
Theorem hook_commands_from_store IFCONFIG k cmd :
  In cmd (hooks (w_log (snd (main IFCONFIG k (boot k))))) ->
  exists store pw_name identity cfg,
    k_config k = Some store /\ k_passwd k = Some pw_name /\
    c_str (strncpy (sc_username (frame_sc k)) pw_name 127) = Some identity /\
    first_match identity (cfg_remoteip cfg) (records store (k_frame_cfg k)) cfg /\
    (cmd = up_command IFCONFIG (k_tiocsetd k) cfg
     \/ cmd = down_command IFCONFIG (k_tiocsetd k) cfg).
Proof.
  pose proof (main_spec IFCONFIG k) as Hmain.
  destruct (establish IFCONFIG k (boot k)) as [[sc|c| |] w0] eqn:E.
  - destruct (establish_spec _ _ _ _ E) as [_ Hest].
    destruct Hest as (Hauth & _ & _ & Hunit & _ & _ & _ & _ & _ & pre & up & Hl0 & Hp & _ & Hup & _).
    destruct Hmain as (down & Hdown & _ & Hm).
    destruct (authorized_holds _ _ Hauth) as (store & pw & u & cfg & A1 & A2 & A3 & A4 & Hh).
    rewrite (start_command_record IFCONFIG sc cfg Hh) in Hup.
    rewrite (stop_command_record IFCONFIG sc cfg Hh) in Hdown.
    rewrite Hunit in Hup, Hdown.
    injection Hup as <-. injection Hdown as <-.
    assert (H0 : hooks (w_log w0) = [up_command IFCONFIG (k_tiocsetd k) cfg]).
    { rewrite Hl0, hooks_app, Hp. reflexivity. }
    intros Hin. exists store, pw, u, cfg.
    split; [exact A1|]. split; [exact A2|]. split; [exact A3|].
    split; [exact A4|].
    destruct (main IFCONFIG k (boot k)) as [[c|c| |] w]; cbn [snd] in Hin.
    + destruct Hm as [_ Hlog].
      rewrite Hlog, hooks_app, H0, hooks_teardown in Hin.
      destruct Hin as [<- | [<- | []]]; auto.
    + destruct Hm as (e & Hlog & He & _).
      rewrite Hlog, !hooks_app, H0, He, hooks_teardown in Hin.
      destruct Hin as [<- | [<- | []]]; auto.
    + rewrite Hm, H0 in Hin. destruct Hin as [<- | []]; auto.
    + rewrite Hm, H0 in Hin. destruct Hin as [<- | []]; auto.
  - rewrite Hmain. destruct (establish_spec _ _ _ _ E) as [_ [_ Hh]].
    cbn [snd]. rewrite Hh. intros [].
  - rewrite Hmain. destruct (establish_spec _ _ _ _ E) as [_ [Hh _]].
    cbn [snd]. rewrite Hh. intros [].
  - destruct (establish_spec _ _ _ _ E) as [_ []].
Qed.

Lemma hook_commands_from_store_witness :
  exists store pw_name identity cfg,
    k_config sample_kernel = Some store /\
    k_passwd sample_kernel = Some pw_name /\
    c_str (strncpy (sc_username (frame_sc sample_kernel)) pw_name 127)
    = Some identity /\
    first_match identity (cfg_remoteip cfg)
      (records store (k_frame_cfg sample_kernel)) cfg /\
    ("/sbin/ifconfig sl0 down && /etc/vmnet/up.sh down '10.0.0.2' '10.0.0.1'"%string
     = up_command sample_ifconfig (k_tiocsetd sample_kernel) cfg
     \/ "/sbin/ifconfig sl0 down && /etc/vmnet/up.sh down '10.0.0.2' '10.0.0.1'"%string
        = down_command sample_ifconfig (k_tiocsetd sample_kernel) cfg).
Proof.
  apply (hook_commands_from_store sample_ifconfig sample_kernel).
  vm_compute. right. left. reflexivity.
Defined.

(** C6. When, after the switch to SLIP, the line discipline read back is
    not SLIP or the encapsulation read back is not the one set, the run
    ends in [exit(1)] (unless [login] already had no defined behaviour,
    before any system call), no command was run and nothing was relayed. *)
Theorem unverified_link_is_fatal IFCONFIG k :
  snd (k_tiocgetd2 k) <> N_SLIP \/ snd (k_siocgifencap k) <> 0 ->
  let r := main IFCONFIG k (boot k) in
  (fst r = Exit 1 \/ fst r = Undef /\ w_log (snd r) = []) /\
  hooks (w_log (snd r)) = [] /\
  w_stdout (snd r) = [] /\ w_linkout (snd r) = [].
Proof.
  intros Hbad. pose proof (main_spec IFCONFIG k) as Hmain.
  destruct (establish IFCONFIG k (boot k)) as [[sc|c| |] w0] eqn:E.
  - destruct (establish_spec _ _ _ _ E) as [_ Hest].
    destruct Hest as (_ & _ & _ & _ & Hd & He & _). tauto.
  - cbv zeta. rewrite Hmain.
    destruct (establish_spec _ _ _ _ E) as [[Ho Hl] [-> Hh]].
    cbn [fst snd]. auto.
  - cbv zeta. rewrite Hmain.
    destruct (establish_spec _ _ _ _ E) as [[Ho Hl] [Hh [H0 | Hv]]].
    + cbn [fst snd]. auto.
    + tauto.
  - destruct (establish_spec _ _ _ _ E) as [_ []].
Qed.

Lemma unverified_link_is_fatal_witness :
  let r := main sample_ifconfig unswitched_kernel (boot unswitched_kernel) in
  (fst r = Exit 1 \/ fst r = Undef /\ w_log (snd r) = []) /\
  hooks (w_log (snd r)) = [] /\
  w_stdout (snd r) = [] /\ w_linkout (snd r) = [].
Proof.
  apply (unverified_link_is_fatal sample_ifconfig unswitched_kernel).
  left. vm_compute. discriminate.
Defined.

(** ** The relay from the loop's start *)

(** The session of the sample run, the world in which it enters the loop,
    and the state and world after its first turn. *)
Definition sample_start : res slipconn * world :=
  establish sample_ifconfig sample_kernel (boot sample_kernel).

Definition sample_session : slipconn :=
  match fst sample_start with
  | Ret sc => sc
  | _ => frame_sc sample_kernel
  end.

Definition sample_world : world := snd sample_start.

Definition sample_turn : res relay * world :=
  relay_iter sample_ifconfig sample_kernel (turn 1 0) sample_session
    (relay_init sample_kernel sample_session) sample_world.

Definition sample_state : relay :=
  match fst sample_turn with
  | Ret st => st
  | _ => relay_init sample_kernel sample_session
  end.

Lemma established_relay IFCONFIG k sc w0 :
  1 < k_getpt k ->
  establish IFCONFIG k (boot k) = (Ret sc, w0) ->
  established IFCONFIG k sc w0 /\
  sc_masterfd sc = k_getpt k /\ 1 < sc_masterfd sc /\
  exists down,
    stop_command IFCONFIG sc = Some down /\ overflows 1024 down = false.
Proof.
  intros Hfresh E. destruct (establish_spec _ _ _ _ E) as [_ Hest].
  split; [exact Hest|].
  destruct Hest as (_ & Hm & _ & _ & _ & _ & _ & _ & _ & pre & up & _ & _ & _ & Hup & Hfit).
  split; [exact Hm|]. split; [rewrite Hm; exact Hfresh|].
  exact (stop_from_start _ _ _ Hup Hfit).
Qed.



(** [written] is a prefix of the data [source] delivers. *)
Definition delivered (source : stream) (written : list ascii) : Prop :=
  exists unwritten rest, source = map Data (written ++ unwritten) ++ rest.

(** C1 as stated, for the direction from the link to the host: a run that
    ends without a read or write error has written to the host output
    every byte it read from the link. *)
Definition link_to_host_lossless (IFCONFIG : string) (k : kernel) : Prop :=
  let r := main IFCONFIG k (boot k) in
  fst r = Exit 0 ->
  k_link k = map Data (w_stdout (snd r)) ++ w_link (snd r).




(** ** Exit status *)

Section Exits.

Variable IFCONFIG : string.
Variable k : kernel.
Variable sc : slipconn.
Variable down : string.
Hypothesis master_pty : sc_masterfd sc = k_getpt k.
Hypothesis master_fresh : 1 < sc_masterfd sc.
Hypothesis stop_ok : stop_command IFCONFIG sc = Some down.
Hypothesis stop_fits : overflows 1024 down = false.

(** The block ends the process with status [c], after the teardown. *)
Definition exits_after_teardown (c : Z) (w : world) (r : res relay * world)
  : Prop :=
  fst r = Exit c /\ exit_log k sc down w (snd r).

Lemma exits_from_logs (m : M relay) c w :
  logs k sc down m -> fst (m w) = Exit c -> exits_after_teardown c w (m w).
Proof.
  intros Hl Hf. split; [exact Hf|]. specialize (Hl w).
  destruct (m w) as [[st|c'| |] w']; try discriminate. exact Hl.
Qed.

Lemma host_eof_status ev st w :
  w_stdin w = [] -> fst (host_readable IFCONFIG k ev sc st w) = Exit 0.
Proof.
  intros Hs. unfold host_readable, bufread, sys_read.
  unfold bind at 1. unfold bind at 1. cbn [Z.eqb]. rewrite Hs.
  cbn -[slip_stop]. unfold bind at 1.
  rewrite (stop_exit_run IFCONFIG k sc down stop_ok stop_fits). reflexivity.
Qed.

Lemma link_read_error_status ev st w s :
  w_link w = Fault :: s -> fst (link_readable IFCONFIG k ev sc st w) = Exit 1.
Proof.
  intros Hs. unfold link_readable, bufread, sys_read.
  unfold bind at 1. unfold bind at 1.
  replace (sc_masterfd sc =? 0) with false by (symmetry; apply Z.eqb_neq; lia).
  replace (sc_masterfd sc =? k_getpt k) with true
    by (symmetry; apply Z.eqb_eq; exact master_pty).
  rewrite Hs. cbn -[slip_stop].
  rewrite (stop_exit_run IFCONFIG k sc down stop_ok stop_fits). reflexivity.
Qed.

Lemma link_write_error_status ev st w :
  in_data (stdinbuf st) = true ->
  accepted (ev_accept_link ev) (pending (stdinbuf st)) <= 0 ->
  fst (link_writable IFCONFIG k ev sc st w) = Exit 1.
Proof.
  intros Hin Hr. unfold link_writable, bufwrite, sys_write. rewrite Hin.
  unfold bind at 1. unfold bind at 1.
  replace (sc_masterfd sc =? 1) with false by (symmetry; apply Z.eqb_neq; lia).
  replace (sc_masterfd sc =? k_getpt k) with true
    by (symmetry; apply Z.eqb_eq; exact master_pty).
  apply Z.leb_le in Hr. rewrite Hr. cbn -[slip_stop].
  rewrite (stop_exit_run IFCONFIG k sc down stop_ok stop_fits). reflexivity.
Qed.


End Exits.


(** * Further properties of the functions *)

(** ** readline *)

(** How the loop of [readline] stopped: after a newline, at the length
    asked for, on a failed read or at the end of the stream. *)
Definition readline_stop (len : Z) (cs : list ascii) (fail rest : stream)
  : Prop :=
  (exists cs', cs = cs' ++ [NL]) /\ fail = []
  \/ Z.of_nat (List.length cs) = len /\ fail = []
  \/ fail = [Fault]
  \/ fail = [] /\ rest = [].

Lemma readline_from_consumes s :
  forall pre post len,
    Z.of_nat (List.length pre) < len ->
    len <= Z.of_nat (List.length pre + List.length post) ->
    exists cs fail s',
      readline_from s (pre ++ post) (Z.of_nat (List.length pre)) len
      = (Some (Z.of_nat (List.length pre + List.length cs),
               pre ++ cs ++ skipn (List.length cs) post), s') /\
      s = map Data cs ++ fail ++ s' /\
      ~ In NL (removelast cs) /\
      Z.of_nat (List.length pre + List.length cs) <= len /\
      readline_stop (len - Z.of_nat (List.length pre)) cs fail s'.
Proof.
  induction s as [|[c|] s IH]; intros pre post len Hn Hlen.
  - exists [], [], []. cbn. rewrite Nat.add_0_r.
    repeat split; auto; try lia. right; right; right. auto.
  - destruct post as [|x post]; [cbn in Hlen; lia|].
    cbn [readline_from]. rewrite store_middle.
    destruct (negb (Ascii.eqb c NL) && (Z.of_nat (List.length pre) + 1 <? len))
      eqn:E.
    + apply andb_true_iff in E. destruct E as [Ec En].
      apply negb_true_iff, Ascii.eqb_neq in Ec. apply Z.ltb_lt in En.
      destruct (IH (pre ++ [c]) post len) as (cs & fail & s' & Hr & Hs & Hnl & Hb & Hstop).
      { rewrite length_app. cbn. lia. }
      { rewrite length_app. cbn [List.length] in *. lia. }
      exists (c :: cs), fail, s'.
      rewrite length_app in Hr, Hb, Hstop. cbn [List.length] in Hr, Hb, Hstop |- *.
      replace (Z.of_nat (List.length pre) + 1)
        with (Z.of_nat (List.length pre + 1)) by lia.
      rewrite <- !app_assoc in Hr. cbn [app] in Hr. rewrite Hr.
      split; [f_equal; f_equal; f_equal; lia|].
      split; [cbn; rewrite Hs; reflexivity|].
      split.
      { destruct cs as [|c' cs]; [cbn; tauto|].
        change (removelast (c :: c' :: cs)) with (c :: removelast (c' :: cs)).
        intros [H|H]; [congruence | tauto]. }
      split; [lia|].
      unfold readline_stop in *. cbn [List.length].
      destruct Hstop as [([cs' ->] & ->) | [(Hl & ->) | [-> | (-> & ->)]]].
      * left. split; [exists (c :: cs'); reflexivity | reflexivity].
      * right; left. split; [lia | reflexivity].
      * right; right; left. reflexivity.
      * right; right; right. auto.
    + exists [c], [], s. cbn [List.length skipn map app removelast].
      split; [f_equal; f_equal; f_equal; lia|]. split; [reflexivity|].
      split; [tauto|]. split; [lia|].
      unfold readline_stop. cbn [List.length].
      apply andb_false_iff in E. destruct E as [E|E].
      * left. apply negb_false_iff, Ascii.eqb_eq in E. subst c.
        split; [exists []; reflexivity | reflexivity].
      * right; left. apply Z.ltb_ge in E. split; [lia | reflexivity].
  - exists [], [Fault], s. cbn. rewrite Nat.add_0_r.
    repeat split; auto; try lia. right; right; left. reflexivity.
Qed.

(** X1. [readline] on descriptor 0 with a buffer of at least [len] > 0
    characters always returns.  The characters it stored are exactly the
    ones it consumed, in order, at the start of the buffer, and the rest of
    the buffer is as before; a newline is stored only last; it stops after
    a newline, after [len] characters, at a failed read (which is consumed)
    or at the end of the stream. *)
Theorem readline_consumes_what_it_stores buf len w :
  0 < len -> len <= sizeof buf ->
  exists cs fail rest,
    readline 0 buf len w
    = (Ret (Z.of_nat (List.length cs), cs ++ skipn (List.length cs) buf),
       set_stdin rest w) /\
    w_stdin w = map Data cs ++ fail ++ rest /\
    ~ In NL (removelast cs) /\
    Z.of_nat (List.length cs) <= len /\
    readline_stop len cs fail rest.
Proof.
  intros Hpos Hlen. unfold readline.
  replace (len =? 0) with false by (symmetry; apply Z.eqb_neq; lia).
  cbn [Z.eqb].
  destruct (readline_from_consumes (w_stdin w) [] buf len)
    as (cs & fail & s' & Hr & Hs & Hnl & Hb & Hstop).
  { cbn. lia. }
  { unfold sizeof in Hlen. cbn. lia. }
  cbn in Hr, Hb, Hstop. rewrite Z.sub_0_r in Hstop.
  exists cs, fail, s'. rewrite Hr. auto.
Qed.

Lemma readline_consumes_what_it_stores_witness :
  exists cs fail rest,
    readline 0 (frame_array sample_kernel 128 64) 64 (boot sample_kernel)
    = (Ret (Z.of_nat (List.length cs),
            cs ++ skipn (List.length cs) (frame_array sample_kernel 128 64)),
       set_stdin rest (boot sample_kernel)) /\
    w_stdin (boot sample_kernel) = map Data cs ++ fail ++ rest /\
    ~ In NL (removelast cs) /\
    Z.of_nat (List.length cs) <= 64 /\
    readline_stop 64 cs fail rest.
Proof.
  apply (readline_consumes_what_it_stores (frame_array sample_kernel 128 64) 64
           (boot sample_kernel)).
  - lia.
  - vm_compute. discriminate.
Defined.



(** ** The configuration reader *)

Fixpoint no_space (s : string) : bool :=
  match s with
  | EmptyString => true
  | String c s' => negb (isspace c) && no_space s'
  end.

(** What [%<width>s] stores: at least one character, at most [width], none
    of them white space or NUL. *)
Definition word (width : nat) (s : string) : Prop :=
  s <> EmptyString /\ (String.length s <= width)%nat /\
  no_space s = true /\ nul_free s = true.

(** An entry as [getcfgentry] returns it. *)
Definition record_ok (c : cfgentry) : Prop :=
  word 127 (cfg_username c) /\ word 63 (cfg_remoteip c) /\
  word 63 (cfg_localip c) /\
  (cfg_script c = EmptyString \/ word 255 (cfg_script c)) /\
  first_char (cfg_username c) <> "#"%char.

Lemma skip_space_head s c s1 :
  skip_space s = String c s1 -> isspace c = false.
Proof.
  induction s as [|d s IH]; simpl; [discriminate|].
  destruct (isspace d) eqn:E; [exact IH|].
  intros H. inversion H; subst. exact E.
Qed.

Lemma scan_word_no_space width :
  forall s x r, scan_word width s = (x, r) -> no_space x = true.
Proof.
  induction width as [|w IH]; intros s x r; simpl.
  - destruct s; intros H; inversion H; reflexivity.
  - destruct s as [|c s']; [intros H; inversion H; reflexivity|].
    destruct (isspace c) eqn:E; [intros H; inversion H; reflexivity|].
    destruct (scan_word w s') as [x' r'] eqn:Es.
    intros H; inversion H; subst. simpl. rewrite E. simpl. eauto.
Qed.

Lemma conv_s_word width s x r :
  conv_s (S width) s = Some (x, r) -> nul_free s = true ->
  word (S width) x /\ nul_free r = true.
Proof.
  intros H Hs.
  destruct (conv_s_ok _ _ _ _ H Hs) as [[Hf Hl] Hr].
  split; [|exact Hr]. unfold conv_s in H.
  destruct (skip_space s) as [|c s1] eqn:E; [discriminate|].
  pose proof (skip_space_head _ _ _ E) as Hc.
  injection H as H1.
  pose proof (scan_word_no_space (S width) (String c s1) x r H1) as Hn.
  simpl in H1. rewrite Hc in H1.
  destruct (scan_word width s1) as [x' r']. inversion H1; subst.
  repeat split; auto. discriminate.
Qed.

Lemma sscanf_cfg_fields line cfg r cfg' :
  sscanf_cfg line cfg = (r, cfg') ->
  nul_free line = true -> 3 <= r ->
  word 127 (cfg_username cfg') /\ word 63 (cfg_remoteip cfg') /\
  word 63 (cfg_localip cfg') /\
  (cfg_script cfg' = cfg_script cfg \/ word 255 (cfg_script cfg')).
Proof.
  unfold sscanf_cfg. intros H Hl Hr.
  destruct (conv_s 127 line) as [[u s1]|] eqn:E1; [|inversion H; lia].
  destruct (conv_s_word _ _ _ _ E1 Hl) as [Hu H1].
  destruct (conv_s 63 (skip_space s1)) as [[ri s2]|] eqn:E2; [|inversion H; lia].
  destruct (conv_s_word _ _ _ _ E2 (skip_space_free _ H1)) as [Hri H2].
  destruct (conv_s 63 (skip_space s2)) as [[l s3]|] eqn:E3; [|inversion H; lia].
  destruct (conv_s_word _ _ _ _ E3 (skip_space_free _ H2)) as [Hloc H3].
  destruct (conv_s 255 (skip_space s3)) as [[scr s4]|] eqn:E4.
  - destruct (conv_s_word _ _ _ _ E4 (skip_space_free _ H3)) as [Hscr _].
    inversion H; subst. simpl. auto.
  - inversion H; subst. simpl. auto.
Qed.

Lemma getcfgentry_lines_fields fp :
  forall cfg c rest, getcfgentry_lines fp cfg = Some (c, rest) -> record_ok c.
Proof.
  induction fp as [fp IH] using (well_founded_induction
    (Wf_nat.well_founded_ltof _ String.length)).
  intros cfg c rest. rewrite getcfgentry_lines_step.
  destruct (fgets 1024 fp) as [[l r]|] eqn:E; [|discriminate].
  apply fgets_shorter in E.
  destruct (sscanf_cfg _ _) as [n c1] eqn:Es.
  destruct (3 <=? n) eqn:En; simpl.
  - destruct (Ascii.eqb (first_char (cfg_username c1)) "#") eqn:Eh; simpl.
    + intros H. eapply IH; eauto.
    + intros H; inversion H; subst.
      apply Z.leb_le in En.
      destruct (sscanf_cfg_fields _ _ _ _ Es (until_nul_free l) En)
        as (Hu & Hr & Hl & Hs).
      split; [exact Hu|]. split; [exact Hr|]. split; [exact Hl|].
      split; [exact Hs|]. apply Ascii.eqb_neq. exact Eh.
  - intros H. eapply IH; eauto.
Qed.

(** X3. Every entry [getcfgentry] returns has an identity that does not
    start with [#] and three mandatory fields that are non-empty words
    without white space; each field, the script included, is short enough
    for its array of [cfgentry] with the terminator (127, 63, 63 and 255
    characters), and the script is empty when the line had three fields. *)
Theorem getcfgentry_returns_record k cfg w c w' :
  getcfgentry k cfg w = (Ret (Some c), w') -> record_ok c.
Proof.
  unfold getcfgentry.
  destruct (cfg_stream k w) as [fp|]; [|discriminate].
  destruct (getcfgentry_lines fp cfg) as [[c' rest]|] eqn:E; [|discriminate].
  intros H. inversion H; subst. eapply getcfgentry_lines_fields; eauto.
Qed.

Lemma getcfgentry_returns_record_witness :
  record_ok {| cfg_username := "bob"; cfg_remoteip := "10.0.0.2";
               cfg_localip := "10.0.0.9"; cfg_script := "" |}.
Proof.
  apply (getcfgentry_returns_record sample_kernel no_cfg (boot sample_kernel)
           {| cfg_username := "bob"; cfg_remoteip := "10.0.0.2";
              cfg_localip := "10.0.0.9"; cfg_script := "" |}
           (set_fp (Some (line "alice 10.0.0.2 10.0.0.1 /etc/vmnet/up.sh"
                          ++ line "alice 10.0.0.2 10.0.0.7")%string)
              (boot sample_kernel))).
  vm_compute. reflexivity.
Defined.

(** *** What the entry held before the call *)

Lemma sscanf_cfg_fresh line c1 c2 :
  cfg_script c1 = cfg_script c2 ->
  fst (sscanf_cfg line c1) = fst (sscanf_cfg line c2) /\
  (3 <= fst (sscanf_cfg line c1) ->
   snd (sscanf_cfg line c1) = snd (sscanf_cfg line c2)).
Proof.
  intros Hs. unfold sscanf_cfg.
  destruct (conv_s 127 line) as [[u s1]|]; [|simpl; split; [reflexivity | lia]].
  destruct (conv_s 63 (skip_space s1)) as [[ri s2]|];
    [|simpl; split; [reflexivity | lia]].
  destruct (conv_s 63 (skip_space s2)) as [[l s3]|];
    [|simpl; split; [reflexivity | lia]].
  destruct (conv_s 255 (skip_space s3)) as [[scr s4]|]; simpl;
    (split; [reflexivity|]); intros _;
    unfold set_cfg_script, set_cfg_localip, set_cfg_remoteip, set_cfg_username;
    simpl; congruence.
Qed.

Lemma getcfgentry_lines_fresh fp :
  forall c1 c2, getcfgentry_lines fp c1 = getcfgentry_lines fp c2.
Proof.
  induction fp as [fp IH] using (well_founded_induction
    (Wf_nat.well_founded_ltof _ String.length)).
  intros c1 c2. rewrite (getcfgentry_lines_step fp c1), (getcfgentry_lines_step fp c2).
  destruct (fgets 1024 fp) as [[l r]|] eqn:E; [|reflexivity].
  apply fgets_shorter in E.
  destruct (sscanf_cfg_fresh (until_nul l) (set_cfg_script EmptyString c1)
              (set_cfg_script EmptyString c2) eq_refl) as [Hr Hc].
  destruct (sscanf_cfg (until_nul l) (set_cfg_script EmptyString c1)) as [n1 d1].
  destruct (sscanf_cfg (until_nul l) (set_cfg_script EmptyString c2)) as [n2 d2].
  cbn [fst snd] in Hr, Hc. subst n2.
  destruct (3 <=? n1) eqn:En; cbn [andb].
  - apply Z.leb_le in En. rewrite (Hc En).
    destruct (negb _); [reflexivity|]. apply IH. exact E.
  - apply IH. exact E.
Qed.

Lemma getcfgbyid_lines_fresh fp :
  forall c1 c2 u r, getcfgbyid_lines fp c1 u r = getcfgbyid_lines fp c2 u r.
Proof.
  intros c1 c2 u r.
  rewrite (getcfgbyid_lines_step fp c1), (getcfgbyid_lines_step fp c2).
  rewrite (getcfgentry_lines_fresh fp c1 c2). reflexivity.
Qed.

Lemma records_fresh fp c1 c2 : records fp c1 = records fp c2.
Proof.
  rewrite (records_step fp c1), (records_step fp c2).
  rewrite (getcfgentry_lines_fresh fp c1 c2). reflexivity.
Qed.

(** X4. What [getcfgentry] and [getcfgbyid] return, and where they leave
    the file, does not depend on the strings the entry held before the
    call: fields of an earlier line, or of a line that was skipped, never
    show in the entry returned. *)
Theorem getcfgentry_overwrites_entry k c1 c2 username remoteip w :
  getcfgentry k c1 w = getcfgentry k c2 w /\
  getcfgbyid k c1 username remoteip w = getcfgbyid k c2 username remoteip w.
Proof.
  unfold getcfgentry, getcfgbyid.
  destruct (cfg_stream k w) as [fp|]; [|split; reflexivity].
  rewrite (getcfgentry_lines_fresh fp c1 c2).
  rewrite (getcfgbyid_lines_fresh fp c1 c2). split; reflexivity.
Qed.

(** *** Where [getcfgbyid] leaves the file *)

Lemma getcfgbyid_lines_rest fp :
  forall cfg username remoteip c rest,
    getcfgbyid_lines fp cfg username remoteip = Some (c, rest) ->
    exists before,
      records fp cfg = before ++ c :: records rest c /\
      matches username remoteip c = true /\
      Forall (fun c' => matches username remoteip c' = false) before.
Proof.
  induction fp as [fp IH] using (well_founded_induction
    (Wf_nat.well_founded_ltof _ String.length)).
  intros cfg username remoteip c rest.
  rewrite getcfgbyid_lines_step, records_step.
  destruct (getcfgentry_lines fp cfg) as [[c1 r1]|] eqn:E; [|discriminate].
  apply getcfgentry_lines_shorter in E.
  destruct (matches username remoteip c1) eqn:Em.
  - intros H; inversion H; subst. exists []. auto.
  - intros H. destruct (IH r1 E _ _ _ _ _ H) as (before & Hrec & Hm & Hb).
    exists (c1 :: before). rewrite Hrec. auto.
Qed.

(** X5. [getcfgbyid] keeps the file open after a match and closes it after
    a miss.  So a second call with the same arguments returns the next
    matching record, the first one after the record returned before, or
    NULL when there is none; and after a miss the file is read again from
    its start, with the same result. *)
Theorem getcfgbyid_keeps_place k store cfg cfg2 username remoteip w :
  k_config k = Some store ->
  w_fp w = None ->
  match getcfgbyid k cfg username remoteip w with
  | (Ret (Some c), w1) =>
      exists before after,
        records store cfg = before ++ c :: after /\
        Forall (fun c' =>
                  ~ (cfg_username c' = username /\ cfg_remoteip c' = remoteip))
          before /\
        match fst (getcfgbyid k cfg2 username remoteip w1) with
        | Ret (Some c2) => first_match username remoteip after c2
        | Ret None =>
            Forall (fun c' =>
                      ~ (cfg_username c' = username /\ cfg_remoteip c' = remoteip))
              after
        | _ => False
        end
  | (Ret None, w1) =>
      w_fp w1 = None /\
      getcfgbyid k cfg2 username remoteip w1 = (Ret None, w1)
  | _ => False
  end.
Proof.
  intros Hk Hw. unfold getcfgbyid at 1. unfold cfg_stream. rewrite Hw, Hk.
  destruct (getcfgbyid_lines store cfg username remoteip) as [[c rest]|] eqn:E.
  - destruct (getcfgbyid_lines_rest _ _ _ _ _ _ E) as (before & Hrec & Hm & Hb).
    exists before, (records rest c). split; [exact Hrec|].
    split; [eapply Forall_impl; [|exact Hb]; intros a; apply matches_false|].
    unfold getcfgbyid, cfg_stream. cbn [w_fp set_fp].
    rewrite (getcfgbyid_lines_fresh rest cfg2 c).
    pose proof (getcfgbyid_lines_first rest c username remoteip) as H.
    destruct (getcfgbyid_lines rest c username remoteip) as [[c2 rest2]|];
      cbn [fst].
    + destruct H as (b2 & a2 & Hl & Hp & Hb2). exists b2, a2.
      split; [exact Hl|]. split; [apply matches_spec; exact Hp|].
      eapply Forall_impl; [|exact Hb2]. intros a. apply matches_false.
    + eapply Forall_impl; [|exact H]. intros a. apply matches_false.
  - split; [reflexivity|].
    unfold getcfgbyid, cfg_stream. cbn [w_fp set_fp]. rewrite Hk.
    rewrite (getcfgbyid_lines_fresh store cfg2 cfg), E. reflexivity.
Qed.

Lemma getcfgbyid_keeps_place_witness :
  exists before after,
    records sample_store no_cfg
    = before ++ {| cfg_username := "alice"; cfg_remoteip := "10.0.0.2";
                   cfg_localip := "10.0.0.1";
                   cfg_script := "/etc/vmnet/up.sh" |} :: after /\
    Forall (fun c' =>
              ~ (cfg_username c' = "alice"%string
                 /\ cfg_remoteip c' = "10.0.0.2"%string)) before /\
    first_match "alice" "10.0.0.2" after
      {| cfg_username := "alice"; cfg_remoteip := "10.0.0.2";
         cfg_localip := "10.0.0.7"; cfg_script := "" |}.
Proof.
  exact (getcfgbyid_keeps_place sample_kernel sample_store no_cfg no_cfg
           "alice" "10.0.0.2" (boot sample_kernel) eq_refl eq_refl).
Defined.

(** *** Reading back a store *)

(** A line of the store for an entry: the fields separated by one blank,
    the script left out when it is empty. *)
Definition render_entry (c : cfgentry) : string :=
  (cfg_username c ++ " " ++ cfg_remoteip c ++ " " ++ cfg_localip c
   ++ match cfg_script c with
      | EmptyString => EmptyString
      | s => " " ++ s
      end ++ String NL EmptyString)%string.

Fixpoint render (l : list cfgentry) : string :=
  match l with
  | [] => EmptyString
  | c :: l' => (render_entry c ++ render l')%string
  end.

Fixpoint no_nl (s : string) : bool :=
  match s with
  | EmptyString => true
  | String c s' => negb (Ascii.eqb c NL) && no_nl s'
  end.

Lemma string_app_assoc (a b c : string) :
  ((a ++ b) ++ c = a ++ b ++ c)%string.
Proof. induction a as [|x a IH]; simpl; [reflexivity | rewrite IH; reflexivity]. Qed.

Lemma no_nl_app a b : no_nl (a ++ b) = no_nl a && no_nl b.
Proof.
  induction a as [|c a IH]; simpl; [reflexivity|].
  rewrite IH, andb_assoc. reflexivity.
Qed.

Lemma nul_free_app a b : nul_free (a ++ b) = nul_free a && nul_free b.
Proof.
  induction a as [|c a IH]; simpl; [reflexivity|].
  rewrite IH, andb_assoc. reflexivity.
Qed.

Lemma isspace_NL c : isspace c = false -> Ascii.eqb c NL = false.
Proof.
  intros H. destruct (Ascii.eqb c NL) eqn:E; [|reflexivity].
  apply Ascii.eqb_eq in E. subst c. discriminate H.
Qed.

Lemma no_space_no_nl s : no_space s = true -> no_nl s = true.
Proof.
  induction s as [|c s IH]; simpl; [reflexivity|].
  intros H. apply andb_true_iff in H. destruct H as [Hc Hs].
  apply negb_true_iff in Hc. rewrite (isspace_NL c Hc), (IH Hs). reflexivity.
Qed.

(** [fgets] returns a line that fits, with its newline. *)
Lemma fgets_chars_line body :
  forall n rest,
    no_nl body = true -> (String.length body < n)%nat ->
    fgets_chars n (body ++ String NL rest)
    = ((body ++ String NL EmptyString)%string, rest).
Proof.
  induction body as [|c body IH]; intros n rest Hnl Hn.
  - destruct n as [|n]; [simpl in Hn; lia|]. reflexivity.
  - destruct n as [|n]; [simpl in Hn; lia|]. simpl in Hnl, Hn |- *.
    apply andb_true_iff in Hnl. destruct Hnl as [Hc Hb].
    apply negb_true_iff in Hc. rewrite Hc.
    rewrite (IH n rest Hb ltac:(lia)). reflexivity.
Qed.

Lemma fgets_line body rest :
  no_nl body = true -> (String.length body < 1023)%nat ->
  fgets 1024 (body ++ String NL rest)
  = Some ((body ++ String NL EmptyString)%string, rest).
Proof.
  intros Hnl Hn. unfold fgets.
  change (1024 - 1)%nat with 1023%nat.
  rewrite <- (fgets_chars_line body 1023 rest Hnl Hn).
  destruct body; reflexivity.
Qed.

Lemma until_nul_id s : nul_free s = true -> until_nul s = s.
Proof.
  induction s as [|c s IH]; simpl; [reflexivity|].
  intros H. apply andb_true_iff in H. destruct H as [Hc Hs].
  apply negb_true_iff in Hc. rewrite Hc, (IH Hs). reflexivity.
Qed.

(** [%<width>s] on a word that is followed by white space. *)
Lemma scan_word_exact x :
  forall width sp t,
    no_space x = true -> (String.length x <= width)%nat ->
    isspace sp = true ->
    scan_word width (x ++ String sp t) = (x, String sp t).
Proof.
  induction x as [|c x IH]; intros width sp t Hx Hl Hsp.
  - cbn [String.append]. destruct width; [reflexivity|].
    cbn [scan_word]. rewrite Hsp. reflexivity.
  - destruct width as [|w]; [simpl in Hl; lia|].
    cbn [no_space String.length String.append scan_word] in Hx, Hl |- *.
    apply andb_true_iff in Hx. destruct Hx as [Hc Hx].
    apply negb_true_iff in Hc. rewrite Hc.
    rewrite (IH w sp t Hx ltac:(lia) Hsp). reflexivity.
Qed.

Lemma skip_space_word x t :
  x <> EmptyString -> no_space x = true -> skip_space (x ++ t) = (x ++ t)%string.
Proof.
  destruct x as [|c x]; [congruence|]. simpl. intros _ H.
  apply andb_true_iff in H. destruct H as [Hc _].
  apply negb_true_iff in Hc. rewrite Hc. reflexivity.
Qed.

Lemma conv_s_exact width x sp t :
  word width x -> isspace sp = true ->
  conv_s width (x ++ String sp t) = Some (x, String sp t).
Proof.
  intros (Hne & Hl & Hs & _) Hsp. unfold conv_s.
  rewrite (skip_space_word x _ Hne Hs).
  rewrite <- (scan_word_exact x width sp t Hs Hl Hsp).
  destruct x; [congruence | reflexivity].
Qed.

Lemma skip_blank_word x t :
  x <> EmptyString -> no_space x = true ->
  skip_space (String " " (x ++ t)) = (x ++ t)%string.
Proof. intros Hne Hs. simpl. apply skip_space_word; assumption. Qed.

Lemma sscanf_cfg_render c cfg :
  record_ok c -> cfg_script cfg = EmptyString ->
  exists r, sscanf_cfg (render_entry c) cfg = (r, c) /\ 3 <= r.
Proof.
  intros (Hu & Hr & Hl & Hs & _) Hcfg.
  destruct c as [u r l s]. cbn [cfg_username cfg_remoteip cfg_localip cfg_script] in *.
  unfold render_entry. cbn [cfg_username cfg_remoteip cfg_localip cfg_script].
  unfold sscanf_cfg.
  change (u ++ " " ++ ?t)%string with (u ++ String " " t)%string.
  rewrite (conv_s_exact 127 u " " _ Hu eq_refl).
  change (r ++ " " ++ ?t)%string with (r ++ String " " t)%string.
  destruct Hr as (Hr1 & Hr2 & Hr3 & Hr4).
  rewrite (skip_blank_word r _ Hr1 Hr3).
  rewrite (conv_s_exact 63 r " " _ (conj Hr1 (conj Hr2 (conj Hr3 Hr4))) eq_refl).
  destruct Hl as (Hl1 & Hl2 & Hl3 & Hl4).
  destruct s as [|c0 s0].
  - cbn [String.append].
    rewrite (skip_blank_word l _ Hl1 Hl3).
    rewrite (conv_s_exact 63 l NL _ (conj Hl1 (conj Hl2 (conj Hl3 Hl4))) eq_refl).
    cbn. exists 3. split; [|lia]. destruct cfg; cbn in *; subst; reflexivity.
  - destruct Hs as [Hs | Hs]; [discriminate|].
    change (l ++ (" " ++ String c0 s0) ++ String NL EmptyString)%string
      with (l ++ String " " (String c0 s0 ++ String NL EmptyString))%string.
    rewrite (skip_blank_word l _ Hl1 Hl3).
    rewrite (conv_s_exact 63 l " " _ (conj Hl1 (conj Hl2 (conj Hl3 Hl4))) eq_refl).
    destruct Hs as (Hs1 & Hs2 & Hs3 & Hs4).
    rewrite (skip_blank_word (String c0 s0) _ Hs1 Hs3).
    rewrite (conv_s_exact 255 (String c0 s0) NL _
               (conj Hs1 (conj Hs2 (conj Hs3 Hs4))) eq_refl).
    exists 4. split; [reflexivity | lia].
Qed.

(** The line of an entry without its newline. *)
Definition render_body (c : cfgentry) : string :=
  (cfg_username c ++ " " ++ cfg_remoteip c ++ " " ++ cfg_localip c
   ++ match cfg_script c with
      | EmptyString => EmptyString
      | s => " " ++ s
      end)%string.

Lemma render_entry_body c :
  render_entry c = (render_body c ++ String NL EmptyString)%string.
Proof.
  unfold render_entry, render_body.
  rewrite !string_app_assoc. reflexivity.
Qed.

Lemma render_body_ok c :
  record_ok c ->
  no_nl (render_body c) = true /\ nul_free (render_body c) = true /\
  (String.length (render_body c) < 1023)%nat.
Proof.
  intros ((_ & Hu2 & Hu3 & Hu4) & (_ & Hr2 & Hr3 & Hr4) & (_ & Hl2 & Hl3 & Hl4)
          & Hs & _).
  unfold render_body.
  assert (Hopt :
    no_nl (match cfg_script c with
           | EmptyString => EmptyString
           | s => " " ++ s
           end)%string = true /\
    nul_free (match cfg_script c with
              | EmptyString => EmptyString
              | s => " " ++ s
              end)%string = true /\
    (String.length (match cfg_script c with
                    | EmptyString => EmptyString
                    | s => " " ++ s
                    end)%string <= 256)%nat).
  { destruct (cfg_script c) as [|c0 s0] eqn:Es; [simpl; auto with arith|].
    destruct Hs as [Hs | (_ & Hs2 & Hs3 & Hs4)]; [discriminate|].
    remember (String c0 s0) as s eqn:Eqs.
    change (" " ++ s)%string with (String " " s).
    cbn [no_nl nul_free String.length].
    rewrite (no_space_no_nl _ Hs3), Hs4.
    repeat split. lia. }
  destruct Hopt as (Ho1 & Ho2 & Ho3).
  rewrite !no_nl_app, !nul_free_app, !string_length_app.
  rewrite (no_space_no_nl _ Hu3), (no_space_no_nl _ Hr3), (no_space_no_nl _ Hl3).
  rewrite Hu4, Hr4, Hl4, Ho1, Ho2.
  split; [reflexivity|]. split; [reflexivity|].
  change (String.length " ") with 1%nat. lia.
Qed.

Lemma getcfgentry_lines_render c rest cfg :
  record_ok c ->
  getcfgentry_lines (render_entry c ++ rest) cfg = Some (c, rest).
Proof.
  intros Hc. rewrite getcfgentry_lines_step.
  destruct (render_body_ok c Hc) as (Hnl & Hnf & Hlen).
  rewrite render_entry_body, string_app_assoc.
  cbn [String.append]. rewrite (fgets_line _ rest Hnl Hlen).
  rewrite until_nul_id by (rewrite nul_free_app, Hnf; reflexivity).
  rewrite <- render_entry_body.
  destruct (sscanf_cfg_render c (set_cfg_script EmptyString cfg) Hc eq_refl)
    as (r & -> & Hr).
  apply Z.leb_le in Hr. rewrite Hr.
  destruct Hc as (_ & _ & _ & _ & Hh). apply Ascii.eqb_neq in Hh. rewrite Hh.
  reflexivity.
Qed.

(** X6. A store written one line per entry in the format of the
    [sscanf], from entries as [getcfgentry] returns them (words within the
    field widths, an identity that does not start with [#]), is read back
    by successive calls of [getcfgentry] as the same entries in the same
    order, whatever the entry held before. *)
Theorem records_of_rendered_store l :
  Forall record_ok l -> forall cfg, records (render l) cfg = l.
Proof.
  induction 1 as [|c l Hc Hl IH]; intros cfg.
  - rewrite records_step, getcfgentry_lines_step. reflexivity.
  - cbn [render]. rewrite records_step.
    rewrite (getcfgentry_lines_render c (render l) cfg Hc).
    rewrite IH. reflexivity.
Qed.

Definition sample_entries : list cfgentry :=
  [ {| cfg_username := "bob"; cfg_remoteip := "10.0.0.2";
       cfg_localip := "10.0.0.9"; cfg_script := "" |};
    {| cfg_username := "alice"; cfg_remoteip := "10.0.0.2";
       cfg_localip := "10.0.0.1"; cfg_script := "/etc/vmnet/up.sh" |} ].

Ltac word_holds :=
  split; [discriminate | split; [cbn; lia | split; reflexivity]].

Lemma records_of_rendered_store_witness :
  records (render sample_entries) no_cfg = sample_entries.
Proof.
  apply (records_of_rendered_store sample_entries).
  constructor; [|constructor; [|constructor]].
  - split; [word_holds|]. split; [word_holds|]. split; [word_holds|].
    split; [left; reflexivity | discriminate].
  - split; [word_holds|]. split; [word_holds|]. split; [word_holds|].
    split; [right; word_holds | discriminate].
Defined.

(** *** Comment lines *)

Lemma scan_word_hash s :
  exists x r, scan_word 127 (String "#" s) = (String "#"%char x, r).
Proof.
  change (scan_word 127 (String "#" s))
    with (let (x, r) := scan_word 126 s in (String "#"%char x, r)).
  destruct (scan_word 126 s) as [x r]. eauto.
Qed.

Lemma sscanf_cfg_comment s cfg :
  (3 <=? fst (sscanf_cfg (String "#" s) cfg))
  && negb (Ascii.eqb (first_char (cfg_username (snd (sscanf_cfg (String "#" s) cfg))))
             "#")
  = false.
Proof.
  unfold sscanf_cfg, conv_s.
  change (skip_space (String "#" s)) with (String "#" s). cbv iota.
  destruct (scan_word_hash s) as (x & r1 & ->).
  destruct (skip_space (skip_space r1)) as [|c1 t1]; [reflexivity|].
  destruct (scan_word 63 (String c1 t1)) as [ri r2].
  destruct (skip_space (skip_space r2)) as [|c2 t2]; [reflexivity|].
  destruct (scan_word 63 (String c2 t2)) as [l r3].
  destruct (skip_space (skip_space r3)) as [|c3 t3];
    [|destruct (scan_word 255 (String c3 t3)) as [sc r4]];
    reflexivity.
Qed.

Lemma until_nul_comment s : until_nul (String "#" s) = String "#" (until_nul s).
Proof. reflexivity. Qed.

(** X7. A line that starts with [#] and fits the line buffer of
    [getcfgentry] is skipped, whatever follows the [#] on it: the records
    of the store are those of the lines after it. *)
Theorem comment_line_skipped text rest cfg :
  no_nl text = true -> (String.length text < 1022)%nat ->
  records (String "#" text ++ String NL rest) cfg = records rest cfg.
Proof.
  intros Hnl Hlen.
  rewrite (records_step _ cfg), getcfgentry_lines_step.
  rewrite (fgets_line (String "#" text) rest);
    [|simpl; exact Hnl | simpl; lia].
  cbn [String.append]. rewrite until_nul_comment.
  pose proof (sscanf_cfg_comment (until_nul (text ++ String NL EmptyString))
                (set_cfg_script EmptyString cfg)) as H.
  destruct (sscanf_cfg _ _) as [r c']. cbn [fst snd] in H. rewrite H.
  rewrite <- records_step. apply records_fresh.
Qed.

Lemma comment_line_skipped_witness :
  records (String "#" " identity remote local script"
           ++ String NL (line "bob 10.0.0.2 10.0.0.9")) no_cfg
  = records (line "bob 10.0.0.2 10.0.0.9") no_cfg.
Proof.
  apply (comment_line_skipped " identity remote local script"
           (line "bob 10.0.0.2 10.0.0.9") no_cfg).
  - reflexivity.
  - cbn. lia.
Defined.

(** *** Lines longer than the line buffer *)

(** [fgets] on a line that does not fit: it returns what fits, without a
    newline, and leaves the rest of the line to be read next. *)
Lemma fgets_chars_full body :
  forall rest,
    no_nl body = true ->
    fgets_chars (String.length body) (body ++ rest) = (body, rest).
Proof.
  induction body as [|c body IH]; intros rest Hnl.
  - reflexivity.
  - cbn [String.length String.append fgets_chars no_nl] in Hnl |- *.
    apply andb_true_iff in Hnl. destruct Hnl as [Hc Hb].
    apply negb_true_iff in Hc. rewrite Hc, (IH rest Hb). reflexivity.
Qed.

(** X8. Of a comment line longer than the line buffer only the first
    1023 characters are skipped: what follows them on the line is read as
    a line of its own, and is returned as an entry if it has the fields of
    one. *)
Theorem long_comment_line_is_split text rest cfg :
  no_nl text = true -> String.length text = 1022%nat ->
  records (String "#" text ++ rest) cfg = records rest cfg.
Proof.
  intros Hnl Hlen.
  rewrite (records_step _ cfg), getcfgentry_lines_step.
  assert (Hf : fgets 1024 (String "#" text ++ rest)
               = Some (String "#" text, rest)).
  { unfold fgets. cbn [String.append].
    change (1024 - 1)%nat with 1023%nat.
    replace 1023%nat with (String.length (String "#" text))
      by (cbn [String.length]; lia).
    rewrite <- (fgets_chars_full (String "#" text) rest); [reflexivity|].
    cbn [no_nl]. rewrite Hnl. reflexivity. }
  rewrite Hf. rewrite until_nul_comment.
  pose proof (sscanf_cfg_comment (until_nul text)
                (set_cfg_script EmptyString cfg)) as H.
  destruct (sscanf_cfg _ _) as [r c']. cbn [fst snd] in H. rewrite H.
  rewrite <- records_step. apply records_fresh.
Qed.

(** A string of [n] characters [c]. *)
Fixpoint filler (n : nat) (c : ascii) : string :=
  match n with
  | O => EmptyString
  | S n' => String c (filler n' c)
  end.

Lemma long_comment_line_is_split_witness :
  records (String "#" (filler 1022 "-") ++ line "alice 10.0.0.2 10.0.0.1")
    no_cfg
  = records (line "alice 10.0.0.2 10.0.0.1") no_cfg.
Proof.
  apply (long_comment_line_is_split (filler 1022 "-")
           (line "alice 10.0.0.2 10.0.0.1") no_cfg).
  - vm_compute. reflexivity.
  - vm_compute. reflexivity.
Defined.

(** ** login *)

(** The message of [login] for a request that is not in the store. *)
Definition refusal (remoteip username : string) : effect :=
  Eprintf ("Remote IP address '" ++ remoteip ++ "' not found for user '"
           ++ username ++ "'" ++ String NL EmptyString)%string.

(** [login] up to the call of [getcfgbyid], for a name that fits the
    identity array and an address line that fits the address array. *)
Lemma login_reads_request k pw_name addr rest w :
  k_passwd k = Some pw_name ->
  nul_free pw_name = true -> (String.length pw_name < 127)%nat ->
  w_stdin w = map Data (list_ascii_of_string addr) ++ Data NL :: rest ->
  nul_free addr = true -> ~ In NL (list_ascii_of_string addr) ->
  (String.length addr < 64)%nat ->
  exists sc1,
    c_str (sc_username sc1) = Some pw_name /\
    c_str (sc_remoteip sc1) = Some addr /\
    sizeof (sc_localip sc1) = 64 /\ sizeof (sc_script sc1) = 256 /\
    login k (frame_sc k) w =
    (found <- getcfgbyid k (k_frame_cfg k) pw_name addr ;;
     match found with
     | None => emit (refusal addr pw_name) ;; exit 1
     | Some cfg =>
         ret (set_script
                (strncpy (sc_script sc1) (cfg_script cfg) 256)
                (set_localip
                   (strncpy (sc_localip sc1) (cfg_localip cfg) 64) sc1))
     end)%vmnet (set_stdin rest w).
Proof.
  intros Hpw Hpf Hpl Hin Haf Hanl Hal.
  set (line := list_ascii_of_string addr) in *.
  assert (Hline : List.length line = String.length addr)
    by apply length_list_ascii.
  set (buf := frame_array k 128 64).
  assert (Hbuf : List.length buf = 64%nat).
  { unfold buf, frame_array. rewrite length_map, length_seq. reflexivity. }
  exists (set_remoteip (line ++ NUL :: skipn (S (List.length line)) buf)
            (set_username (strncpy (frame_array k 0 128) pw_name 127)
               (frame_sc k))).
  cbn [sc_username sc_remoteip sc_localip sc_script frame_sc
       set_username set_remoteip].
  split; [apply c_str_strncpy; assumption|].
  split; [apply c_str_terminated; exact Haf|].
  split; [apply frame_array_size|]. split; [apply frame_array_size|].
  unfold login. rewrite Hpw.
  cbn [sc_username sc_remoteip sc_localip sc_script frame_sc
       set_username set_remoteip set_localip set_script].
  rewrite !frame_array_size.
  change (Z.to_nat (Z.of_nat 128 - 1)) with 127%nat.
  rewrite !Nat2Z.id.
  unfold readline. change (Z.of_nat 64 =? 0) with false. cbv iota.
  unfold bind at 1. change (0 =? 0) with true. cbv iota.
  rewrite Hin. fold buf.
  assert (Hrl : readline_from (map Data line ++ Data NL :: rest) buf 0 (Z.of_nat 64)
                = (Some (Z.of_nat (List.length line) + 1,
                         line ++ NL :: skipn (S (List.length line)) buf), rest)).
  { pose proof (readline_from_line line rest []
                  (firstn (S (List.length line)) buf)
                  (skipn (S (List.length line)) buf) (Z.of_nat 64) Hanl) as H.
    rewrite firstn_skipn in H. apply H.
    - rewrite length_firstn. lia.
    - simpl. lia. }
  rewrite Hrl. cbv beta iota.
  replace (Z.of_nat (List.length line) + 1 - 1)
    with (Z.of_nat (List.length line)) by lia.
  rewrite store_middle.
  rewrite (c_str_strncpy _ pw_name 127 Hpf Hpl).
  unfold line at 1. rewrite (c_str_terminated addr _ Haf).
  reflexivity.
Qed.

(** X9. When the name the system gives fits the identity array and the
    first line of the host input fits the address array, [login] returns
    exactly when the store has a record for that name and that line, and
    the session then holds the fields of the first such record; otherwise
    it prints its message and exits with status 1.  Either way it consumes
    the line with its newline and nothing else. *)
Theorem login_authorizes k pw_name addr rest store :
  k_passwd k = Some pw_name ->
  nul_free pw_name = true -> (String.length pw_name < 127)%nat ->
  k_stdin k = map Data (list_ascii_of_string addr) ++ Data NL :: rest ->
  nul_free addr = true -> ~ In NL (list_ascii_of_string addr) ->
  (String.length addr < 64)%nat ->
  k_config k = Some store ->
  match login k (frame_sc k) (boot k) with
  | (Ret sc, w) =>
      exists cfg,
        first_match pw_name addr (records store (k_frame_cfg k)) cfg /\
        c_str (sc_username sc) = Some pw_name /\ holds sc cfg /\
        w_stdin w = rest /\ w_log w = []
  | (Exit c, w) =>
      c = 1 /\
      Forall (fun c' => ~ (cfg_username c' = pw_name /\ cfg_remoteip c' = addr))
        (records store (k_frame_cfg k)) /\
      w_stdin w = rest /\ w_log w = [refusal addr pw_name]
  | _ => False
  end.
Proof.
  intros Hpw Hpf Hpl Hin Haf Hanl Hal Hcfg.
  destruct (login_reads_request k pw_name addr rest (boot k)
              Hpw Hpf Hpl Hin Haf Hanl Hal)
    as (sc1 & Hu & Hr & Hsl & Hss & ->).
  unfold bind at 1. unfold getcfgbyid, cfg_stream. cbn [w_fp set_stdin boot].
  rewrite Hcfg.
  pose proof (getcfgbyid_lines_first store (k_frame_cfg k) pw_name addr) as Hfirst.
  destruct (getcfgbyid_lines store (k_frame_cfg k) pw_name addr)
    as [[cfg rest']|] eqn:Eg.
  - pose proof (getcfgbyid_lines_wf _ _ _ _ _ _ Eg) as [[Hl1 Hl2] [Hs1 Hs2]].
    destruct Hfirst as (before & after & Hrec & Hm & Hb).
    apply matches_spec in Hm. destruct Hm as [Hmu Hmr].
    cbn. exists cfg. split.
    { exists before, after. split; [exact Hrec|]. split; [tauto|].
      eapply Forall_impl; [|exact Hb]. intros a. apply matches_false. }
    split; [exact Hu|]. split; [|auto].
    unfold holds. cbn. rewrite Hmr. split; [exact Hr|].
    split; apply c_str_strncpy; (assumption || lia).
  - cbn. split; [reflexivity|]. split; [|auto].
    eapply Forall_impl; [|exact Hfirst]. intros a. apply matches_false.
Qed.

Lemma login_authorizes_witness :
  match login sample_kernel (frame_sc sample_kernel) (boot sample_kernel) with
  | (Ret sc, w) =>
      exists cfg,
        first_match "alice" "10.0.0.2"
          (records sample_store (k_frame_cfg sample_kernel)) cfg /\
        c_str (sc_username sc) = Some "alice"%string /\ holds sc cfg /\
        w_stdin w = bytes "abc" /\ w_log w = []
  | (Exit c, w) =>
      c = 1 /\
      Forall (fun c' => ~ (cfg_username c' = "alice"%string
                           /\ cfg_remoteip c' = "10.0.0.2"%string))
        (records sample_store (k_frame_cfg sample_kernel)) /\
      w_stdin w = bytes "abc" /\ w_log w = [refusal "10.0.0.2" "alice"]
  | _ => False
  end.
Proof.
  apply (login_authorizes sample_kernel "alice" "10.0.0.2" (bytes "abc")
           sample_store).
  - reflexivity.
  - reflexivity.
  - cbn. lia.
  - reflexivity.
  - reflexivity.
  - cbn. intuition discriminate.
  - cbn. lia.
  - reflexivity.
Defined.

(** X10. A run that [login] ends has done nothing but print one message:
    [setuid] was not called, no descriptor was opened, no [ioctl] issued,
    no command run and nothing written to either side. *)
Theorem refused_run_has_no_effect IFCONFIG k c w :
  login k (frame_sc k) (boot k) = (Exit c, w) ->
  main IFCONFIG k (boot k) = (Exit 1, w) /\
  w_open w = [] /\ w_stdout w = [] /\ w_linkout w = [] /\
  w_link w = k_link k /\
  exists msg, w_log w = [Perror msg] \/ w_log w = [Eprintf msg].
Proof.
  intros H.
  assert (Hmain : main IFCONFIG k (boot k) = (Exit c, w)).
  { unfold main, sig_setup. unfold bind at 1. unfold ret.
    unfold bind at 1. rewrite H. reflexivity. }
  rewrite Hmain. clear Hmain.
  unfold login in H.
  destruct (k_passwd k) as [pw_name|]; [|discriminate].
  cbn [sc_username sc_remoteip sc_localip sc_script frame_sc
       set_username set_remoteip set_localip set_script] in H.
  unfold readline in H. rewrite frame_array_size in H.
  change (Z.of_nat 64 =? 0) with false in H.
  cbv iota in H. unfold bind at 1 in H.
  change (0 =? 0) with true in H. cbv iota in H.
  destruct (readline_from _ _ _ _) as [[[n remoteip]|] s]; [|discriminate].
  cbv beta iota in H.
  destruct (store remoteip (n - 1) NUL) as [rip_buf|]; [|discriminate].
  destruct (c_str _) as [username|]; [|discriminate].
  destruct (c_str rip_buf) as [rip|]; [|discriminate].
  unfold bind at 1 in H. unfold getcfgbyid, cfg_stream in H.
  cbn [w_fp set_stdin boot] in H.
  destruct (k_config k) as [content|].
  - destruct (getcfgbyid_lines content (k_frame_cfg k) username rip)
      as [[cfg rest]|]; [discriminate|].
    revert H. run_monad. intros H. inversion H; subst. cbn.
    repeat split. eexists. right. reflexivity.
  - revert H. run_monad. intros H. inversion H; subst. cbn.
    repeat split. eexists. left. reflexivity.
Qed.

Lemma refused_run_has_no_effect_witness :
  main sample_ifconfig storeless_kernel (boot storeless_kernel)
  = (Exit 1, snd (login storeless_kernel (frame_sc storeless_kernel)
                    (boot storeless_kernel))) /\
  w_open (snd (login storeless_kernel (frame_sc storeless_kernel)
                 (boot storeless_kernel))) = [] /\
  w_stdout (snd (login storeless_kernel (frame_sc storeless_kernel)
                   (boot storeless_kernel))) = [] /\
  w_linkout (snd (login storeless_kernel (frame_sc storeless_kernel)
                    (boot storeless_kernel))) = [] /\
  w_link (snd (login storeless_kernel (frame_sc storeless_kernel)
                 (boot storeless_kernel))) = k_link storeless_kernel /\
  exists msg,
    w_log (snd (login storeless_kernel (frame_sc storeless_kernel)
                  (boot storeless_kernel))) = [Perror msg] \/
    w_log (snd (login storeless_kernel (frame_sc storeless_kernel)
                  (boot storeless_kernel))) = [Eprintf msg].
Proof.
  apply (refused_run_has_no_effect sample_ifconfig storeless_kernel 1).
  vm_compute. reflexivity.
Defined.

(** ** The buffers of interface_start and interface_stop *)

Lemma records_ok fp :
  forall cfg c, In c (records fp cfg) -> record_ok c.
Proof.
  induction fp as [fp IH] using (well_founded_induction
    (Wf_nat.well_founded_ltof _ String.length)).
  intros cfg c. rewrite records_step.
  destruct (getcfgentry_lines fp cfg) as [[c1 rest]|] eqn:E; [|intros []].
  intros [<- | Hin].
  - eapply getcfgentry_lines_fields; eauto.
  - apply getcfgentry_lines_shorter in E. eapply IH; eauto.
Qed.

Lemma first_match_In username remoteip l c :
  first_match username remoteip l c -> In c l.
Proof.
  intros (before & after & -> & _). apply in_or_app. right. left. reflexivity.
Qed.

Lemma record_suffix_length verb cfg :
  record_ok cfg ->
  (String.length (record_suffix verb cfg) <= 392 + String.length verb)%nat.
Proof.
  intros (_ & (_ & Hr & _) & (_ & Hl & _) & Hs & _). unfold record_suffix.
  destruct (cfg_script cfg) as [|c0 s0] eqn:Es; [simpl; lia|].
  destruct Hs as [Hs | (_ & Hs & _)]; [discriminate|].
  revert Hs. string_lengths. lia.
Qed.

Lemma up_command_fits IFCONFIG unit cfg :
  record_ok cfg ->
  (String.length IFCONFIG + String.length (dec unit) <= 453)%nat ->
  overflows 1024 (up_command IFCONFIG unit cfg) = false.
Proof.
  intros Hc Hlen. pose proof (record_suffix_length "up" cfg Hc) as Hsuf.
  destruct Hc as (_ & (_ & Hr & _) & (_ & Hl & _) & _).
  unfold overflows, up_command. apply Nat.leb_gt.
  revert Hsuf. string_lengths. lia.
Qed.

Lemma down_command_fits IFCONFIG unit cfg :
  record_ok cfg ->
  (String.length IFCONFIG + String.length (dec unit) <= 453)%nat ->
  overflows 1024 (down_command IFCONFIG unit cfg) = false.
Proof.
  intros Hc Hlen. pose proof (record_suffix_length "down" cfg Hc) as Hsuf.
  unfold overflows, down_command. apply Nat.leb_gt.
  revert Hsuf. string_lengths. lia.
Qed.

(** X11. For a session that holds the fields of an entry of the store,
    neither [sprintf] of [interface_start] and [interface_stop] writes
    past [buf[1024]], provided the path of [IFCONFIG] and the digits of the
    unit have at most 453 characters together: both functions return,
    having passed to [system] the two commands of the entry. *)
Theorem hook_commands_fit IFCONFIG sc cfg w :
  holds sc cfg -> record_ok cfg ->
  (String.length IFCONFIG + String.length (dec (sc_unit sc)) <= 453)%nat ->
  interface_start IFCONFIG sc w
  = (Ret tt,
     set_log (w_log w ++ [System (up_command IFCONFIG (sc_unit sc) cfg)]) w) /\
  interface_stop IFCONFIG sc w
  = (Ret tt,
     set_log (w_log w ++ [System (down_command IFCONFIG (sc_unit sc) cfg)]) w).
Proof.
  intros Hh Hc Hlen. split.
  - rewrite interface_start_spec, (start_command_record IFCONFIG sc cfg Hh).
    rewrite (up_command_fits IFCONFIG (sc_unit sc) cfg Hc Hlen). reflexivity.
  - unfold interface_stop, system_buf.
    rewrite (stop_command_record IFCONFIG sc cfg Hh).
    rewrite (down_command_fits IFCONFIG (sc_unit sc) cfg Hc Hlen). reflexivity.
Qed.

Lemma hook_commands_fit_witness :
  interface_start sample_ifconfig sample_session sample_world
  = (Ret tt,
     set_log (w_log sample_world
              ++ [System (up_command sample_ifconfig (sc_unit sample_session)
                            {| cfg_username := "alice";
                               cfg_remoteip := "10.0.0.2";
                               cfg_localip := "10.0.0.1";
                               cfg_script := "/etc/vmnet/up.sh" |})])
       sample_world) /\
  interface_stop sample_ifconfig sample_session sample_world
  = (Ret tt,
     set_log (w_log sample_world
              ++ [System (down_command sample_ifconfig (sc_unit sample_session)
                            {| cfg_username := "alice";
                               cfg_remoteip := "10.0.0.2";
                               cfg_localip := "10.0.0.1";
                               cfg_script := "/etc/vmnet/up.sh" |})])
       sample_world).
Proof.
  apply (hook_commands_fit sample_ifconfig sample_session
           {| cfg_username := "alice"; cfg_remoteip := "10.0.0.2";
              cfg_localip := "10.0.0.1"; cfg_script := "/etc/vmnet/up.sh" |}
           sample_world).
  - vm_compute. auto.
  - split; [word_holds|]. split; [word_holds|]. split; [word_holds|].
    split; [right; word_holds | discriminate].
  - vm_compute. lia.
Defined.

(** ** The run has defined behaviour *)

Lemma authorized_record k sc :
  authorized k sc -> exists cfg, holds sc cfg /\ record_ok cfg.
Proof.
  intros Ha.
  destruct (authorized_holds k sc Ha) as (store & pw & u & cfg & _ & _ & _ & Hf & Hh).
  exists cfg. split; [exact Hh|].
  apply (records_ok store (k_frame_cfg k)). eapply first_match_In; eauto.
Qed.

Lemma holds_established k sc cfg :
  holds sc cfg -> holds (established_session k sc) cfg.
Proof. intros H. exact H. Qed.

Lemma slip_start_defined IFCONFIG k sc cfg w :
  holds sc cfg -> record_ok cfg ->
  (String.length IFCONFIG + String.length (dec (k_tiocsetd k)) <= 453)%nat ->
  fst (slip_start IFCONFIG k sc w) <> Undef.
Proof.
  intros Hh Hc Hlen. unfold slip_start. unfold bind at 1.
  destruct (open_pty_pair k (sc_masterfd sc) (sc_slavefd sc) w)
    as [r1 w1] eqn:E1.
  destruct (open_pty_pair_spec _ _ _ _ _ _ E1) as (l1 & _ & _ & Hr1).
  destruct Hr1 as [-> | (-> & _ & _)]; [cbn; discriminate|].
  cbn [Z.eqb]. cbv iota beta. unfold bind at 1.
  destruct (tty_setup k (set_slavefd (k_open k) (set_masterfd (k_getpt k) sc)) w1)
    as [r2 w2] eqn:E2.
  destruct (tty_setup_spec _ _ _ _ _ E2) as (l2 & _ & _ & _ & Hr2).
  destruct Hr2 as [-> | ->]; [|cbn; discriminate].
  unfold bind at 1.
  destruct (slip_setup k (set_slavefd (k_open k) (set_masterfd (k_getpt k) sc)) w2)
    as [r3 w3] eqn:E3.
  destruct (slip_setup_spec _ _ _ _ _ E3) as (l3 & _ & _ & _ & Hr3).
  destruct Hr3 as [-> | (-> & _ & _)]; [cbn; discriminate|].
  fold (established_session k sc). unfold bind at 1.
  rewrite interface_start_spec.
  rewrite (start_command_record IFCONFIG (established_session k sc) cfg
             (holds_established k sc cfg Hh)).
  change (sc_unit (established_session k sc)) with (k_tiocsetd k).
  rewrite (up_command_fits IFCONFIG (k_tiocsetd k) cfg Hc Hlen).
  cbn. discriminate.
Qed.

Lemma establish_defined IFCONFIG k :
  (String.length IFCONFIG + String.length (dec (k_tiocsetd k)) <= 453)%nat ->
  fst (login k (frame_sc k) (boot k)) <> Undef ->
  fst (establish IFCONFIG k (boot k)) <> Undef.
Proof.
  intros Hlen Hlogin. unfold establish. unfold bind at 1.
  unfold sig_setup, ret. unfold bind at 1.
  destruct (login k (frame_sc k) (boot k)) as [r1 w1] eqn:E1.
  destruct (login_spec k (boot k) r1 w1 eq_refl E1) as [_ Hr1].
  destruct r1 as [sc1|c| |]; cbn [fst] in *;
    try discriminate; try congruence; try contradiction.
  destruct Hr1 as (Hauth & _).
  destruct (authorized_record k sc1 Hauth) as (cfg & Hh & Hc).
  unfold bind at 1. unfold setuid, emit. unfold bind at 1.
  match goal with |- context [slip_start IFCONFIG k sc1 ?w2] =>
    pose proof (slip_start_defined IFCONFIG k sc1 cfg w2 Hh Hc Hlen) as Hs;
    destruct (slip_start IFCONFIG k sc1 w2) as [[sc2|c| |] w3]
  end; cbn [fst] in *; try discriminate; try congruence.
  unfold bind, deliver, sig_catch. destruct (k_signal_early k); cbn; discriminate.
Qed.



(** ** The descriptors and the system calls of a run *)

(** The open descriptors after [close(sc->masterfd)] and
    [close(sc->slavefd)]. *)
Definition released (sc : slipconn) (l : list Z) : list Z :=
  filter (fun d => negb (d =? sc_slavefd sc))
    (filter (fun d => negb (d =? sc_masterfd sc)) l).

(** A call leaves the open descriptors as they are, unless it ends the
    process, which it does after releasing the pair. *)
Definition open_frame (sc : slipconn) {A} (m : M A) : Prop :=
  forall w,
    match m w with
    | (Exit _, w') => w_open w' = released sc (w_open w)
    | (_, w') => w_open w' = w_open w
    end.

Lemma open_frame_ret sc {A} (a : A) : open_frame sc (ret a).
Proof. intros w. reflexivity. Qed.

Lemma open_frame_bind sc {A B} (m : M A) (f : A -> M B) :
  open_frame sc m -> (forall a, open_frame sc (f a)) -> open_frame sc (bind m f).
Proof.
  intros Hm Hf w. unfold bind. specialize (Hm w).
  destruct (m w) as [[a|c| |] w1]; auto.
  specialize (Hf a w1).
  destruct (f a w1) as [[b|c| |] w2]; congruence.
Qed.

Lemma slip_stop_open IFCONFIG k sc w :
  match slip_stop IFCONFIG k sc w with
  | (Ret _, w') => w_open w' = released sc (w_open w)
  | (Undef, w') => w_open w' = w_open w
  | _ => False
  end.
Proof.
  unfold slip_stop, interface_stop, system_buf, slip_release.
  destruct (stop_command IFCONFIG sc) as [cmd|]; [|reflexivity].
  destruct (overflows 1024 cmd); [reflexivity|].
  run_monad. destruct (k_tiocsetd_restore k <? 0); reflexivity.
Qed.

Lemma stop_exit_open IFCONFIG k sc {A} c :
  open_frame sc (slip_stop IFCONFIG k sc ;; @exit A c)%vmnet.
Proof.
  intros w. unfold bind, exit. pose proof (slip_stop_open IFCONFIG k sc w) as H.
  destruct (slip_stop IFCONFIG k sc w) as [[[]|c'| |] w']; try contradiction;
    exact H.
Qed.

Lemma perror_stop_exit_open IFCONFIG k sc {A} msg :
  open_frame sc (perror msg ;; slip_stop IFCONFIG k sc ;; @exit A 1)%vmnet.
Proof.
  intros w. unfold bind at 1. unfold perror, emit.
  match goal with |- context [(slip_stop IFCONFIG k sc ;; exit 1)%vmnet ?w1] =>
    pose proof (@stop_exit_open IFCONFIG k sc A 1 w1) as H;
    destruct ((slip_stop IFCONFIG k sc ;; exit 1)%vmnet w1) as [[a|c| |] w2]
  end; exact H.
Qed.

Lemma bufread_open IFCONFIG k ev sc fd b :
  open_frame sc (bufread IFCONFIG k ev sc fd b).
Proof.
  unfold bufread. apply open_frame_bind.
  - intros w. unfold sys_read.
    destruct (fd =? 0); [destruct (stream_read _ _ _) as [[r cs] s]; reflexivity|].
    destruct (fd =? k_getpt k);
      [destruct (stream_read _ _ _) as [[r cs] s]; reflexivity | reflexivity].
  - intros [r cs]. cbn [buf_len buf_data].
    destruct (r <? 0); [apply perror_stop_exit_open | apply open_frame_ret].
Qed.

Lemma bufwrite_open IFCONFIG k ev sc fd b :
  open_frame sc (bufwrite IFCONFIG k ev sc fd b).
Proof.
  unfold bufwrite. destruct (in_data b); [|intros w; reflexivity].
  apply open_frame_bind.
  - intros w. unfold sys_write.
    destruct (fd =? 1); [reflexivity|]. destruct (fd =? k_getpt k); reflexivity.
  - intros r. destruct (r <=? 0);
      [apply perror_stop_exit_open | apply open_frame_ret].
Qed.

Lemma relay_iter_open IFCONFIG k ev sc st :
  open_frame sc (relay_iter IFCONFIG k ev sc st).
Proof.
  unfold relay_iter.
  destruct (sys_select _ _ _ _) as [[n readfds] writefds].
  apply open_frame_bind.
  - destruct (n >? 0); [|apply open_frame_ret].
    apply open_frame_bind.
    { unfold when. destruct (FD_ISSET 0 readfds); [|apply open_frame_ret].
      unfold host_readable. apply open_frame_bind; [apply bufread_open|].
      intros b. apply open_frame_bind.
      - destruct (_ =? 0); [apply stop_exit_open | apply open_frame_ret].
      - intros _. destruct (negb _); apply open_frame_ret. }
    intros st1. apply open_frame_bind.
    { unfold when. destruct (FD_ISSET _ readfds); [|apply open_frame_ret].
      unfold link_readable. apply open_frame_bind; [apply bufread_open|].
      intros b. destruct (negb _); apply open_frame_ret. }
    intros st2. apply open_frame_bind.
    { unfold when. destruct (FD_ISSET _ writefds); [|apply open_frame_ret].
      unfold link_writable. apply open_frame_bind; [apply bufwrite_open|].
      intros b. destruct (_ =? 0); apply open_frame_ret. }
    intros st3.
    unfold when. destruct (FD_ISSET 1 writefds); [|apply open_frame_ret].
    unfold host_writable. apply open_frame_bind; [apply bufwrite_open|].
    intros b. destruct (_ =? 0); apply open_frame_ret.
  - intros st1. apply open_frame_bind; [|intros; apply open_frame_ret].
    intros w. unfold deliver, sig_catch, ret. destruct (ev_signal ev); reflexivity.
Qed.

Lemma relay_loop_open IFCONFIG k sc evs :
  forall st, open_frame sc (relay_loop IFCONFIG k evs sc st).
Proof.
  induction evs as [|ev evs IH]; intros st w; simpl.
  - destruct (w_go w =? 0); reflexivity.
  - destruct (w_go w =? 0); [reflexivity|].
    apply (open_frame_bind sc (relay_iter IFCONFIG k ev sc st)
             (fun st' => relay_loop IFCONFIG k evs sc st')).
    + apply relay_iter_open.
    + exact IH.
Qed.

(** The system calls of [tty_setup] and [slip_setup] on the slave. *)
Definition setup_effects (k : kernel) : list effect :=
  (if k_tcgetattr k <? 0 then [Perror "tcgetattr"] else [])
  ++ [Tcsetattr (k_open k); Tiocsetd (k_open k) N_SLIP;
      Siocsifencap (k_open k) 0].

Lemma open_pty_pair_ret k masterp slavep w ok p w' :
  open_pty_pair k masterp slavep w = (Ret (ok, p), w') -> ok <> 0 ->
  p = (k_getpt k, k_open k) /\
  w_open w' = k_open k :: k_getpt k :: w_open w /\ w_log w' = w_log w.
Proof.
  unfold open_pty_pair, getpt, open_slave. run_monad.
  destruct (k_getpt k <? 0); [intros H; inversion H; congruence|].
  destruct ((k_grantpt k <? 0) || (k_unlockpt k <? 0));
    [intros H; inversion H; congruence|].
  destruct (k_ptsname_r k <? 0); [intros H; inversion H; congruence|].
  destruct (k_open k <? 0); [intros H; inversion H; congruence|].
  intros H _. inversion H; subst. auto.
Qed.

Lemma tty_setup_ret k sc w w' :
  tty_setup k sc w = (Ret tt, w') ->
  w_open w' = w_open w /\
  w_log w' = w_log w
             ++ (if k_tcgetattr k <? 0 then [Perror "tcgetattr"] else [])
             ++ [Tcsetattr (sc_slavefd sc)].
Proof.
  unfold tty_setup. run_monad.
  destruct (k_tcgetattr k <? 0); destruct (k_tcsetattr k <? 0); simpl;
    intros H; inversion H; subst; cbn; rewrite <- ?app_assoc; auto.
Qed.

Lemma slip_setup_ret k sc w sc' w' :
  slip_setup k sc w = (Ret sc', w') ->
  w_open w' = w_open w /\
  w_log w' = w_log w ++ [Tiocsetd (sc_slavefd sc) N_SLIP;
                         Siocsifencap (sc_slavefd sc) 0].
Proof.
  unfold slip_setup.
  cbn [sc_slavefd sc_unit set_unit set_oldldisc]. run_monad.
  destruct (fst (k_tiocgetd k) <? 0); simpl; [discriminate|].
  destruct (k_tiocsetd k <? 0); simpl; [discriminate|].
  destruct (k_siocsifencap k <? 0); simpl; [discriminate|].
  destruct (fst (k_tiocgetd2 k) <? 0); simpl; [discriminate|].
  destruct (fst (k_siocgifencap k) <? 0); simpl; [discriminate|].
  destruct (negb (snd (k_tiocgetd2 k) =? N_SLIP)
            || negb (snd (k_siocgifencap k) =? 0)); simpl; [discriminate|].
  intros H; inversion H; subst. cbn. rewrite <- ?app_assoc. auto.
Qed.

Lemma slip_start_trace IFCONFIG k sc w sc' w' :
  slip_start IFCONFIG k sc w = (Ret sc', w') ->
  sc' = established_session k sc /\
  w_open w' = k_open k :: k_getpt k :: w_open w /\
  exists up,
    start_command IFCONFIG sc' = Some up /\
    w_log w' = w_log w ++ setup_effects k ++ [System up].
Proof.
  unfold slip_start. unfold bind at 1.
  destruct (open_pty_pair k (sc_masterfd sc) (sc_slavefd sc) w)
    as [r1 w1] eqn:E1.
  destruct (open_pty_pair_spec _ _ _ _ _ _ E1) as (l1 & _ & _ & Hr1).
  destruct Hr1 as [-> | (-> & _ & _)]; [cbn; discriminate|].
  destruct (open_pty_pair_ret _ _ _ _ _ _ _ E1 ltac:(discriminate))
    as (_ & Ho1 & Hl1).
  cbn [Z.eqb]. cbv iota beta. unfold bind at 1.
  destruct (tty_setup k (set_slavefd (k_open k) (set_masterfd (k_getpt k) sc)) w1)
    as [r2 w2] eqn:E2.
  destruct (tty_setup_spec _ _ _ _ _ E2) as (l2 & _ & _ & _ & Hr2).
  destruct Hr2 as [-> | ->]; [|discriminate].
  destruct (tty_setup_ret _ _ _ _ E2) as (Ho2 & Hl2).
  unfold bind at 1.
  destruct (slip_setup k (set_slavefd (k_open k) (set_masterfd (k_getpt k) sc)) w2)
    as [r3 w3] eqn:E3.
  destruct (slip_setup_spec _ _ _ _ _ E3) as (l3 & _ & _ & _ & Hr3).
  destruct Hr3 as [-> | (-> & _ & _)]; [discriminate|].
  destruct (slip_setup_ret _ _ _ _ _ E3) as (Ho3 & Hl3).
  fold (established_session k sc). unfold bind at 1.
  rewrite interface_start_spec.
  destruct (start_command IFCONFIG (established_session k sc)) as [up|] eqn:Eu;
    [|discriminate].
  destruct (overflows 1024 up); [discriminate|].
  cbn. intros H; inversion H; subst.
  split; [reflexivity|]. split; [cbn; congruence|].
  exists up. split; [exact Eu|]. cbn.
  rewrite Hl3, Hl2, Hl1. unfold setup_effects. cbn [sc_slavefd set_slavefd].
  rewrite <- !app_assoc. reflexivity.
Qed.

Lemma login_ret_log k w sc w' :
  login k (frame_sc k) w = (Ret sc, w') ->
  w_log w' = w_log w /\ w_open w' = w_open w.
Proof.
  intros H. unfold login in H.
  destruct (k_passwd k) as [pw_name|]; [|discriminate].
  cbn [sc_username sc_remoteip sc_localip sc_script frame_sc
       set_username set_remoteip set_localip set_script] in H.
  unfold readline in H. rewrite frame_array_size in H.
  change (Z.of_nat 64 =? 0) with false in H.
  cbv iota in H. unfold bind at 1 in H.
  change (0 =? 0) with true in H. cbv iota in H.
  destruct (readline_from _ _ _ _) as [[[n remoteip]|] s]; [|discriminate].
  cbv beta iota in H.
  destruct (store remoteip (n - 1) NUL) as [rip_buf|]; [|discriminate].
  destruct (c_str _) as [username|]; [|discriminate].
  destruct (c_str rip_buf) as [rip|]; [|discriminate].
  unfold bind at 1 in H. unfold getcfgbyid, cfg_stream in H.
  destruct (match w_fp (set_stdin s w) with
            | Some fp => Some fp
            | None => k_config k
            end) as [content|]; [|discriminate].
  destruct (getcfgbyid_lines content (k_frame_cfg k) username rip)
    as [[cfg rest]|]; [|discriminate].
  cbn in H. inversion H; subst. cbn. auto.
Qed.

(** The session and the world in which the loop is entered. *)
Lemma establish_trace IFCONFIG k sc w0 :
  establish IFCONFIG k (boot k) = (Ret sc, w0) ->
  (sc_masterfd sc = k_getpt k /\ sc_slavefd sc = k_open k /\
   sc_oldldisc sc = snd (k_tiocgetd k) /\ sc_unit sc = k_tiocsetd k) /\
  w_open w0 = [k_open k; k_getpt k] /\
  exists up,
    start_command IFCONFIG sc = Some up /\
    w_log w0 = Setuid 0 :: setup_effects k ++ [System up].
Proof.
  unfold establish. unfold bind at 1. unfold sig_setup, ret.
  unfold bind at 1.
  destruct (login k (frame_sc k) (boot k)) as [[sc1|c| |] w1] eqn:E1;
    try discriminate.
  destruct (login_ret_log _ _ _ _ E1) as [Hl1 Ho1]. cbn in Hl1, Ho1.
  unfold bind at 1. unfold setuid, emit. unfold bind at 1.
  match goal with |- context [slip_start IFCONFIG k sc1 ?w2] =>
    destruct (slip_start IFCONFIG k sc1 w2) as [[sc2|c| |] w3] eqn:E2
  end; try discriminate.
  destruct (slip_start_trace _ _ _ _ _ _ E2) as (-> & Ho & up & Hup & Hlog).
  cbn in Ho, Hlog. rewrite Ho1 in Ho. rewrite Hl1 in Hlog.
  unfold bind, deliver, sig_catch.
  destruct (k_signal_early k); intros H; inversion H; subst; cbn;
    (split; [auto|]); (split; [exact Ho|]); exists up; auto.
Qed.

Lemma released_pair sc m s :
  sc_masterfd sc = m -> sc_slavefd sc = s -> released sc [s; m] = [].
Proof.
  intros Hm Hs. subst m s. unfold released. cbn [filter].
  rewrite (Z.eqb_refl (sc_masterfd sc)). cbn [negb].
  destruct (sc_slavefd sc =? sc_masterfd sc); cbn [negb filter];
    [reflexivity|].
  rewrite Z.eqb_refl. reflexivity.
Qed.

(** X13. The master and the slave that [slip_start] opened are open when
    the loop is entered, and every way out of an established run closes
    both: when [main] returns or the process exits from the loop, neither
    of them is left open. *)
Theorem descriptors_released IFCONFIG k sc w0 :
  establish IFCONFIG k (boot k) = (Ret sc, w0) ->
  w_open w0 = [k_open k; k_getpt k] /\
  match main IFCONFIG k (boot k) with
  | (Ret _, w) | (Exit _, w) => w_open w = []
  | (_, w) => w_open w = [k_open k; k_getpt k]
  end.
Proof.
  intros E.
  destruct (establish_trace _ _ _ _ E) as ((Hm & Hs & _ & _) & Ho & _).
  split; [exact Ho|].
  pose proof (released_pair sc _ _ Hm Hs) as Hrel.
  rewrite main_establish. unfold bind at 1. rewrite E. unfold bind at 1.
  pose proof (relay_loop_open IFCONFIG k sc (k_events k) (relay_init k sc) w0)
    as Hloop.
  destruct (relay_loop IFCONFIG k (k_events k) sc (relay_init k sc) w0)
    as [[st|c| |] w1]; try congruence.
  unfold bind at 1. pose proof (slip_stop_open IFCONFIG k sc w1) as Hstop.
  destruct (slip_stop IFCONFIG k sc w1) as [[[]|c| |] w2];
    try contradiction; cbn; congruence.
Qed.

Lemma descriptors_released_witness :
  w_open sample_world = [k_open sample_kernel; k_getpt sample_kernel] /\
  match main sample_ifconfig sample_kernel (boot sample_kernel) with
  | (Ret _, w) | (Exit _, w) => w_open w = []
  | (_, w) => w_open w = [k_open sample_kernel; k_getpt sample_kernel]
  end.
Proof.
  apply (descriptors_released sample_ifconfig sample_kernel sample_session
           sample_world).
  vm_compute. reflexivity.
Defined.

(** *** The log of the loop, in full *)

Section RelayTrace.

Variable IFCONFIG : string.
Variable k : kernel.
Variable sc : slipconn.
Variable stop_cmd : string.
Hypothesis stop_ok : stop_command IFCONFIG sc = Some stop_cmd.
Hypothesis stop_fits : overflows 1024 stop_cmd = false.

(** The log after an exit from the loop's body, in full: the message of a
    failed [read] or [write], if any, and the teardown. *)
Definition exit_trace (w w' : world) : Prop :=
  exists e,
    w_log w' = w_log w ++ e ++ teardown_effects k sc stop_cmd /\
    (e = [] \/ e = [Perror "read"] \/ e = [Perror "write"]).

Definition traces {A} (m : M A) : Prop :=
  forall w,
    match m w with
    | (Exit _, w') => exit_trace w w'
    | (_, w') => w_log w' = w_log w
    end.

Lemma traces_ret {A} (a : A) : traces (ret a).
Proof. intros w. reflexivity. Qed.

Lemma traces_bind {A B} (m : M A) (f : A -> M B) :
  traces m -> (forall a, traces (f a)) -> traces (bind m f).
Proof.
  intros Hm Hf w. unfold bind. specialize (Hm w).
  destruct (m w) as [[a|c| |] w1]; auto.
  specialize (Hf a w1).
  destruct (f a w1) as [[b|c| |] w2]; try congruence.
  destruct Hf as (e & He & H1). exists e. split; [congruence | auto].
Qed.

Lemma stop_exit_traces {A} c :
  traces (slip_stop IFCONFIG k sc ;; @exit A c)%vmnet.
Proof.
  intros w. pose proof (slip_stop_spec IFCONFIG k sc w) as H.
  rewrite stop_ok, stop_fits in H. destruct H as (Hr & _ & Hlog).
  unfold bind, exit. destruct (slip_stop IFCONFIG k sc w) as [r w1].
  cbn [fst snd] in Hr, Hlog. subst r. exists []. auto.
Qed.

Lemma failure_traces {A} msg :
  msg = "read"%string \/ msg = "write"%string ->
  traces (perror msg ;; slip_stop IFCONFIG k sc ;; @exit A 1)%vmnet.
Proof.
  intros Hmsg w. unfold bind at 1. unfold perror, emit.
  match goal with |- context [(slip_stop IFCONFIG k sc ;; exit 1)%vmnet ?w1] =>
    pose proof (slip_stop_spec IFCONFIG k sc w1) as H;
    rewrite stop_ok, stop_fits in H; destruct H as (Hr & _ & Hlog);
    unfold bind, exit; destruct (slip_stop IFCONFIG k sc w1) as [r w2]
  end.
  cbn [fst snd w_log set_log] in Hr, Hlog. subst r.
  exists [Perror msg]. split.
  - rewrite Hlog, <- app_assoc. reflexivity.
  - destruct Hmsg as [-> | ->]; auto.
Qed.

Lemma bufread_traces ev fd b : traces (bufread IFCONFIG k ev sc fd b).
Proof.
  unfold bufread. apply traces_bind.
  - intros w. unfold sys_read.
    destruct (fd =? 0); [destruct (stream_read _ _ _) as [[r cs] s]; reflexivity|].
    destruct (fd =? k_getpt k);
      [destruct (stream_read _ _ _) as [[r cs] s]; reflexivity | reflexivity].
  - intros [r cs]. cbn [buf_len buf_data].
    destruct (r <? 0); [apply failure_traces; auto | apply traces_ret].
Qed.

Lemma bufwrite_traces ev fd b : traces (bufwrite IFCONFIG k ev sc fd b).
Proof.
  unfold bufwrite. destruct (in_data b); [|intros w; reflexivity].
  apply traces_bind.
  - intros w. unfold sys_write.
    destruct (fd =? 1); [reflexivity|]. destruct (fd =? k_getpt k); reflexivity.
  - intros r. destruct (r <=? 0); [apply failure_traces; auto | apply traces_ret].
Qed.

Lemma relay_iter_traces ev st : traces (relay_iter IFCONFIG k ev sc st).
Proof.
  unfold relay_iter.
  destruct (sys_select _ _ _ _) as [[n readfds] writefds].
  apply traces_bind.
  - destruct (n >? 0); [|apply traces_ret].
    apply traces_bind.
    { unfold when. destruct (FD_ISSET 0 readfds); [|apply traces_ret].
      unfold host_readable. apply traces_bind; [apply bufread_traces|].
      intros b. apply traces_bind.
      - destruct (_ =? 0); [apply stop_exit_traces | apply traces_ret].
      - intros _. destruct (negb _); apply traces_ret. }
    intros st1. apply traces_bind.
    { unfold when. destruct (FD_ISSET _ readfds); [|apply traces_ret].
      unfold link_readable. apply traces_bind; [apply bufread_traces|].
      intros b. destruct (negb _); apply traces_ret. }
    intros st2. apply traces_bind.
    { unfold when. destruct (FD_ISSET _ writefds); [|apply traces_ret].
      unfold link_writable. apply traces_bind; [apply bufwrite_traces|].
      intros b. destruct (_ =? 0); apply traces_ret. }
    intros st3.
    unfold when. destruct (FD_ISSET 1 writefds); [|apply traces_ret].
    unfold host_writable. apply traces_bind; [apply bufwrite_traces|].
    intros b. destruct (_ =? 0); apply traces_ret.
  - intros st1. apply traces_bind; [|intros; apply traces_ret].
    intros w. unfold deliver, sig_catch, ret. destruct (ev_signal ev); reflexivity.
Qed.

Lemma relay_loop_traces evs : forall st, traces (relay_loop IFCONFIG k evs sc st).
Proof.
  induction evs as [|ev evs IH]; intros st w; simpl.
  - destruct (w_go w =? 0); reflexivity.
  - destruct (w_go w =? 0); [reflexivity|].
    apply (traces_bind (relay_iter IFCONFIG k ev sc st)
             (fun st' => relay_loop IFCONFIG k evs sc st')).
    + apply relay_iter_traces.
    + exact IH.
Qed.

End RelayTrace.

(** X14. The system calls of an established run, in their order:
    [setuid(0)], then on the slave [tcsetattr], the switch to SLIP and the
    encapsulation, then the command of [interface_start]; and at the end
    the command of [interface_stop], the line discipline set back, on the
    slave, to the one that was read before the switch, and the master and
    the slave closed.  Between the two the run makes no call but, on a
    failed [read] or [write], the one message of [bufread] or [bufwrite]. *)
Theorem setup_then_teardown IFCONFIG k sc w0 :
  establish IFCONFIG k (boot k) = (Ret sc, w0) ->
  exists up down,
    start_command IFCONFIG sc = Some up /\
    stop_command IFCONFIG sc = Some down /\
    w_log w0 = Setuid 0 :: setup_effects k ++ [System up] /\
    match main IFCONFIG k (boot k) with
    | (Ret _, w) | (Exit _, w) =>
        exists e,
          (e = [] \/ e = [Perror "read"] \/ e = [Perror "write"]) /\
          w_log w
          = w_log w0 ++ e
            ++ [System down; Tiocsetd (k_open k) (snd (k_tiocgetd k))]
            ++ (if k_tiocsetd_restore k <? 0 then [Perror "TIOCSETD"] else [])
            ++ [Close (k_getpt k); Close (k_open k)]
    | (_, w) => w_log w = w_log w0
    end.
Proof.
  intros E.
  destruct (establish_trace _ _ _ _ E) as ((Hm & Hs & Hd & _) & _ & up & Hup & Hlog).
  destruct (establish_spec _ _ _ _ E) as [_ Hest].
  destruct Hest as (_ & _ & _ & _ & _ & _ & _ & _ & _ & pre & up' & _ & _ & _ & Hup' & Hfit).
  destruct (stop_from_start _ _ _ Hup' Hfit) as (down & Hdown & Hdfit).
  exists up, down. split; [exact Hup|]. split; [exact Hdown|].
  split; [exact Hlog|].
  rewrite main_establish. unfold bind at 1. rewrite E. unfold bind at 1.
  pose proof (relay_loop_traces IFCONFIG k sc down Hdown Hdfit (k_events k)
                (relay_init k sc) w0) as Hloop.
  unfold exit_trace, teardown_effects in Hloop. rewrite Hm, Hs, Hd in Hloop.
  destruct (relay_loop IFCONFIG k (k_events k) sc (relay_init k sc) w0)
    as [[st|c| |] w1]; try exact Hloop.
  - unfold bind at 1.
    pose proof (slip_stop_spec IFCONFIG k sc w1) as Hstop.
    rewrite Hdown, Hdfit in Hstop. destruct Hstop as (Hr & _ & Hl).
    unfold teardown_effects in Hl. rewrite Hm, Hs, Hd in Hl.
    destruct (slip_stop IFCONFIG k sc w1) as [r w2].
    cbn [fst snd] in Hr, Hl. subst r. unfold ret.
    exists []. split; [auto|]. rewrite Hl, Hloop. reflexivity.
  - destruct Hloop as (e & Hw & He). exists e. auto.
Qed.

Lemma setup_then_teardown_witness :
  exists up down,
    start_command sample_ifconfig sample_session = Some up /\
    stop_command sample_ifconfig sample_session = Some down /\
    w_log sample_world = Setuid 0 :: setup_effects sample_kernel ++ [System up] /\
    match main sample_ifconfig sample_kernel (boot sample_kernel) with
    | (Ret _, w) | (Exit _, w) =>
        exists e,
          (e = [] \/ e = [Perror "read"] \/ e = [Perror "write"]) /\
          w_log w
          = w_log sample_world ++ e
            ++ [System down;
                Tiocsetd (k_open sample_kernel) (snd (k_tiocgetd sample_kernel))]
            ++ (if k_tiocsetd_restore sample_kernel <? 0
                then [Perror "TIOCSETD"] else [])
            ++ [Close (k_getpt sample_kernel); Close (k_open sample_kernel)]
    | (_, w) => w_log w = w_log sample_world
    end.
Proof.
  apply (setup_then_teardown sample_ifconfig sample_kernel sample_session
           sample_world).
  vm_compute. reflexivity.
Defined.

(** ** bufread and bufwrite *)

Lemma bind_exit_not_ret {A B} (m : M A) c w (b : B) w' :
  (m ;; exit c)%vmnet w <> (Ret b, w').
Proof.
  unfold bind, exit. destruct (m w) as [[a|c'| |] w1]; discriminate.
Qed.

Lemma failure_not_ret IFCONFIG k sc {B} msg w (b : B) w' :
  (perror msg ;; slip_stop IFCONFIG k sc ;; exit 1)%vmnet w <> (Ret b, w').
Proof.
  unfold bind at 1. unfold perror, emit. apply bind_exit_not_ret.
Qed.

(** X15. When [bufwrite] returns, [write] took a part of the pending
    bytes that is not empty: that part was appended to the output of the
    descriptor (the host output for descriptor 1, the link for the master),
    the bytes still pending are exactly the rest, [len] went down by the
    count and [ptr] up, and they still lie in [data]. *)
Theorem bufwrite_advances IFCONFIG k ev sc fd b w b' w' :
  bufwrite IFCONFIG k ev sc fd b w = (Ret b', w') ->
  exists written,
    written <> [] /\
    pending b = written ++ pending b' /\
    buf_len b' = buf_len b - Z.of_nat (List.length written) /\
    0 <= buf_len b' /\
    buf_ptr b' = buf_ptr b + Z.of_nat (List.length written) /\
    buf_data b' = buf_data b /\ in_data b' = true /\
    (fd = 1 /\ w_stdout w' = w_stdout w ++ written /\ w_linkout w' = w_linkout w
     \/ fd <> 1 /\ fd = k_getpt k /\
        w_linkout w' = w_linkout w ++ written /\ w_stdout w' = w_stdout w).
Proof.
  unfold bufwrite. destruct (in_data b) eqn:Hin; [|discriminate].
  pose proof (in_data_pending_length _ Hin) as Hlen.
  assert (Hgen : forall r,
    0 < r -> r <= Z.of_nat (List.length (pending b)) ->
    let written := firstn (Z.to_nat r) (pending b) in
    written <> [] /\
    pending b = written ++ pending (drained b r) /\
    buf_len (drained b r) = buf_len b - Z.of_nat (List.length written) /\
    0 <= buf_len (drained b r) /\
    buf_ptr (drained b r) = buf_ptr b + Z.of_nat (List.length written) /\
    buf_data (drained b r) = buf_data b /\ in_data (drained b r) = true).
  { intros r Hpos Hle written.
    assert (Hw : Z.of_nat (List.length written) = r).
    { unfold written. rewrite length_firstn. lia. }
    split.
    { intros Hnil. rewrite Hnil in Hw. simpl in Hw. lia. }
    rewrite drained_pending by (auto; lia).
    split; [unfold written; symmetry; apply firstn_skipn|].
    rewrite Hw. unfold drained at 1 2 3. cbn [buf_len buf_ptr buf_data].
    split; [reflexivity|]. split; [lia|]. split; [reflexivity|].
    split; [reflexivity|]. apply drained_in_data; [exact Hin | lia]. }
  unfold sys_write. unfold bind at 1.
  destruct (fd =? 1) eqn:E1.
  - apply Z.eqb_eq in E1.
    set (r := accepted (ev_accept_host ev) (pending b)).
    destruct (r <=? 0) eqn:Er.
    + intros H. apply failure_not_ret in H. contradiction.
    + apply Z.leb_gt in Er.
      pose proof (accepted_bound _ _ Er) as Hb. fold r in Hb.
      intros H. inversion H; subst b' w'. clear H.
      fold (drained b r).
      destruct (Hgen r Er Hb) as (G1 & G2 & G3 & G4 & G5 & G6 & G7).
      exists (firstn (Z.to_nat r) (pending b)). cbn [w_stdout w_linkout set_stdout].
      repeat (split; [assumption|]). left. auto.
  - apply Z.eqb_neq in E1.
    destruct (fd =? k_getpt k) eqn:E2.
    + apply Z.eqb_eq in E2.
      set (r := accepted (ev_accept_link ev) (pending b)).
      destruct (r <=? 0) eqn:Er.
      * intros H. apply failure_not_ret in H. contradiction.
      * apply Z.leb_gt in Er.
        pose proof (accepted_bound _ _ Er) as Hb. fold r in Hb.
        intros H. inversion H; subst b' w'. clear H.
        fold (drained b r).
        destruct (Hgen r Er Hb) as (G1 & G2 & G3 & G4 & G5 & G6 & G7).
        exists (firstn (Z.to_nat r) (pending b)).
        cbn [w_stdout w_linkout set_linkout].
        repeat (split; [assumption|]). right. auto.
    + change (-1 <=? 0) with true. cbv iota.
      intros H. apply failure_not_ret in H. contradiction.
Qed.

Lemma bufwrite_advances_witness :
  exists written,
    written <> [] /\
    pending (stdinbuf sample_state)
    = written ++ pending (drained (stdinbuf sample_state) 1) /\
    buf_len (drained (stdinbuf sample_state) 1)
    = buf_len (stdinbuf sample_state) - Z.of_nat (List.length written) /\
    0 <= buf_len (drained (stdinbuf sample_state) 1) /\
    buf_ptr (drained (stdinbuf sample_state) 1)
    = buf_ptr (stdinbuf sample_state) + Z.of_nat (List.length written) /\
    buf_data (drained (stdinbuf sample_state) 1)
    = buf_data (stdinbuf sample_state) /\
    in_data (drained (stdinbuf sample_state) 1) = true /\
    (4 = 1 /\
     w_stdout (set_linkout ["a"%char] (snd sample_turn))
     = w_stdout (snd sample_turn) ++ written /\
     w_linkout (set_linkout ["a"%char] (snd sample_turn))
     = w_linkout (snd sample_turn)
     \/ 4 <> 1 /\ 4 = k_getpt sample_kernel /\
        w_linkout (set_linkout ["a"%char] (snd sample_turn))
        = w_linkout (snd sample_turn) ++ written /\
        w_stdout (set_linkout ["a"%char] (snd sample_turn))
        = w_stdout (snd sample_turn)).
Proof.
  apply (bufwrite_advances sample_ifconfig sample_kernel (turn 0 16)
           sample_session 4 (stdinbuf sample_state) (snd sample_turn)
           (drained (stdinbuf sample_state) 1)
           (set_linkout ["a"%char] (snd sample_turn))).
  vm_compute. reflexivity.
Defined.

(** X16. When [bufread] returns, what it consumed from the descriptor is
    what the buffer then holds at [ptr], which is the start of [data]: at
    most [sizeof data] bytes, none when the stream was at its end, in a
    buffer of the same size. *)
Theorem bufread_fills IFCONFIG k ev sc fd b w b' w' :
  0 < sizeof (buf_data b) ->
  bufread IFCONFIG k ev sc fd b w = (Ret b', w') ->
  buf_ptr b' = 0 /\ in_data b' = true /\
  sizeof (buf_data b') = sizeof (buf_data b) /\
  (fd = 0 /\ w_stdin w = map Data (pending b') ++ w_stdin w' /\
   w_link w' = w_link w /\ (buf_len b' = 0 <-> w_stdin w = [])
   \/ fd <> 0 /\ fd = k_getpt k /\
      w_link w = map Data (pending b') ++ w_link w' /\
      w_stdin w' = w_stdin w /\ (buf_len b' = 0 <-> w_link w = [])).
Proof.
  intros Hsz. unfold bufread, sys_read.
  assert (Hgen : forall s chunk r cs s',
    stream_read s (sizeof (buf_data b)) chunk = (r, cs, s') ->
    (r <? 0) = false ->
    {| buf_len := r; buf_ptr := 0;
       buf_data := cs ++ skipn (List.length cs) (buf_data b) |} = filled b cs /\
    Z.of_nat (List.length cs) <= sizeof (buf_data b) /\
    s = map Data cs ++ s' /\ (r = 0 <-> s = [])).
  { intros s chunk r cs s' Hr Hneg.
    pose proof (stream_read_spec s (sizeof (buf_data b)) chunk Hsz) as Hspec.
    destruct s as [|[c|] s0].
    - rewrite Hspec in Hr. inversion Hr; subst.
      split; [reflexivity|]. split; [simpl; lia|]. split; [reflexivity|].
      tauto.
    - destruct Hspec as (cs0 & rest & Hrd & Hsplit & Hpos & Hle).
      rewrite Hrd in Hr. inversion Hr; subst.
      split; [reflexivity|]. split; [exact Hle|]. split; [exact Hsplit|].
      split; [lia | discriminate].
    - rewrite Hspec in Hr. inversion Hr; subst. discriminate. }
  unfold bind at 1.
  destruct (fd =? 0) eqn:E0.
  - apply Z.eqb_eq in E0.
    destruct (stream_read (w_stdin w) (sizeof (buf_data b)) (ev_chunk_host ev))
      as [[r cs] s'] eqn:Er.
    cbn [buf_len buf_data buf_ptr].
    destruct (r <? 0) eqn:En.
    + intros H. apply failure_not_ret in H. contradiction.
    + destruct (Hgen _ _ _ _ _ Er En) as (Hf & Hle & Hs & Hz).
      unfold ret. rewrite Hf. intros H. inversion H; subst b' w'. clear H.
      rewrite filled_pending, filled_in_data, filled_size by exact Hle.
      split; [reflexivity|]. split; [reflexivity|]. split; [reflexivity|].
      left. cbn. split; [exact E0|]. split; [exact Hs|]. split; [reflexivity|].
      rewrite <- Hz. apply (f_equal buf_len) in Hf. cbn in Hf.
      rewrite <- Hf. tauto.
  - apply Z.eqb_neq in E0.
    destruct (fd =? k_getpt k) eqn:E1.
    + apply Z.eqb_eq in E1.
      destruct (stream_read (w_link w) (sizeof (buf_data b)) (ev_chunk_link ev))
        as [[r cs] s'] eqn:Er.
      cbn [buf_len buf_data buf_ptr].
      destruct (r <? 0) eqn:En.
      * intros H. apply failure_not_ret in H. contradiction.
      * destruct (Hgen _ _ _ _ _ Er En) as (Hf & Hle & Hs & Hz).
        unfold ret. rewrite Hf. intros H. inversion H; subst b' w'. clear H.
        rewrite filled_pending, filled_in_data, filled_size by exact Hle.
        split; [reflexivity|]. split; [reflexivity|]. split; [reflexivity|].
        right. cbn. split; [exact E0|]. split; [exact E1|].
        split; [exact Hs|]. split; [reflexivity|].
        rewrite <- Hz. apply (f_equal buf_len) in Hf. cbn in Hf.
        rewrite <- Hf. tauto.
    + cbn [buf_len]. change (-1 <? 0) with true. cbv iota.
      intros H. apply failure_not_ret in H. contradiction.
Qed.

(** The first [bufread] of the sample run. *)
Definition sample_read : res buf * world :=
  bufread sample_ifconfig sample_kernel (turn 1 0) sample_session 0
    (stdinbuf (relay_init sample_kernel sample_session)) sample_world.

Definition sample_read_buf : buf :=
  match fst sample_read with
  | Ret b => b
  | _ => stdinbuf (relay_init sample_kernel sample_session)
  end.

Lemma bufread_fills_witness :
  buf_ptr sample_read_buf = 0 /\ in_data sample_read_buf = true /\
  sizeof (buf_data sample_read_buf)
  = sizeof (buf_data (stdinbuf (relay_init sample_kernel sample_session))) /\
  (0 = 0 /\
   w_stdin sample_world
   = map Data (pending sample_read_buf) ++ w_stdin (snd sample_read) /\
   w_link (snd sample_read) = w_link sample_world /\
   (buf_len sample_read_buf = 0 <-> w_stdin sample_world = [])
   \/ 0 <> 0 /\ 0 = k_getpt sample_kernel /\
      w_link sample_world
      = map Data (pending sample_read_buf) ++ w_link (snd sample_read) /\
      w_stdin (snd sample_read) = w_stdin sample_world /\
      (buf_len sample_read_buf = 0 <-> w_link sample_world = [])).
Proof.
  apply (bufread_fills sample_ifconfig sample_kernel (turn 1 0) sample_session
           0 (stdinbuf (relay_init sample_kernel sample_session)) sample_world
           sample_read_buf (snd sample_read)).
  - vm_compute. reflexivity.
  - vm_compute. reflexivity.
Defined.

(** ** The blocks of the loop *)

(** X17. A read of length zero from the master does not end the relay,
    unlike one from descriptor 0: the block returns, nothing is logged,
    and the registrations are as before, so the master stays registered
    for reading. *)
Theorem link_eof_is_ignored IFCONFIG k ev sc st w :
  sc_masterfd sc = k_getpt k -> sc_masterfd sc <> 0 ->
  w_link w = [] ->
  exists st',
    link_readable IFCONFIG k ev sc st w = (Ret st', set_link [] w) /\
    rfds st' = rfds st /\ wfds st' = wfds st /\
    stdinbuf st' = stdinbuf st /\ buf_len (stdoutbuf st') = 0.
Proof.
  intros Hm H0 Hl. unfold link_readable, bufread, sys_read.
  unfold bind at 1. unfold bind at 1.
  replace (sc_masterfd sc =? 0) with false by (symmetry; apply Z.eqb_neq; exact H0).
  replace (sc_masterfd sc =? k_getpt k) with true
    by (symmetry; apply Z.eqb_eq; exact Hm).
  rewrite Hl. cbn. eexists. split; [reflexivity|]. cbn. auto.
Qed.

Lemma link_eof_is_ignored_witness :
  exists st',
    link_readable sample_ifconfig sample_kernel (turn 16 0) sample_session
      (relay_init sample_kernel sample_session) (set_link [] sample_world)
    = (Ret st', set_link [] (set_link [] sample_world)) /\
    rfds st' = rfds (relay_init sample_kernel sample_session) /\
    wfds st' = wfds (relay_init sample_kernel sample_session) /\
    stdinbuf st' = stdinbuf (relay_init sample_kernel sample_session) /\
    buf_len (stdoutbuf st') = 0.
Proof.
  apply (link_eof_is_ignored sample_ifconfig sample_kernel (turn 16 0)
           sample_session (relay_init sample_kernel sample_session)
           (set_link [] sample_world)).
  - vm_compute. reflexivity.
  - vm_compute. discriminate.
  - reflexivity.
Defined.

Lemma host_read_error_status IFCONFIG k sc down ev st w s :
  stop_command IFCONFIG sc = Some down -> overflows 1024 down = false ->
  w_stdin w = Fault :: s ->
  fst (host_readable IFCONFIG k ev sc st w) = Exit 1.
Proof.
  intros Hd Hf Hs. unfold host_readable, bufread, sys_read.
  unfold bind at 1. unfold bind at 1. cbn [Z.eqb]. rewrite Hs.
  cbn -[slip_stop].
  rewrite (stop_exit_run IFCONFIG k sc down Hd Hf). reflexivity.
Qed.

Lemma host_write_error_status IFCONFIG k sc down ev st w :
  stop_command IFCONFIG sc = Some down -> overflows 1024 down = false ->
  in_data (stdoutbuf st) = true ->
  accepted (ev_accept_host ev) (pending (stdoutbuf st)) <= 0 ->
  fst (host_writable IFCONFIG k ev sc st w) = Exit 1.
Proof.
  intros Hd Hf Hin Hr. unfold host_writable, bufwrite, sys_write. rewrite Hin.
  unfold bind at 1. unfold bind at 1. cbn [Z.eqb Pos.eqb].
  apply Z.leb_le in Hr. rewrite Hr. cbn -[slip_stop].
  rewrite (stop_exit_run IFCONFIG k sc down Hd Hf). reflexivity.
Qed.


(** The sample run when the line is read first, and a turn in which
    descriptor 1 is ready for writing and takes nothing. *)
Definition sample_link_turn : res relay * world :=
  relay_iter sample_ifconfig sample_kernel (turn 16 0) sample_session
    (relay_init sample_kernel sample_session) sample_world.

Definition sample_link_state : relay :=
  match fst sample_link_turn with
  | Ret st => st
  | _ => relay_init sample_kernel sample_session
  end.

Definition host_stalled : iter_env :=
  {| ev_signal := false; ev_select_fail := false;
     ev_ready_r := 0; ev_ready_w := 2;
     ev_chunk_host := 2; ev_chunk_link := 16; ev_accept_link := 1;
     ev_accept_host := 0 |}.


(** ** Signals *)

Lemma establish_go IFCONFIG k sc w0 :
  establish IFCONFIG k (boot k) = (Ret sc, w0) ->
  k_signal_early k = true -> w_go w0 = 0.
Proof.
  unfold establish. unfold bind at 1. unfold sig_setup, ret.
  unfold bind at 1.
  destruct (login k (frame_sc k) (boot k)) as [[sc1|c| |] w1];
    try discriminate.
  unfold bind at 1. unfold setuid, emit. unfold bind at 1.
  destruct (slip_start IFCONFIG k sc1 _) as [[sc2|c| |] w3]; try discriminate.
  intros H Hs. rewrite Hs in H. unfold bind, deliver, sig_catch in H.
  inversion H; subst. reflexivity.
Qed.

Lemma relay_loop_stopped IFCONFIG k evs sc st w :
  w_go w = 0 -> relay_loop IFCONFIG k evs sc st w = (Ret st, w).
Proof.
  intros Hg. destruct evs; simpl; rewrite Hg; reflexivity.
Qed.


(** The sample kernel with a signal before the loop. *)
Definition signalled_kernel : kernel :=
  {| k_stdin := k_stdin sample_kernel; k_link := k_link sample_kernel;
     k_passwd := k_passwd sample_kernel; k_config := k_config sample_kernel;
     k_getpt := 4; k_grantpt := 0; k_unlockpt := 0; k_ptsname_r := 0;
     k_open := 5; k_tcgetattr := 0; k_tcsetattr := 0;
     k_tiocgetd := (0, 0); k_tiocsetd := 0; k_siocsifencap := 0;
     k_tiocgetd2 := (0, N_SLIP); k_siocgifencap := (0, 0);
     k_tiocsetd_restore := 0; k_signal_early := true;
     k_events := k_events sample_kernel;
     k_frame_chars := fun _ => "x"%char;
     k_frame_ints := fun _ => 77;
     k_frame_cfg := no_cfg |}.

Definition signalled_start : res slipconn * world :=
  establish sample_ifconfig signalled_kernel (boot signalled_kernel).

Definition signalled_session : slipconn :=
  match fst signalled_start with
  | Ret sc => sc
  | _ => frame_sc signalled_kernel
  end.


(** X20. A signal caught during a turn of the loop: the turn is finished,
    [go] is 0 afterwards, and the loop is left at its next test whatever
    the descriptors would still offer. *)
Theorem signal_ends_loop IFCONFIG k ev evs sc st w st' w' :
  ev_signal ev = true ->
  w_go w <> 0 ->
  relay_iter IFCONFIG k ev sc st w = (Ret st', w') ->
  w_go w' = 0 /\
  relay_loop IFCONFIG k (ev :: evs) sc st w = (Ret st', w').
Proof.
  intros Hs Hgo H.
  assert (Hg : w_go w' = 0).
  { revert H. unfold relay_iter.
    destruct (sys_select _ _ _ _) as [[n readfds] writefds].
    match goal with |- bind ?m _ w = _ -> _ =>
      unfold bind at 1; destruct (m w) as [[st1|c| |] w1]; try discriminate
    end.
    rewrite Hs. unfold deliver, sig_catch, bind, ret.
    intros H; inversion H; subst. reflexivity. }
  split; [exact Hg|]. cbn [relay_loop].
  replace (w_go w =? 0) with false by (symmetry; apply Z.eqb_neq; exact Hgo).
  unfold bind. rewrite H. apply relay_loop_stopped. exact Hg.
Qed.

(** A turn of the sample run during which a signal is caught. *)
Definition interrupted : iter_env :=
  {| ev_signal := true; ev_select_fail := false;
     ev_ready_r := 1; ev_ready_w := 0;
     ev_chunk_host := 2; ev_chunk_link := 16; ev_accept_link := 1;
     ev_accept_host := 16 |}.

Definition interrupted_turn : res relay * world :=
  relay_iter sample_ifconfig sample_kernel interrupted sample_session
    (relay_init sample_kernel sample_session) sample_world.

Definition interrupted_state : relay :=
  match fst interrupted_turn with
  | Ret st => st
  | _ => relay_init sample_kernel sample_session
  end.

Lemma signal_ends_loop_witness :
  w_go (snd interrupted_turn) = 0 /\
  relay_loop sample_ifconfig sample_kernel [interrupted; turn 17 18]
    sample_session (relay_init sample_kernel sample_session) sample_world
  = (Ret interrupted_state, snd interrupted_turn).
Proof.
  apply (signal_ends_loop sample_ifconfig sample_kernel interrupted
           [turn 17 18] sample_session
           (relay_init sample_kernel sample_session) sample_world
           interrupted_state (snd interrupted_turn)).
  - reflexivity.
  - vm_compute. discriminate.
  - vm_compute. reflexivity.
Defined.

(** ** The status of the process *)

(** A call that ends the process does so with status 0 or 1. *)
Definition codes {A} (m : M A) : Prop :=
  forall w,
    match fst (m w) with
    | Exit c => c = 0 \/ c = 1
    | _ => True
    end.

Lemma codes_ret {A} (a : A) : codes (ret a).
Proof. intros w. exact I. Qed.

Lemma codes_exit {A} c : c = 0 \/ c = 1 -> codes (@exit A c).
Proof. intros H w. exact H. Qed.

Lemma codes_bind {A B} (m : M A) (f : A -> M B) :
  codes m -> (forall a, codes (f a)) -> codes (bind m f).
Proof.
  intros Hm Hf w. unfold bind. specialize (Hm w).
  destruct (m w) as [[a|c| |] w1]; cbn [fst] in *; auto.
  apply Hf.
Qed.

Lemma codes_emit e : codes (emit e).
Proof. intros w. exact I. Qed.

Lemma slip_stop_codes IFCONFIG k sc : codes (slip_stop IFCONFIG k sc).
Proof.
  intros w. pose proof (slip_stop_open IFCONFIG k sc w) as H.
  destruct (slip_stop IFCONFIG k sc w) as [[[]|c| |] w']; cbn; auto.
  contradiction.
Qed.

Lemma failure_codes IFCONFIG k sc {A} msg :
  codes (perror msg ;; slip_stop IFCONFIG k sc ;; @exit A 1)%vmnet.
Proof.
  apply codes_bind; [apply codes_emit|]. intros _.
  apply codes_bind; [apply slip_stop_codes|]. intros _.
  apply codes_exit. auto.
Qed.

Lemma bufread_codes IFCONFIG k ev sc fd b :
  codes (bufread IFCONFIG k ev sc fd b).
Proof.
  unfold bufread. apply codes_bind.
  - intros w. unfold sys_read.
    destruct (fd =? 0); [destruct (stream_read _ _ _) as [[r cs] s]; exact I|].
    destruct (fd =? k_getpt k);
      [destruct (stream_read _ _ _) as [[r cs] s]; exact I | exact I].
  - intros [r cs]. cbn [buf_len buf_data].
    destruct (r <? 0); [apply failure_codes | apply codes_ret].
Qed.

Lemma bufwrite_codes IFCONFIG k ev sc fd b :
  codes (bufwrite IFCONFIG k ev sc fd b).
Proof.
  unfold bufwrite. destruct (in_data b); [|intros w; exact I].
  apply codes_bind.
  - intros w. unfold sys_write.
    destruct (fd =? 1); [exact I|]. destruct (fd =? k_getpt k); exact I.
  - intros r. destruct (r <=? 0); [apply failure_codes | apply codes_ret].
Qed.

Lemma relay_iter_codes IFCONFIG k ev sc st :
  codes (relay_iter IFCONFIG k ev sc st).
Proof.
  unfold relay_iter.
  destruct (sys_select _ _ _ _) as [[n readfds] writefds].
  apply codes_bind.
  - destruct (n >? 0); [|apply codes_ret].
    apply codes_bind.
    { unfold when. destruct (FD_ISSET 0 readfds); [|apply codes_ret].
      unfold host_readable. apply codes_bind; [apply bufread_codes|].
      intros b. apply codes_bind.
      - destruct (_ =? 0); [|apply codes_ret].
        apply codes_bind; [apply slip_stop_codes|]. intros _.
        apply codes_exit. auto.
      - intros _. destruct (negb _); apply codes_ret. }
    intros st1. apply codes_bind.
    { unfold when. destruct (FD_ISSET _ readfds); [|apply codes_ret].
      unfold link_readable. apply codes_bind; [apply bufread_codes|].
      intros b. destruct (negb _); apply codes_ret. }
    intros st2. apply codes_bind.
    { unfold when. destruct (FD_ISSET _ writefds); [|apply codes_ret].
      unfold link_writable. apply codes_bind; [apply bufwrite_codes|].
      intros b. destruct (_ =? 0); apply codes_ret. }
    intros st3.
    unfold when. destruct (FD_ISSET 1 writefds); [|apply codes_ret].
    unfold host_writable. apply codes_bind; [apply bufwrite_codes|].
    intros b. destruct (_ =? 0); apply codes_ret.
  - intros st1. apply codes_bind; [|intros; apply codes_ret].
    intros w. unfold deliver, sig_catch, ret. destruct (ev_signal ev); exact I.
Qed.

Lemma relay_loop_codes IFCONFIG k sc evs :
  forall st, codes (relay_loop IFCONFIG k evs sc st).
Proof.
  induction evs as [|ev evs IH]; intros st w; simpl.
  - destruct (w_go w =? 0); exact I.
  - destruct (w_go w =? 0); [exact I|].
    apply (codes_bind (relay_iter IFCONFIG k ev sc st)
             (fun st' => relay_loop IFCONFIG k evs sc st')).
    + apply relay_iter_codes.
    + exact IH.
Qed.

(** X21. The status of the process is 0 or 1: [main] returns only 0, and
    every [exit] of a run has status 0 or 1; a run that exits before the
    link is up has status 1, so status 0 is that of a run whose link was
    established. *)
Theorem main_exit_status IFCONFIG k :
  match main IFCONFIG k (boot k) with
  | (Ret c, _) => c = 0
  | (Exit c, _) =>
      c = 1 \/
      c = 0 /\ exists sc w0, establish IFCONFIG k (boot k) = (Ret sc, w0)
  | _ => True
  end.
Proof.
  rewrite main_establish. unfold bind at 1.
  destruct (establish IFCONFIG k (boot k)) as [[sc|c| |] w0] eqn:E; auto.
  2:{ destruct (establish_spec _ _ _ _ E) as [_ [Hc _]]. auto. }
  unfold bind at 1.
  pose proof (relay_loop_codes IFCONFIG k sc (k_events k) (relay_init k sc) w0)
    as Hloop.
  destruct (relay_loop IFCONFIG k (k_events k) sc (relay_init k sc) w0)
    as [[st|c| |] w1]; cbn [fst] in Hloop; auto.
  - unfold bind at 1. pose proof (slip_stop_open IFCONFIG k sc w1) as Hstop.
    destruct (slip_stop IFCONFIG k sc w1) as [[[]|c| |] w2];
      try contradiction; cbn; auto.
  - destruct Hloop as [-> | ->]; [right | left]; eauto.
Qed.

(** ** The turns of the loop *)

(** X22. A turn in which [select] fails (a signal interrupted it) or
    reports no descriptor does no input or output and leaves the buffers
    and the registrations as they are; only a signal caught during the
    turn clears [go]. *)
Theorem idle_turn_does_nothing IFCONFIG k ev sc st w :
  ev_select_fail ev = true
  \/ Z.land (rfds st) (ev_ready_r ev) = 0 /\ Z.land (wfds st) (ev_ready_w ev) = 0 ->
  relay_iter IFCONFIG k ev sc st w
  = (Ret st, if ev_signal ev then set_go 0 w else w).
Proof.
  intros H. unfold relay_iter, sys_select.
  assert (Hd : forall (st1 : relay) w1,
    (deliver (ev_signal ev) ;; ret st1)%vmnet w1
    = (Ret st1, if ev_signal ev then set_go 0 w1 else w1)).
  { intros st1 w1. unfold bind, deliver, sig_catch, ret.
    destruct (ev_signal ev); reflexivity. }
  destruct (ev_select_fail ev) eqn:Ef.
  - change (-1 >? 0) with false. cbv iota. unfold bind at 1. unfold ret at 1.
    apply Hd.
  - destruct H as [H | [Hr Hw]]; [discriminate|].
    rewrite Hr, Hw. cbn [Z.land popcount Z.add].
    change (0 >? 0) with false. cbv iota. unfold bind at 1. unfold ret at 1.
    apply Hd.
Qed.

Lemma idle_turn_does_nothing_witness :
  relay_iter sample_ifconfig sample_kernel (turn 2 0) sample_session
    (relay_init sample_kernel sample_session) sample_world
  = (Ret (relay_init sample_kernel sample_session),
     if ev_signal (turn 2 0) then set_go 0 sample_world else sample_world).
Proof.
  apply (idle_turn_does_nothing sample_ifconfig sample_kernel (turn 2 0)
           sample_session (relay_init sample_kernel sample_session)
           sample_world).
  right. split; vm_compute; reflexivity.
Defined.

(** *** The two directions *)

Lemma bind_ret_inv {A B} (m : M A) (f : A -> M B) w b w' :
  bind m f w = (Ret b, w') ->
  exists a w1, m w = (Ret a, w1) /\ f a w1 = (Ret b, w').
Proof.
  unfold bind. destruct (m w) as [[a|c| |] w1]; try discriminate. eauto.
Qed.

(** The world after a [bufread] or a [bufwrite] that returned: only the
    stream of the descriptor changed. *)
Lemma bufread_ret_world IFCONFIG k ev sc fd b w b' w' :
  bufread IFCONFIG k ev sc fd b w = (Ret b', w') ->
  (fd = 0 /\ w' = set_stdin (w_stdin w') w) \/
  (fd <> 0 /\ w' = set_link (w_link w') w).
Proof.
  unfold bufread. intros H.
  apply bind_ret_inv in H. destruct H as ([r cs] & w1 & Hr & H).
  cbn [buf_len buf_data] in H.
  destruct (r <? 0); [apply failure_not_ret in H; contradiction|].
  unfold ret in H. inversion H; subst b' w'. clear H.
  unfold sys_read in Hr. destruct (fd =? 0) eqn:E0.
  - apply Z.eqb_eq in E0. left. split; [exact E0|].
    destruct (stream_read _ _ _) as [[r0 cs0] s]. inversion Hr; subst.
    reflexivity.
  - apply Z.eqb_neq in E0. right. split; [exact E0|].
    destruct (fd =? k_getpt k).
    + destruct (stream_read _ _ _) as [[r0 cs0] s]. inversion Hr; subst.
      reflexivity.
    + inversion Hr; subst. destruct w1; reflexivity.
Qed.

Lemma bufwrite_ret_world IFCONFIG k ev sc fd b w b' w' :
  bufwrite IFCONFIG k ev sc fd b w = (Ret b', w') ->
  (fd = 1 /\ w' = set_stdout (w_stdout w') w) \/
  (fd <> 1 /\ w' = set_linkout (w_linkout w') w).
Proof.
  unfold bufwrite. destruct (in_data b); [|discriminate]. intros H.
  apply bind_ret_inv in H. destruct H as (r & w1 & Hr & H).
  destruct (r <=? 0); [apply failure_not_ret in H; contradiction|].
  unfold ret in H. inversion H; subst b' w'. clear H.
  unfold sys_write in Hr. destruct (fd =? 1) eqn:E1.
  - apply Z.eqb_eq in E1. left. split; [exact E1|].
    inversion Hr; subst. reflexivity.
  - apply Z.eqb_neq in E1. right. split; [exact E1|].
    destruct (fd =? k_getpt k); inversion Hr; subst;
      [reflexivity | destruct w1; reflexivity].
Qed.

Section Directions.

Variable IFCONFIG : string.
Variable k : kernel.
Variable sc : slipconn.
Hypothesis master_fresh : 1 < sc_masterfd sc.

(** A block that returns leaves one direction as it was. *)
Definition keeps_l2h (m : relay -> M relay) : Prop :=
  forall st w st' w', m st w = (Ret st', w') -> l2h_same sc st w st' w'.

Definition keeps_h2l (m : relay -> M relay) : Prop :=
  forall st w st' w', m st w = (Ret st', w') -> h2l_same sc st w st' w'.

Lemma master_above_0 : (sc_masterfd sc =? 0) = false.
Proof. apply Z.eqb_neq. lia. Qed.

Lemma master_above_1 : (sc_masterfd sc =? 1) = false.
Proof. apply Z.eqb_neq. lia. Qed.

Lemma zero_below_master : (0 =? sc_masterfd sc) = false.
Proof. apply Z.eqb_neq. lia. Qed.

Lemma one_below_master : (1 =? sc_masterfd sc) = false.
Proof. apply Z.eqb_neq. lia. Qed.

Ltac bits :=
  rewrite ?FD_ISSET_CLR; rewrite ?FD_ISSET_SET by lia;
  rewrite ?master_above_0, ?master_above_1, ?zero_below_master,
    ?one_below_master, ?Z.eqb_refl;
  cbn [negb orb andb];
  rewrite ?andb_true_r, ?andb_false_r, ?orb_false_r.

Lemma host_readable_keeps ev : keeps_l2h (host_readable IFCONFIG k ev sc).
Proof.
  intros st w st' w' H. unfold host_readable in H.
  apply bind_ret_inv in H. destruct H as (b & w1 & Hb & H).
  destruct (bufread_ret_world _ _ _ _ _ _ _ _ _ Hb) as [[_ Hw] | [H0 _]];
    [|congruence].
  apply bind_ret_inv in H. destruct H as ([] & w2 & Hz & H).
  cbn [stdinbuf set_stdinbuf] in Hz, H.
  destruct (buf_len b =? 0);
    [apply bind_exit_not_ret in Hz; contradiction|].
  unfold ret in Hz, H. cbn [negb] in H.
  inversion Hz; subst w2. inversion H; subst st' w'. clear H Hz.
  rewrite Hw. unfold l2h_same. cbn. bits. auto.
Qed.

Lemma link_writable_keeps ev : keeps_l2h (link_writable IFCONFIG k ev sc).
Proof.
  intros st w st' w' H. unfold link_writable in H.
  apply bind_ret_inv in H. destruct H as (b & w1 & Hb & H).
  destruct (bufwrite_ret_world _ _ _ _ _ _ _ _ _ Hb) as [[H1 _] | [_ Hw]];
    [lia|].
  cbn [stdinbuf set_stdinbuf] in H.
  destruct (buf_len b =? 0); unfold ret in H; inversion H; subst st' w';
    rewrite Hw; unfold l2h_same; cbn; bits; auto.
Qed.

Lemma link_readable_keeps ev : keeps_h2l (link_readable IFCONFIG k ev sc).
Proof.
  intros st w st' w' H. unfold link_readable in H.
  apply bind_ret_inv in H. destruct H as (b & w1 & Hb & H).
  destruct (bufread_ret_world _ _ _ _ _ _ _ _ _ Hb) as [[H0 _] | [_ Hw]];
    [lia|].
  cbn [stdoutbuf set_stdoutbuf] in H.
  destruct (negb (buf_len b =? 0)); unfold ret in H; inversion H; subst st' w';
    rewrite Hw; unfold h2l_same; cbn; bits; auto.
Qed.

Lemma host_writable_keeps ev : keeps_h2l (host_writable IFCONFIG k ev sc).
Proof.
  intros st w st' w' H. unfold host_writable in H.
  apply bind_ret_inv in H. destruct H as (b & w1 & Hb & H).
  destruct (bufwrite_ret_world _ _ _ _ _ _ _ _ _ Hb) as [[_ Hw] | [H1 _]];
    [|congruence].
  cbn [stdoutbuf set_stdoutbuf] in H.
  destruct (buf_len b =? 0); unfold ret in H; inversion H; subst st' w';
    rewrite Hw; unfold h2l_same; cbn; bits; auto.
Qed.

(** X23. The two directions do not touch each other.  The blocks of
    descriptor 0 readable and of the master writable leave the buffer,
    the streams and the registrations of the direction from the link to
    the host as they are; the blocks of the master readable and of
    descriptor 1 writable leave those of the direction from the host to
    the link.  The master is a descriptor above 1. *)
Theorem directions_are_independent ev :
  keeps_l2h (host_readable IFCONFIG k ev sc) /\
  keeps_l2h (link_writable IFCONFIG k ev sc) /\
  keeps_h2l (link_readable IFCONFIG k ev sc) /\
  keeps_h2l (host_writable IFCONFIG k ev sc).
Proof.
  split; [apply host_readable_keeps|].
  split; [apply link_writable_keeps|].
  split; [apply link_readable_keeps | apply host_writable_keeps].
Qed.

End Directions.

Lemma directions_are_independent_witness :
  keeps_l2h sample_session
    (host_readable sample_ifconfig sample_kernel (turn 1 0) sample_session) /\
  keeps_l2h sample_session
    (link_writable sample_ifconfig sample_kernel (turn 1 0) sample_session) /\
  keeps_h2l sample_session
    (link_readable sample_ifconfig sample_kernel (turn 1 0) sample_session) /\
  keeps_h2l sample_session
    (host_writable sample_ifconfig sample_kernel (turn 1 0) sample_session).
Proof.
  apply (directions_are_independent sample_ifconfig sample_kernel
           sample_session).
  vm_compute. reflexivity.
Defined.

(** ** The relay under a kernel that lets it run *)

(** A turn in which no signal is caught, [select] succeeds and reports
    every descriptor ready, and a [write] takes at least one byte. *)
Definition fair (ev : iter_env) : Prop :=
  ev_signal ev = false /\ ev_select_fail ev = false /\
  ev_ready_r ev = -1 /\ ev_ready_w ev = -1 /\
  0 < ev_accept_link ev /\ 0 < ev_accept_host ev.

(** A stream without read errors. *)
Definition data_only (s : stream) : Prop := Forall (fun i => i <> Fault) s.

Lemma data_only_map cs : data_only (map Data cs).
Proof.
  induction cs as [|c cs IH]; constructor; [discriminate | exact IH].
Qed.

Lemma data_only_rest a b : data_only (a ++ b) -> data_only b.
Proof. intros H. apply Forall_app in H. tauto. Qed.

Lemma sys_select_fair ev nfds readfds writefds n r w fd :
  ev_select_fail ev = false -> ev_ready_r ev = -1 -> ev_ready_w ev = -1 ->
  sys_select ev nfds readfds writefds = (n, r, w) ->
  0 <= fd < nfds ->
  FD_ISSET fd r = FD_ISSET fd readfds /\ FD_ISSET fd w = FD_ISSET fd writefds.
Proof.
  unfold sys_select. intros Hf Hr Hw H Hfd. rewrite Hf, Hr, Hw in H.
  inversion H; subst. unfold FD_ISSET.
  rewrite !Z.land_spec, Z.ones_spec_low, !Z.bits_m1 by lia.
  rewrite !andb_true_r. auto.
Qed.

Section Liveness.

Variable IFCONFIG : string.
Variable k : kernel.
Variable sc : slipconn.
Variable down : string.
Variable w0 : world.
Hypothesis master_pty : sc_masterfd sc = k_getpt k.
Hypothesis master_fresh : 1 < sc_masterfd sc.
Hypothesis stop_ok : stop_command IFCONFIG sc = Some down.
Hypothesis stop_fits : overflows 1024 down = false.

(** The loop goes on and neither input has a read error ahead. *)
Definition running (w : world) : Prop :=
  w_go w <> 0 /\ data_only (w_stdin w) /\ data_only (w_link w).

(** What the direction from the host to the link still has to do: two
    steps for each byte not yet read, one for each byte read and not yet
    written. *)
Definition owed (st : relay) (w : world) : nat :=
  (2 * List.length (w_stdin w)
   + (if FD_ISSET 0 (rfds st) then 0 else Z.to_nat (buf_len (stdinbuf st))))%nat.

Lemma owed_same st w st' w' :
  h2l_same sc st w st' w' -> owed st' w' = owed st w.
Proof.
  intros (H1 & _ & H3 & H4 & _). unfold owed. rewrite H1, H3, H4. reflexivity.
Qed.

(** *** The blocks, when they have something to do *)

Lemma host_readable_data ev st w c s :
  sizeof (buf_data (stdinbuf st)) = 16 * 1024 ->
  w_stdin w = Data c :: s ->
  exists cs rest st',
    host_readable IFCONFIG k ev sc st w = (Ret st', set_stdin rest w) /\
    w_stdin w = map Data cs ++ rest /\ (0 < List.length cs)%nat /\
    FD_ISSET 0 (rfds st') = false /\
    buf_len (stdinbuf st') = Z.of_nat (List.length cs).
Proof.
  intros Hsz Es. unfold host_readable, bufread, sys_read.
  pose proof (stream_read_spec (w_stdin w) (sizeof (buf_data (stdinbuf st)))
                (ev_chunk_host ev)) as Hread.
  rewrite Hsz in Hread. specialize (Hread eq_refl).
  unfold bind at 1. unfold bind at 1. cbn [Z.eqb]. rewrite Hsz.
  rewrite Es in Hread |- *.
  destruct Hread as (cs & rest & Hrd & Hsplit & Hpos & Hle).
  rewrite Hrd. cbn -[slip_stop Z.of_nat].
  replace (Z.of_nat (List.length cs) <? 0) with false
    by (symmetry; apply Z.ltb_ge; lia).
  cbn -[slip_stop Z.of_nat].
  replace (Z.of_nat (List.length cs) =? 0) with false
    by (symmetry; apply Z.eqb_neq; lia).
  cbn -[Z.of_nat].
  exists cs, rest. eexists. split; [reflexivity|].
  split; [exact Hsplit|]. split; [exact Hpos|].
  cbn -[Z.of_nat]. rewrite FD_ISSET_CLR, Z.eqb_refl, andb_false_r. auto.
Qed.

Lemma link_readable_clean ev st w :
  sizeof (buf_data (stdoutbuf st)) = 16 * 1024 ->
  data_only (w_link w) ->
  exists st' rest,
    link_readable IFCONFIG k ev sc st w = (Ret st', set_link rest w) /\
    data_only rest.
Proof.
  intros Hsz Hd. unfold link_readable, bufread, sys_read.
  pose proof (stream_read_spec (w_link w) (sizeof (buf_data (stdoutbuf st)))
                (ev_chunk_link ev)) as Hread.
  rewrite Hsz in Hread. specialize (Hread eq_refl).
  unfold bind at 1. unfold bind at 1.
  replace (sc_masterfd sc =? 0) with false by (symmetry; apply Z.eqb_neq; lia).
  replace (sc_masterfd sc =? k_getpt k) with true
    by (symmetry; apply Z.eqb_eq; exact master_pty).
  rewrite Hsz.
  destruct (w_link w) as [|[c|] s'] eqn:Es.
  - rewrite Hread. cbn. eexists. exists []. split; [reflexivity | constructor].
  - destruct Hread as (cs & rest & Hrd & Hsplit & Hpos & Hle).
    rewrite Hrd. cbn -[slip_stop Z.of_nat].
    replace (Z.of_nat (List.length cs) <? 0) with false
      by (symmetry; apply Z.ltb_ge; lia).
    cbn -[slip_stop Z.of_nat].
    replace (Z.of_nat (List.length cs) =? 0) with false
      by (symmetry; apply Z.eqb_neq; lia).
    cbn -[Z.of_nat]. eexists. exists rest. split; [reflexivity|].
    rewrite Hsplit in Hd. eapply data_only_rest; eauto.
  - inversion Hd as [|? ? Hc _]. congruence.
Qed.

Lemma accepted_positive a bytes :
  0 < a -> (0 < List.length bytes)%nat ->
  0 < accepted a bytes <= Z.of_nat (List.length bytes).
Proof.
  intros Ha Hb. unfold accepted.
  replace (a <=? 0) with false by (symmetry; apply Z.leb_gt; lia). lia.
Qed.

Lemma link_writable_accepts ev st w :
  in_data (stdinbuf st) = true -> 0 < buf_len (stdinbuf st) ->
  FD_ISSET 0 (rfds st) = false ->
  0 < ev_accept_link ev ->
  exists st' out,
    link_writable IFCONFIG k ev sc st w = (Ret st', set_linkout out w) /\
    (FD_ISSET 0 (rfds st') = true
     \/ FD_ISSET 0 (rfds st') = false /\
        0 <= buf_len (stdinbuf st') < buf_len (stdinbuf st)).
Proof.
  intros Hin Hpos Hr Ha. unfold link_writable, bufwrite, sys_write. rewrite Hin.
  unfold bind at 1. unfold bind at 1.
  replace (sc_masterfd sc =? 1) with false by (symmetry; apply Z.eqb_neq; lia).
  replace (sc_masterfd sc =? k_getpt k) with true
    by (symmetry; apply Z.eqb_eq; exact master_pty).
  pose proof (in_data_pending_length _ Hin) as Hlen.
  destruct (accepted_positive (ev_accept_link ev) (pending (stdinbuf st)) Ha
              ltac:(lia)) as [Hr1 Hr2].
  set (r := accepted (ev_accept_link ev) (pending (stdinbuf st))) in *.
  replace (r <=? 0) with false by (symmetry; apply Z.leb_gt; lia).
  cbn.
  destruct (buf_len (stdinbuf st) - r =? 0) eqn:Ez.
  - cbn. eexists. eexists. split; [reflexivity|]. left. cbn.
    rewrite FD_ISSET_SET by lia. reflexivity.
  - apply Z.eqb_neq in Ez. cbn. eexists. eexists. split; [reflexivity|].
    right. cbn. split; [exact Hr | lia].
Qed.

Lemma host_writable_accepts ev st w :
  in_data (stdoutbuf st) = true -> 0 < buf_len (stdoutbuf st) ->
  0 < ev_accept_host ev ->
  exists st' out,
    host_writable IFCONFIG k ev sc st w = (Ret st', set_stdout out w).
Proof.
  intros Hin Hpos Ha. unfold host_writable, bufwrite, sys_write. rewrite Hin.
  unfold bind at 1. unfold bind at 1. cbn [Z.eqb Pos.eqb].
  pose proof (in_data_pending_length _ Hin) as Hlen.
  destruct (accepted_positive (ev_accept_host ev) (pending (stdoutbuf st)) Ha
              ltac:(lia)) as [Hr1 Hr2].
  set (r := accepted (ev_accept_host ev) (pending (stdoutbuf st))) in *.
  replace (r <=? 0) with false by (symmetry; apply Z.leb_gt; lia).
  cbn. destruct (_ =? 0); cbn; eexists; eexists; reflexivity.
Qed.

(** *** One turn *)

(** A block of a turn that began with [start] steps owed: it returns, or
    the process exits with status 0. *)
Definition live (P : world -> Prop) (m : M relay)
  (Q : relay -> world -> Prop) : Prop :=
  forall w, P w ->
    match m w with
    | (Ret st', w') => Q st' w'
    | (Exit c, _) => c = 0
    | _ => False
    end.

Lemma live_bind P m Q f R :
  live P m Q -> (forall st, live (Q st) (f st) R) -> live P (bind m f) R.
Proof.
  intros Hm Hf w HP. unfold bind. specialize (Hm w HP).
  destruct (m w) as [[st'|c| |] w']; try exact Hm.
  apply (Hf st' w' Hm).
Qed.

Section FairTurn.

Variables c1 c2 c3 c4 : bool.
Variable ev : iter_env.
Variable start : nat.
Hypothesis ev_fair : fair ev.

(** Until the block of the master writable, the direction from the host to
    the link has made a step, or that block is still to run. *)
Definition stepped (st : relay) (w : world) : Prop :=
  (owed st w < start)%nat \/ c3 = true /\ (owed st w <= start)%nat.

Lemma live1 st :
  live (fun w => before1 sc w0 c1 c2 c3 c4 st w /\ running w /\
                 owed st w = start /\ (c1 = true \/ c3 = true))
    (when c1 (host_readable IFCONFIG k ev sc) st)
    (fun st' w' => before2 sc w0 c2 c3 c4 st' w' /\ running w' /\ stepped st' w').
Proof.
  intros w (Hb & (Hgo & Hin & Hlk) & Hst & Hc).
  pose proof (turn1 IFCONFIG k sc down master_fresh stop_ok stop_fits w0
                c1 c2 c3 c4 ev st w Hb) as Ht.
  unfold when in *. destruct c1 eqn:E1.
  - destruct Hb as ((Hh & _) & G1 & _). specialize (G1 eq_refl).
    destruct Hh as (done & _ & Hsz & _).
    destruct (w_stdin w) as [|[c|] s] eqn:Es.
    + pose proof (host_eof_status IFCONFIG k sc down stop_ok stop_fits ev st w Es)
        as He.
      destruct (host_readable IFCONFIG k ev sc st w) as [[st'|c| |] w'];
        try discriminate. cbn in He. congruence.
    + destruct (host_readable_data ev st w c s Hsz Es)
        as (cs & rest & st' & Heq & Hsplit & Hpos & Hclr & Hlen).
      rewrite Heq in Ht |- *. split; [exact Ht|]. split.
      * split; [exact Hgo|]. split; [|exact Hlk]. cbn.
        rewrite Es in Hsplit. rewrite Hsplit in Hin.
        eapply data_only_rest; eauto.
      * left. unfold owed in *. rewrite Hclr, Hlen. cbn [w_stdin set_stdin].
        rewrite G1 in Hst. rewrite Hsplit in Hst.
        rewrite length_app, length_map in Hst. lia.
    + inversion Hin as [|? ? Hx _]. congruence.
  - cbn. split; [exact Ht|]. split; [split; auto|].
    right. destruct Hc as [Hc | Hc]; [discriminate|]. split; [exact Hc | lia].
Qed.

Lemma live2 st :
  live (fun w => before2 sc w0 c2 c3 c4 st w /\ running w /\ stepped st w)
    (when c2 (link_readable IFCONFIG k ev sc) st)
    (fun st' w' => before3 sc w0 c3 c4 st' w' /\ running w' /\ stepped st' w').
Proof.
  intros w (Hb & (Hgo & Hin & Hlk) & Hst).
  pose proof (turn2 IFCONFIG k sc down master_pty master_fresh stop_ok stop_fits
                w0 c2 c3 c4 ev st w Hb) as Ht.
  unfold when in *. destruct c2.
  - destruct Hb as ((_ & Hl) & _). destruct Hl as (done & _ & Hsz & _).
    destruct (link_readable_clean ev st w Hsz Hlk) as (st' & rest & Heq & Hd).
    pose proof (link_readable_keeps IFCONFIG k sc master_fresh ev st w st' _ Heq)
      as Hsame.
    rewrite Heq in Ht |- *. split; [exact Ht|]. split.
    + split; [exact Hgo|]. split; [exact Hin | exact Hd].
    + unfold stepped. rewrite (owed_same _ _ _ _ Hsame). exact Hst.
  - cbn. split; [exact Ht|]. split; [split; auto | exact Hst].
Qed.

Lemma live3 st :
  live (fun w => before3 sc w0 c3 c4 st w /\ running w /\ stepped st w)
    (when c3 (link_writable IFCONFIG k ev sc) st)
    (fun st' w' => before4 sc w0 c4 st' w' /\ running w' /\ (owed st' w' < start)%nat).
Proof.
  intros w (Hb & (Hgo & Hin & Hlk) & Hst).
  pose proof (turn3 IFCONFIG k sc down master_pty master_fresh stop_ok stop_fits
                w0 c3 c4 ev st w Hb) as Ht.
  unfold when in *. unfold stepped in Hst. destruct c3 eqn:E3.
  - destruct Hb as ((Hh & _) & G3 & _). specialize (G3 eq_refl).
    destruct Hh as (done & _ & _ & [(_ & Hw & _) | (Hr & _ & Hdat & Hpos & _)]);
      [congruence|].
    destruct ev_fair as (_ & _ & _ & _ & Ha & _).
    destruct (link_writable_accepts ev st w Hdat Hpos Hr Ha)
      as (st' & out & Heq & Hprog).
    rewrite Heq in Ht |- *. split; [exact Ht|]. split; [split; auto|].
    assert (Ho : (owed st w <= start)%nat) by (destruct Hst as [H | [_ H]]; lia).
    unfold owed in *. cbn [w_stdin set_linkout]. rewrite Hr in Ho.
    destruct Hprog as [-> | [-> Hlt]]; lia.
  - cbn. split; [exact Ht|]. split; [split; auto|].
    destruct Hst as [H | [H _]]; [exact H | congruence].
Qed.

Lemma live4 st :
  live (fun w => before4 sc w0 c4 st w /\ running w /\ (owed st w < start)%nat)
    (when c4 (host_writable IFCONFIG k ev sc) st)
    (fun st' w' => relay_inv sc w0 st' w' /\ running w' /\ (owed st' w' < start)%nat).
Proof.
  intros w (Hb & (Hgo & Hin & Hlk) & Hst).
  pose proof (turn4 IFCONFIG k sc down master_fresh stop_ok stop_fits
                w0 c4 ev st w Hb) as Ht.
  unfold when in *. destruct c4.
  - destruct Hb as ((_ & Hl) & G4). specialize (G4 eq_refl).
    destruct Hl as (done & _ & _ & [(_ & Hw & _) | (_ & _ & Hdat & Hpos & _)]);
      [congruence|].
    destruct ev_fair as (_ & _ & _ & _ & _ & Ha).
    destruct (host_writable_accepts ev st w Hdat Hpos Ha) as (st' & out & Heq).
    pose proof (host_writable_keeps IFCONFIG k sc master_fresh ev st w st' _ Heq)
      as Hsame.
    rewrite Heq in Ht |- *. split; [exact Ht|]. split; [split; auto|].
    rewrite (owed_same _ _ _ _ Hsame). exact Hst.
  - cbn. split; [exact Ht|]. split; [split; auto | exact Hst].
Qed.

End FairTurn.

(** A fair turn makes a step for the host, or ends the process with
    status 0. *)
Lemma relay_iter_live ev st start :
  fair ev ->
  live (fun w => relay_inv sc w0 st w /\ running w /\ owed st w = start)
    (relay_iter IFCONFIG k ev sc st)
    (fun st' w' =>
       relay_inv sc w0 st' w' /\ running w' /\ (owed st' w' < start)%nat).
Proof.
  intros Hfair. pose proof Hfair as (Hsig & Hfail & Hrr & Hrw & _).
  unfold relay_iter.
  destruct (sys_select ev (sc_masterfd sc + 1) (rfds st) (wfds st))
    as [[n readfds] writefds] eqn:Esel.
  destruct (sys_select_fair _ _ _ _ _ _ _ 0 Hfail Hrr Hrw Esel ltac:(lia))
    as [R0 _].
  destruct (sys_select_fair _ _ _ _ _ _ _ 1 Hfail Hrr Hrw Esel ltac:(lia))
    as [_ W1].
  destruct (sys_select_fair _ _ _ _ _ _ _ (sc_masterfd sc) Hfail Hrr Hrw Esel
              ltac:(lia)) as [Rm Wm].
  intros w (Hinv & Hrun & Hst).
  assert (Hsome : FD_ISSET 0 readfds = true
                  \/ FD_ISSET (sc_masterfd sc) writefds = true).
  { rewrite R0, Wm. destruct Hinv as [(done & _ & _ & [(H & _) | (_ & H & _)]) _];
      auto. }
  assert (Hn : 0 < n).
  { destruct Hsome as [H | H].
    - apply (sys_select_positive _ _ _ _ _ _ _ 0 Esel Hfail ltac:(lia)). auto.
    - apply (sys_select_positive _ _ _ _ _ _ _ (sc_masterfd sc) Esel Hfail
               ltac:(lia)). auto. }
  replace (n >? 0) with true by (symmetry; apply Z.gtb_lt; exact Hn).
  rewrite Hsig.
  assert (Hblocks :
    live (fun w => relay_inv sc w0 st w /\ running w /\ owed st w = start)
      (st1 <- when (FD_ISSET 0 readfds) (host_readable IFCONFIG k ev sc) st ;;
       st2 <- when (FD_ISSET (sc_masterfd sc) readfds)
                (link_readable IFCONFIG k ev sc) st1 ;;
       st3 <- when (FD_ISSET (sc_masterfd sc) writefds)
                (link_writable IFCONFIG k ev sc) st2 ;;
       when (FD_ISSET 1 writefds) (host_writable IFCONFIG k ev sc) st3)%vmnet
      (fun st' w' =>
         relay_inv sc w0 st' w' /\ running w' /\ (owed st' w' < start)%nat)).
  { eapply live_bind.
    - intros w1 (Hi & Hr & Ho).
      apply (live1 _ (FD_ISSET (sc_masterfd sc) readfds)
               (FD_ISSET (sc_masterfd sc) writefds) (FD_ISSET 1 writefds)
               ev start st w1).
      split; [|split; [exact Hr | split; [exact Ho | exact Hsome]]].
      split; [exact Hi|]. rewrite R0, Wm, Rm, W1. auto.
    - intros st1. eapply live_bind; [apply live2; exact Hfair|].
      intros st2. eapply live_bind; [apply live3; exact Hfair|].
      intros st3. apply live4; exact Hfair. }
  specialize (Hblocks w (conj Hinv (conj Hrun Hst))).
  unfold bind at 1.
  match goal with |- context [let (r, w') := ?m w in _] =>
    destruct (m w) as [[st'|c| |] w']
  end; exact Hblocks.
Qed.

(** *** The loop *)

Lemma relay_loop_live evs :
  forall st w,
    Forall fair evs ->
    relay_inv sc w0 st w -> running w ->
    (owed st w < List.length evs)%nat ->
    fst (relay_loop IFCONFIG k evs sc st w) = Exit 0.
Proof.
  induction evs as [|ev evs IH]; intros st w Hf Hinv Hrun Ho.
  - simpl in Ho. lia.
  - cbn [relay_loop]. pose proof Hrun as (Hgo & _).
    replace (w_go w =? 0) with false by (symmetry; apply Z.eqb_neq; exact Hgo).
    inversion Hf as [|? ? Hev Hevs]; subst.
    pose proof (relay_iter_live ev st (owed st w) Hev w
                  (conj Hinv (conj Hrun eq_refl))) as Ht.
    unfold bind.
    destruct (relay_iter IFCONFIG k ev sc st w) as [[st'|c| |] w'];
      try contradiction.
    + destruct Ht as (Hi & Hr & Hlt). apply IH; auto. simpl in Ho. lia.
    + cbn. congruence.
Qed.

End Liveness.

Lemma establish_go_on IFCONFIG k sc w0 :
  establish IFCONFIG k (boot k) = (Ret sc, w0) ->
  k_signal_early k = false -> w_go w0 = 1.
Proof.
  unfold establish. unfold bind at 1. unfold sig_setup, ret.
  unfold bind at 1.
  destruct (login k (frame_sc k) (boot k)) as [[sc1|c| |] w1] eqn:E1;
    try discriminate.
  destruct (login_spec k (boot k) _ _ eq_refl E1) as [(_ & _ & _ & Hg1 & _) _].
  unfold bind at 1. unfold setuid, emit. unfold bind at 1.
  match goal with |- context [slip_start IFCONFIG k sc1 ?w2] =>
    destruct (slip_start IFCONFIG k sc1 w2) as [[sc2|c| |] w3] eqn:E2
  end; try discriminate.
  destruct (slip_start_spec _ _ _ _ _ _ E2) as (l & [(_ & _ & _ & _ & Hg2) _] & _).
  intros H Hs. rewrite Hs in H. unfold bind, deliver, ret in H.
  inversion H; subst. cbn in Hg1, Hg2. congruence.
Qed.

Lemma map_Data_inj a b : map Data a = map Data b -> a = b.
Proof.
  revert b. induction a as [|x a IH]; intros [|y b] H; try discriminate.
  - reflexivity.
  - inversion H; subst. f_equal. auto.
Qed.


(** A turn in which everything is ready and a [write] takes all it is
    given, and the sample run under seven such turns. *)
Definition eager : iter_env :=
  {| ev_signal := false; ev_select_fail := false;
     ev_ready_r := -1; ev_ready_w := -1;
     ev_chunk_host := 16384; ev_chunk_link := 16384;
     ev_accept_link := 16384; ev_accept_host := 16384 |}.

Definition eager_kernel : kernel :=
  sample_with (bytes (line "10.0.0.2" ++ "abc")) (bytes "xyz") (repeat eager 7).

Definition eager_start : res slipconn * world :=
  establish sample_ifconfig eager_kernel (boot eager_kernel).

Definition eager_session : slipconn :=
  match fst eager_start with
  | Ret sc => sc
  | _ => frame_sc eager_kernel
  end.

